(** * Metrics and trend aggregation engine of the admin dashboard

    A shallow embedding of [src/app/services/admin-dashboard.service.ts]
    (class [AdminDashboardService]) together with the platform pieces the
    service leans on: JavaScript numbers and values, [Date] arithmetic as
    ECMAScript defines it, and the query semantics of the document store.

    Conventions.
    - A JavaScript number is a binary64 float ([PrimFloat.float]).
    - A [Date] time value is an integer number of milliseconds since the
      epoch; the invalid date (time value NaN) is a separate constructor.
    - Local time is UTC plus the constant offset [tz] of the platform (no
      daylight-saving transitions).
    - JavaScript strings are byte strings; case mapping acts on ASCII. *)

From Stdlib Require Import ZArith Lia Floats Uint63 Bool Ascii String List.
From Stdlib Require Import Sorting.Sorted Sorting.Permutation.
From stdpp Require Import gmap strings.
Import ListNotations.

Local Open Scope string_scope.
Local Open Scope Z_scope.

#[local] Set Warnings "-register-all,-inexact-float".

(* ===================================================================== *)
(** * Part I. Definitions                                                 *)
(* ===================================================================== *)

(** ** JavaScript numbers *)

Definition number := float.

Definition Number_isNaN (x : number) : bool := PrimFloat.is_nan x.

Definition Number_isFinite (x : number) : bool :=
  negb (PrimFloat.is_nan x || PrimFloat.is_infinity x).

(** The integer part of a finite number, towards zero ([ToIntegerOrInfinity]
    on finite input); [None] for NaN and the infinities. *)
Definition truncate (x : number) : option Z :=
  match Prim2SF x with
  | S754_zero _ => Some 0
  | S754_finite s m e =>
      let mag := if (0 <=? e)%Z then Z.shiftl (Z.pos m) e
                 else Z.shiftr (Z.pos m) (- e) in
      Some (if s then - mag else mag)
  | _ => None
  end.

(** An integer as a number (exact below 2^53). *)
Definition number_of_Z (z : Z) : number :=
  if (z <? 0)%Z then (- PrimFloat.of_uint63 (Uint63.of_Z (- z)))%float
  else PrimFloat.of_uint63 (Uint63.of_Z z).

(** The mantissa of a finite number with its sign: the number is
    [signed s m * 2^e]. *)
Definition signed (s : bool) (m : positive) : Z := if s then Z.neg m else Z.pos m.

(** The integer nearest to [M * 2^e], the upper one of two:
    [floor (M * 2^e + 1/2)]. *)
Definition round_half_up (M e : Z) : Z :=
  if 0 <=? e then M * 2 ^ e else (2 * M + 2 ^ (- e)) / 2 ^ (1 - e).

(** [Math.round]: the integer closest to [x], ties towards +infinity.
    NaN, the infinities, both zeros and the numbers from 2^52 on (all of
    them integers) are returned unchanged; a negative number that rounds to
    zero gives -0. *)
Definition Math_round (x : number) : number :=
  match Prim2SF x with
  | S754_finite s m e =>
      if 0 <=? e then x
      else
        let n := round_half_up (signed s m) e in
        if n =? 0 then (if s then PrimFloat.neg_zero else PrimFloat.zero)
        else number_of_Z n
  | _ => x
  end.

(** [Number(b)] for a bigint [b]: the nearest number, ties to the even
    mantissa, an infinity beyond the range. *)
Definition Number_of_bigint (b : Z) : number :=
  SF2Prim (binary_normalize prec emax b 0 false).

(** ** JavaScript values held by documents *)

Inductive value :=
| VUndefined
| VNull
| VBool (b : bool)
| VNum (x : number)
| VStr (s : string)
| VTimestamp (seconds nanoseconds : Z)   (* the store's [Timestamp] class *)
| VMap (fields : gmap string value)      (* a plain object *)
| VArr (items : list value)
| VOpaque.                               (* GeoPoint, Bytes, references *)

Definition DocumentData := gmap string value.

(** What a parameter of type [unknown] is handed: a value of the kinds
    above, or a bigint. *)
Inductive unknown :=
| of_value (v : value)
| of_bigint (b : Z).

(** [data[key]]: a missing key reads as [undefined]. *)
Definition field (data : gmap string value) (key : string) : value :=
  default VUndefined (data !! key).

(** [v?.[key]] on a value. *)
Definition opt_field (v : value) (key : string) : value :=
  match v with
  | VMap fields => field fields key
  | _ => VUndefined
  end.

Definition truthy (v : value) : bool :=
  match v with
  | VUndefined | VNull => false
  | VBool b => b
  | VNum x => negb ((x =? 0)%float || PrimFloat.is_nan x)
  | VStr s => negb (String.eqb s "")
  | VTimestamp _ _ | VMap _ | VArr _ | VOpaque => true
  end.

(** [a || b] *)
Definition js_or (a b : value) : value := if truthy a then a else b.

(** [a ?? b] *)
Definition js_nullish (a b : value) : value :=
  match a with
  | VUndefined | VNull => b
  | _ => a
  end.

(** [a === b] between a document value and a string literal. *)
Definition strict_eq_str (a : value) (s : string) : bool :=
  match a with
  | VStr s' => String.eqb s' s
  | _ => false
  end.

(** ** The platform

    What the runtime and the locale decide, rather than the service: the
    local time offset, date-string parsing, coercions of non-numbers. *)

Class Platform := {
  (** local time = UTC + [tz] milliseconds *)
  tz : Z;
  (** [Date.parse]: [None] stands for NaN *)
  Date_parse : string -> option Z;
  (** [Number(v)] for a string or an object *)
  coerce_number : value -> number;
  (** [a + b] when one operand is not a number *)
  plus_other : value -> value -> value;
  (** [v.toString()] for a value that is not a string *)
  toString_other : value -> string;
  (** [String(Object.prototype[key])]: how a member that every object
      inherits prints, for the built-in functions their source text *)
  inherited_toString : string -> string;
  (** [new Intl.NumberFormat(undefined, {style: 'currency', currency, ...})]:
      the formatter, or [None] for the [RangeError] of a malformed code *)
  NumberFormat_currency : string -> option (number -> string)
}.

Section Coercions.
Context `{Platform}.

(** [Number(v)] *)
Definition Number_ (v : value) : number :=
  match v with
  | VNum x => x
  | VUndefined => nan
  | VNull => 0%float
  | VBool b => if b then 1%float else 0%float
  | _ => coerce_number v
  end.

(** [a + b] *)
Definition js_plus (a b : value) : value :=
  match a, b with
  | VNum x, VNum y => VNum (x + y)%float
  | _, _ => plus_other a b
  end.

(** [a * b] and [a - b] coerce both operands to numbers. *)
Definition js_times (a b : value) : number := (Number_ a * Number_ b)%float.
Definition js_minus (a b : value) : number := (Number_ a - Number_ b)%float.

(** [v.toString()] *)
Definition js_toString (v : value) : string :=
  match v with
  | VStr s => s
  | _ => toString_other v
  end.

(** [normalizeNumber(value)]: numbers other than NaN pass through, a
    bigint is converted, numeric strings are parsed, anything else is 0. *)
Definition normalizeNumber (value : unknown) : number :=
  match value with
  | of_value (VNum x) => if Number_isNaN x then 0%float else x
  | of_bigint b => Number_of_bigint b
  | of_value (VStr s) =>
      let parsed := Number_ (VStr s) in
      if Number_isNaN parsed then 0%float else parsed
  | of_value _ => 0%float
  end.

End Coercions.

(** ** Metric comparator *)

(** [calculateChange(current, previous)]; [None] is [null]. *)
Definition calculateChange (current previous : number) : option number :=
  if (previous =? 0)%float then
    if (current =? 0)%float then Some 0%float else None
  else
    let change := (((current - previous) / previous) * 100)%float in
    if negb (Number_isFinite change) then None
    else Some (Math_round (change * 10) / 10)%float.


(** ** Dates (ECMAScript, Date objects: time values and local time) *)

Definition msPerDay : Z := 86400000.
Definition msPerHour : Z := 3600000.

Definition Day (t : Z) : Z := t / msPerDay.
Definition TimeWithinDay (t : Z) : Z := t mod msPerDay.

Definition DayFromYear (y : Z) : Z :=
  365 * (y - 1970) + (y - 1969) / 4 - (y - 1901) / 100 + (y - 1601) / 400.

Definition isLeapYear (y : Z) : bool :=
  (y mod 4 =? 0) && (negb (y mod 100 =? 0) || (y mod 400 =? 0)).

(** The year of a day number: the largest [y] with [DayFromYear y <= d].
    [1970 + 400 d / 146097] is off by at most one. *)
Definition YearFromDay (d : Z) : Z :=
  let y0 := 1970 + (400 * d) / 146097 in
  if d <? DayFromYear y0 then y0 - 1
  else if DayFromYear (y0 + 1) <=? d then y0 + 1
  else y0.

Definition YearFromTime (t : Z) : Z := YearFromDay (Day t).
Definition InLeapYear (t : Z) : Z := if isLeapYear (YearFromTime t) then 1 else 0.
Definition DayWithinYear (t : Z) : Z := Day t - DayFromYear (YearFromTime t).

(** Day within the year on which month [m] (0..11) starts. *)
Definition monthStart (leap : Z) (m : Z) : Z :=
  match m with
  | 0 => 0
  | 1 => 31
  | 2 => 59 + leap
  | 3 => 90 + leap
  | 4 => 120 + leap
  | 5 => 151 + leap
  | 6 => 181 + leap
  | 7 => 212 + leap
  | 8 => 243 + leap
  | 9 => 273 + leap
  | 10 => 304 + leap
  | _ => 334 + leap
  end.

Definition MonthFromTime (t : Z) : Z :=
  let d := DayWithinYear t in
  let l := InLeapYear t in
  if d <? 31 then 0
  else if d <? 59 + l then 1
  else if d <? 90 + l then 2
  else if d <? 120 + l then 3
  else if d <? 151 + l then 4
  else if d <? 181 + l then 5
  else if d <? 212 + l then 6
  else if d <? 243 + l then 7
  else if d <? 273 + l then 8
  else if d <? 304 + l then 9
  else if d <? 334 + l then 10
  else 11.

Definition DateFromTime (t : Z) : Z :=
  DayWithinYear t - monthStart (InLeapYear t) (MonthFromTime t) + 1.

Definition HourFromTime (t : Z) : Z := (t / msPerHour) mod 24.

(** [MakeDay(year, month, date)]: months outside 0..11 carry into the
    year, dates outside the month carry into the neighbouring months. *)
Definition MakeDay (year month date : Z) : Z :=
  let ym := year + month / 12 in
  let mn := month mod 12 in
  DayFromYear ym + monthStart (if isLeapYear ym then 1 else 0) mn + date - 1.

Definition MakeTime (hour min sec ms : Z) : Z :=
  hour * msPerHour + min * 60000 + sec * 1000 + ms.

Definition MakeDate (day time : Z) : Z := day * msPerDay + time.

Section DateObjects.
Context `{Platform}.

Definition LocalTime (t : Z) : Z := t + tz.
Definition UTC (t : Z) : Z := t - tz.

(** Getters and setters of a valid [Date], on its time value. *)
Definition getFullYear (t : Z) : Z := YearFromTime (LocalTime t).
Definition getMonth (t : Z) : Z := MonthFromTime (LocalTime t).
Definition getDate (t : Z) : Z := DateFromTime (LocalTime t).
Definition getHours (t : Z) : Z := HourFromTime (LocalTime t).

(** [d.setHours(hour, min, sec, ms)] *)
Definition setHours (t : Z) (hour min sec ms : Z) : Z :=
  UTC (MakeDate (Day (LocalTime t)) (MakeTime hour min sec ms)).

(** [d.setDate(date)] *)
Definition setDate (t : Z) (date : Z) : Z :=
  let lt := LocalTime t in
  UTC (MakeDate (MakeDay (YearFromTime lt) (MonthFromTime lt) date)
                (TimeWithinDay lt)).

(** [d.setMonth(month)] and [d.setMonth(month, date)] *)
Definition setMonth (t : Z) (month : Z) : Z :=
  let lt := LocalTime t in
  UTC (MakeDate (MakeDay (YearFromTime lt) month (DateFromTime lt))
                (TimeWithinDay lt)).

Definition setMonth2 (t : Z) (month date : Z) : Z :=
  let lt := LocalTime t in
  UTC (MakeDate (MakeDay (YearFromTime lt) month date) (TimeWithinDay lt)).

(** [d.setFullYear(year)] *)
Definition setFullYear (t : Z) (year : Z) : Z :=
  let lt := LocalTime t in
  UTC (MakeDate (MakeDay year (MonthFromTime lt) (DateFromTime lt))
                (TimeWithinDay lt)).

(** [new Date(year, month, date, hours)] on integers: a year 0..99 means
    1900 + year. *)
Definition Date_of_fields (year month date hours : Z) : Z :=
  let yr := if (0 <=? year) && (year <=? 99) then 1900 + year else year in
  UTC (MakeDate (MakeDay yr month date) (MakeTime hours 0 0 0)).

End DateObjects.

(** A [Date] object: valid with a time value, or invalid. *)
Inductive Date :=
| InvalidDate
| DateOf (t : Z).

(** [d.getTime()], [None] for NaN. *)
Definition getTime (d : Date) : option Z :=
  match d with
  | InvalidDate => None
  | DateOf t => Some t
  end.

(** [TimeClip]. *)
Definition TimeClip (t : Z) : Date :=
  if Z.abs t <=? 8640000000000000 then DateOf t else InvalidDate.

(** [new Date(x)] for a number [x]. *)
Definition Date_of_number (x : number) : Date :=
  match truncate x with
  | Some t => TimeClip t
  | None => InvalidDate
  end.

(** ** Period resolver *)

Record DateRange := { range_start : Z; range_end : Z }.

Record PeriodBounds := { current : DateRange; previous : DateRange }.

Section PeriodResolver.
Context `{Platform}.

(** [getPeriodBounds(period)], with [now] the reading of [new Date()]. *)
Definition getPeriodBounds (period : string) (now : Z) : PeriodBounds :=
  let endCurrent := now in
  let startCurrent := setHours now 0 0 0 0 in
  if String.eqb period "today" then
    let previousStart := setDate startCurrent (getDate startCurrent - 1) in
    let previousEnd := startCurrent in
    {| current := {| range_start := startCurrent; range_end := endCurrent |};
       previous := {| range_start := previousStart; range_end := previousEnd |} |}
  else if String.eqb period "week" then
    let startCurrent := setDate startCurrent (getDate startCurrent - 6) in
    let previousEnd := startCurrent in
    let previousStart := setDate startCurrent (getDate startCurrent - 7) in
    {| current := {| range_start := startCurrent; range_end := endCurrent |};
       previous := {| range_start := previousStart; range_end := previousEnd |} |}
  else if String.eqb period "month" then
    let startCurrent := setDate startCurrent 1 in
    let previousEnd := startCurrent in
    let previousStart := setMonth startCurrent (getMonth startCurrent - 1) in
    {| current := {| range_start := startCurrent; range_end := endCurrent |};
       previous := {| range_start := previousStart; range_end := previousEnd |} |}
  else if String.eqb period "year" then
    let startCurrent := setMonth2 startCurrent 0 1 in
    let previousEnd := startCurrent in
    let previousStart := setFullYear startCurrent (getFullYear startCurrent - 1) in
    {| current := {| range_start := startCurrent; range_end := endCurrent |};
       previous := {| range_start := previousStart; range_end := previousEnd |} |}
  else
    {| current := {| range_start := startCurrent; range_end := endCurrent |};
       previous := {| range_start := startCurrent; range_end := startCurrent |} |}.

End PeriodResolver.

(** ** Strings: integers in decimal, padding, splitting, [parseInt] *)

Definition digit_char (d : Z) : ascii := ascii_of_nat (48 + Z.to_nat d).

Definition is_digit (c : ascii) : bool :=
  (48 <=? nat_of_ascii c)%nat && (nat_of_ascii c <=? 57)%nat.

Definition digit_value (c : ascii) : Z := Z.of_nat (nat_of_ascii c) - 48.

(** Decimal digits of [n >= 0], most significant first, in front of [acc]. *)
Fixpoint digits_onto (fuel : nat) (n : Z) (acc : string) : string :=
  let acc' := String (digit_char (n mod 10)) acc in
  match fuel with
  | O => acc'
  | S fuel' => if n <? 10 then acc' else digits_onto fuel' (n / 10) acc'
  end.

Definition digits (n : Z) : string := digits_onto (Z.to_nat (Z.log2 n)) n "".

(** [String(n)] (and [`${n}`]) for an integer [n]. *)
Definition string_of_Z (n : Z) : string :=
  if n <? 0 then String "-" (digits (- n)) else digits n.

Fixpoint repeat_char (n : nat) (c : ascii) : string :=
  match n with
  | O => ""
  | S n' => String c (repeat_char n' c)
  end.

(** [s.padStart(n, c)] for a one-character filler. *)
Definition padStart (s : string) (n : nat) (c : ascii) : string :=
  (repeat_char (n - String.length s) c ++ s)%string.

(** [s.split(/[- :]/)] *)
Definition is_key_delimiter (c : ascii) : bool :=
  Ascii.eqb c "-" || Ascii.eqb c " " || Ascii.eqb c ":".

Fixpoint split_on (delim : ascii -> bool) (s : string) : list string :=
  match s with
  | EmptyString => [""]
  | String c rest =>
      if delim c then "" :: split_on delim rest
      else match split_on delim rest with
           | h :: t => String c h :: t
           | [] => [String c ""]
           end
  end.

(** [parts[i]] *)
Definition part (parts : list string) (i : nat) : option string := nth_error parts i.

Definition is_space (c : ascii) : bool :=
  let n := nat_of_ascii c in
  (n =? 32)%nat || ((9 <=? n)%nat && (n <=? 13)%nat).

Fixpoint skip_spaces (s : string) : string :=
  match s with
  | String c rest => if is_space c then skip_spaces rest else s
  | EmptyString => s
  end.

(** Value of the longest prefix of decimal digits of [s] after [acc],
    and whether a digit was seen. *)
Fixpoint leading_digits (s : string) (acc : Z) (seen : bool) : Z * bool :=
  match s with
  | String c rest =>
      if is_digit c then leading_digits rest (10 * acc + digit_value c) true
      else (acc, seen)
  | EmptyString => (acc, seen)
  end.

Definition hex_value (c : ascii) : option Z :=
  let n := nat_of_ascii c in
  if is_digit c then Some (digit_value c)
  else if (97 <=? n)%nat && (n <=? 102)%nat then Some (Z.of_nat n - 87)
  else if (65 <=? n)%nat && (n <=? 70)%nat then Some (Z.of_nat n - 55)
  else None.

Fixpoint leading_hex (s : string) (acc : Z) (seen : bool) : Z * bool :=
  match s with
  | String c rest =>
      match hex_value c with
      | Some d => leading_hex rest (16 * acc + d) true
      | None => (acc, seen)
      end
  | EmptyString => (acc, seen)
  end.

Definition parse_magnitude (s : string) : option Z :=
  let '(v, seen) :=
    match s with
    | String "0" (String x rest) =>
        if Ascii.eqb x "x" || Ascii.eqb x "X" then leading_hex rest 0 false
        else leading_digits s 0 false
    | _ => leading_digits s 0 false
    end in
  if seen then Some v else None.

(** [parseInt(s)]; [None] is NaN. *)
Definition parseInt (s : string) : option Z :=
  match skip_spaces s with
  | String "-" rest => option_map Z.opp (parse_magnitude rest)
  | String "+" rest => parse_magnitude rest
  | s' => parse_magnitude s'
  end.

(** [parseInt(x)] of a possibly missing array element: [undefined] reads
    as the string "undefined", which has no digits. *)
Definition parseInt_opt (x : option string) : option Z :=
  match x with
  | Some s => parseInt s
  | None => None
  end.

Definition to_lower_char (c : ascii) : ascii :=
  let n := nat_of_ascii c in
  if (65 <=? n)%nat && (n <=? 90)%nat then ascii_of_nat (n + 32) else c.

Definition to_upper_char (c : ascii) : ascii :=
  let n := nat_of_ascii c in
  if (97 <=? n)%nat && (n <=? 122)%nat then ascii_of_nat (n - 32) else c.

Fixpoint map_string (f : ascii -> ascii) (s : string) : string :=
  match s with
  | EmptyString => EmptyString
  | String c rest => String (f c) (map_string f rest)
  end.

Definition toLowerCase : string -> string := map_string to_lower_char.
Definition toUpperCase : string -> string := map_string to_upper_char.

(** ** [Map]: insertion-ordered, keyed by strings *)

Definition JSMap (V : Type) := list (string * V).

Fixpoint Map_get {V} (m : JSMap V) (k : string) : option V :=
  match m with
  | [] => None
  | (k', v) :: rest => if String.eqb k' k then Some v else Map_get rest k
  end.

Definition Map_has {V} (m : JSMap V) (k : string) : bool :=
  match Map_get m k with Some _ => true | None => false end.

(** [m.set(k, v)]: an existing key keeps its place, a new one goes last. *)
Fixpoint Map_set {V} (m : JSMap V) (k : string) (v : V) : JSMap V :=
  match m with
  | [] => [(k, v)]
  | (k', v') :: rest =>
      if String.eqb k' k then (k, v) :: rest else (k', v') :: Map_set rest k v
  end.

(** ** [Array.prototype.sort]

    The comparator returns a number, [None] for NaN (which [sort] reads as
    0).  [sort] is stable: for a consistent comparator its result is the
    one computed here by insertion.  A comparator that answers NaN for some
    pairs and a sign for others is not consistent, and the order is then
    left to the engine; an array in which no element is to go before its
    left neighbour is handed back as it is, here as there. *)

Definition sorts_before (r : option Z) : bool :=
  match r with
  | Some z => z <=? 0
  | None => true
  end.

Fixpoint sort_insert {A} (cmp : A -> A -> option Z) (x : A) (l : list A) : list A :=
  match l with
  | [] => [x]
  | y :: rest =>
      if sorts_before (cmp x y) then x :: y :: rest
      else y :: sort_insert cmp x rest
  end.

Fixpoint Array_sort {A} (cmp : A -> A -> option Z) (l : list A) : list A :=
  match l with
  | [] => []
  | x :: rest => sort_insert cmp x (Array_sort cmp rest)
  end.

(** No element of the array is to go before its left neighbour. *)
Fixpoint neighbours_in_order {A} (cmp : A -> A -> option Z) (l : list A) : bool :=
  match l with
  | x :: rest =>
      match rest with
      | y :: _ => sorts_before (cmp x y)
      | [] => true
      end && neighbours_in_order cmp rest
  | [] => true
  end.

(** [l.slice(0, n)] for a count [n]. *)
Definition slice0 {A} (l : list A) (n : nat) : list A := firstn n l.

(** ** The document store

    Collections of documents, queried through constraints.  A query keeps
    the documents matching every [where], orders them ([orderBy] keeps only
    documents that have the field; an inequality without [orderBy] orders by
    its field), and cuts the result at [limit].  The store may reject any
    request (unsupported aggregate, missing index, quota, network). *)

Inductive outcome (A : Type) :=
| Fulfilled (a : A)
| Rejected.
Arguments Fulfilled {A} a.
Arguments Rejected {A}.

Record Document := { doc_id : string; doc_data : gmap string value }.

Inductive WhereOp := op_eq | op_ge | op_lt.

Inductive QueryConstraint :=
| where_ (fieldPath : string) (op : WhereOp) (v : value)
| orderBy (fieldPath : string) (desc : bool)
| limit (n : nat).

Record Query := { q_path : string; q_constraints : list QueryConstraint }.

Definition query (path : string) (constraints : list QueryConstraint) : Query :=
  {| q_path := path; q_constraints := constraints |}.

(** Order of the store between values: first by type, then within it. *)
Definition value_rank (v : value) : Z :=
  match v with
  | VUndefined => -1
  | VNull => 0
  | VBool _ => 1
  | VNum _ => 2
  | VTimestamp _ _ => 3
  | VStr _ => 4
  | VOpaque => 5
  | VArr _ => 6
  | VMap _ => 7
  end.

Definition number_compare (x y : number) : comparison :=
  if PrimFloat.is_nan x then (if PrimFloat.is_nan y then Eq else Lt)
  else if PrimFloat.is_nan y then Gt
  else if (x <? y)%float then Lt
  else if (y <? x)%float then Gt
  else Eq.

(** Arrays, maps and opaque values are not compared further than by type. *)
Definition value_compare (a b : value) : comparison :=
  match a, b with
  | VBool x, VBool y => Bool.compare x y
  | VNum x, VNum y => number_compare x y
  | VTimestamp s1 n1, VTimestamp s2 n2 =>
      match s1 ?= s2 with Eq => n1 ?= n2 | c => c end
  | VStr x, VStr y => String.compare x y
  | _, _ => value_rank a ?= value_rank b
  end.

Definition comparable (v : value) : bool :=
  match v with
  | VNull | VBool _ | VNum _ | VTimestamp _ _ | VStr _ => true
  | _ => false
  end.

Definition matches_where (data : gmap string value) (f : string) (op : WhereOp) (v : value) : bool :=
  let x := field data f in
  comparable x && (value_rank x =? value_rank v) &&
  match op, value_compare x v with
  | op_eq, Eq => true
  | op_ge, (Eq | Gt) => true
  | op_lt, Lt => true
  | _, _ => false
  end.

Definition matches (c : QueryConstraint) (d : Document) : bool :=
  match c with
  | where_ f op v => matches_where (doc_data d) f op v
  | _ => true
  end.

Definition matches_all (cs : list QueryConstraint) (d : Document) : bool :=
  forallb (fun c => matches c d) cs.

Definition has_field (f : string) (d : Document) : bool :=
  match doc_data d !! f with Some _ => true | None => false end.

Definition compare_number (c : comparison) : option Z :=
  Some (match c with Lt => -1 | Eq => 0 | Gt => 1 end).

(** Documents that have field [f], ordered by it; equal values stay in
    document order when ascending and in reverse when descending. *)
Definition order_by (f : string) (desc : bool) (docs : list Document) : list Document :=
  let asc :=
    Array_sort
      (fun a b => compare_number
                    (value_compare (field (doc_data a) f) (field (doc_data b) f)))
      (List.filter (has_field f) docs) in
  if desc then rev asc else asc.

Fixpoint first_orderBy (cs : list QueryConstraint) : option (string * bool) :=
  match cs with
  | [] => None
  | orderBy f desc :: _ => Some (f, desc)
  | _ :: rest => first_orderBy rest
  end.

Fixpoint first_inequality (cs : list QueryConstraint) : option string :=
  match cs with
  | [] => None
  | where_ f (op_ge | op_lt) _ :: _ => Some f
  | _ :: rest => first_inequality rest
  end.

Fixpoint first_limit (cs : list QueryConstraint) : option nat :=
  match cs with
  | [] => None
  | limit n :: _ => Some n
  | _ :: rest => first_limit rest
  end.

(** The documents that satisfy every [where] of the query. *)
Definition matching_docs (docs : list Document) (cs : list QueryConstraint) : list Document :=
  List.filter (matches_all cs) docs.

Definition run_query (docs : list Document) (cs : list QueryConstraint) : list Document :=
  let matching := matching_docs docs cs in
  let ordered :=
    match first_orderBy cs with
    | Some (f, desc) => order_by f desc matching
    | None =>
        match first_inequality cs with
        | Some f => order_by f false matching
        | None => matching
        end
    end in
  match first_limit cs with
  | Some n => firstn n ordered
  | None => ordered
  end.

Inductive Request :=
| req_getDocs (q : Query)
| req_count (q : Query)
| req_aggregate (q : Query) (sumField : string).

Record Firestore := {
  (** the documents of a collection, in document-id order *)
  collection : string -> list Document;
  (** the requests the backend turns down, each time they are made *)
  rejects : Request -> bool
}.

Definition getDocs (fs : Firestore) (q : Query) : outcome (list Document) :=
  if rejects fs (req_getDocs q) then Rejected
  else Fulfilled (run_query (collection fs (q_path q)) (q_constraints q)).

(** Server-side aggregates range over the matching documents of the
    query; its order plays no part.  [count()] is their number. *)
Definition count_of (docs : list Document) : Z := Z.of_nat (List.length docs).

(** [sum(f)]: the numeric values of field [f]; other types are skipped.
    The store does not say in which order it adds them up: they are added
    here in document order, and no property below rests on that order. *)
Definition sum_step (f : string) (acc : number) (d : Document) : number :=
  match field (doc_data d) f with
  | VNum x => (acc + x)%float
  | _ => acc
  end.

Definition sum_of (f : string) (docs : list Document) : number :=
  fold_left (sum_step f) docs 0%float.

Definition getCountFromServer (fs : Firestore) (q : Query) : outcome Z :=
  if rejects fs (req_count q) then Rejected
  else Fulfilled (count_of (matching_docs (collection fs (q_path q)) (q_constraints q))).

(** [getAggregateFromServer(q, {orderCount: count(), totalRevenue: sum(f)})] *)
Definition getAggregateFromServer (fs : Firestore) (q : Query) (sumField : string)
  : outcome (Z * number) :=
  if rejects fs (req_aggregate q sumField) then Rejected
  else
    let docs := matching_docs (collection fs (q_path q)) (q_constraints q) in
    Fulfilled (count_of docs, sum_of sumField docs).

(** [Timestamp.fromDate(d)] *)
Definition Timestamp_fromDate (t : Z) : value :=
  VTimestamp (t / 1000) ((t mod 1000) * 1000000).

(** A number of nanoseconds that makes whole milliseconds, as those of
    the timestamps [Timestamp.fromDate] builds. *)
Definition whole_milliseconds (nanoseconds : Z) : Prop := nanoseconds mod 1000000 = 0.

(** [ts.toDate()]: the time value is the timestamp in milliseconds, cut
    to an integer.  The library computes [seconds * 1000 + nanoseconds / 1e6]
    in binary64 before it cuts: that is the value below for a timestamp of
    whole milliseconds, and can be one millisecond more for a timestamp
    less than a binary64 rounding step below the next millisecond. *)
Definition Timestamp_toDate (seconds nanoseconds : Z) : Date :=
  TimeClip (Z.quot (seconds * 1000000000 + nanoseconds) 1000000).

(** ** Timestamps of records *)

Section Timestamps.
Context `{Platform}.

(** [extractTimestamp(value)], with [now] the reading of [new Date()]. *)
Definition extractTimestamp (now : Z) (v : value) : Date :=
  if negb (truthy v) then DateOf now
  else
    match v with
    | VTimestamp s n => Timestamp_toDate s n           (* instanceof Timestamp *)
    | VNum x => Date_of_number x                       (* typeof 'number' *)
    | VStr s =>                                        (* typeof 'string' *)
        match Date_parse s with
        | None => DateOf now
        | Some parsed => DateOf parsed
        end
    | VMap fields =>
        (* stored data holds no function, so no [toDate] method *)
        match fields !! "seconds" with                 (* 'seconds' in value *)
        | Some seconds => Date_of_number (js_times seconds (VNum 1000%float))
        | None => DateOf now
        end
    | _ => DateOf now
    end.

End Timestamps.

(** [timestamp >= range.start && timestamp < range.end] *)
Definition in_range (timestamp : Date) (range : DateRange) : bool :=
  match timestamp with
  | InvalidDate => false
  | DateOf t => (range_start range <=? t) && (t <? range_end range)
  end.

(** ** Resilient aggregator *)

Record OrdersAggregate := { agg_count : Z; agg_revenue : number; agg_average : number }.

Definition round2 (x : number) : number := (Math_round (x * 100) / 100)%float.

Definition make_aggregate (countValue : Z) (revenueValue : number) : OrdersAggregate :=
  let averageValue :=
    if (0 <? countValue) then (revenueValue / number_of_Z countValue)%float
    else 0%float in
  {| agg_count := countValue;
     agg_revenue := round2 revenueValue;
     agg_average := round2 averageValue |}.

Record CountOptions := {
  fallbackField : option string;
  additionalFilters : option (list QueryConstraint);
  filterPredicate : option (gmap string value -> bool)
}.

Definition no_options : CountOptions :=
  {| fallbackField := None; additionalFilters := None; filterPredicate := None |}.

Section Aggregator.
Context `{Platform}.

Definition buildRangeConstraints (range : DateRange) (f : string) : list QueryConstraint :=
  let start := Timestamp_fromDate (range_start range) in
  let end_ := Timestamp_fromDate (range_end range) in
  [where_ f op_ge start; where_ f op_lt end_].

(** The body of the fallback loop of [aggregateOrders], for the record
    met at clock reading [now]. *)
Definition aggregateOrders_step (range : DateRange) (now : Z) (data : gmap string value)
    (acc : Z * number) : Z * number :=
  let '(countValue, revenueValue) := acc in
  let timestamp := extractTimestamp now (field data "createdAt") in
  if in_range timestamp range then
    let total :=
      match field data "total" with
      | VNum x => x
      | v => Number_ (js_nullish v (VNum 0%float))
      end in
    (countValue + 1,
     if negb (Number_isNaN total) then (revenueValue + total)%float else revenueValue)
  else (countValue, revenueValue).

(** [snapshot.forEach] of the fallback; [clock i] is what [new Date()]
    reads while record [i] is handled. *)
Fixpoint aggregateOrders_loop (range : DateRange) (clock : nat -> Z) (i : nat)
    (docs : list Document) (acc : Z * number) : Z * number :=
  match docs with
  | [] => acc
  | d :: rest =>
      aggregateOrders_loop range clock (S i) rest
        (aggregateOrders_step range (clock i) (doc_data d) acc)
  end.

(** The two paths of [aggregateOrders] over the records they are given. *)
Definition aggregateOrders_server (records : list Document) (range : DateRange)
  : OrdersAggregate :=
  let matching := matching_docs records (buildRangeConstraints range "createdAt") in
  make_aggregate (count_of matching) (normalizeNumber (of_value (VNum (sum_of "total" matching)))).

Definition aggregateOrders_scan (clock : nat -> Z) (records : list Document)
    (range : DateRange) : OrdersAggregate :=
  let '(countValue, revenueValue) :=
    aggregateOrders_loop range clock 0 records (0, 0%float) in
  make_aggregate countValue revenueValue.

(** [aggregateOrders(range)] *)
Definition aggregateOrders (fs : Firestore) (clock : nat -> Z) (range : DateRange)
  : outcome OrdersAggregate :=
  let constraints := buildRangeConstraints range "createdAt" in
  match getAggregateFromServer fs (query "orders" constraints) "total" with
  | Fulfilled (orderCount, totalRevenue) =>
      Fulfilled (make_aggregate orderCount (normalizeNumber (of_value (VNum totalRevenue))))
  | Rejected =>
      match getDocs fs (query "orders" [orderBy "createdAt" true]) with
      | Fulfilled snapshot => Fulfilled (aggregateOrders_scan clock snapshot range)
      | Rejected => Rejected
      end
  end.

Definition option_or {A} (o : option A) (d : A) : A :=
  match o with Some a => a | None => d end.

(** The body of the fallback loop of [countDocumentsInRange]. *)
Definition countDocuments_step (timestampField : string) (range : DateRange)
    (options : CountOptions) (now : Z) (data : gmap string value) (countValue : Z) : Z :=
  if match filterPredicate options with
     | Some p => negb (p data)
     | None => false
     end
  then countValue
  else
    let timestamp :=
      extractTimestamp now
        (js_nullish (field data timestampField)
           (match fallbackField options with
            | Some f => field data f
            | None => VUndefined
            end)) in
    if in_range timestamp range then countValue + 1 else countValue.

Fixpoint countDocuments_loop (timestampField : string) (range : DateRange)
    (options : CountOptions) (clock : nat -> Z) (i : nat) (docs : list Document)
    (countValue : Z) : Z :=
  match docs with
  | [] => countValue
  | d :: rest =>
      countDocuments_loop timestampField range options clock (S i) rest
        (countDocuments_step timestampField range options (clock i) (doc_data d) countValue)
  end.

Definition countDocuments_constraints (timestampField : string) (range : DateRange)
    (options : CountOptions) : list QueryConstraint :=
  (buildRangeConstraints range timestampField
     ++ option_or (additionalFilters options) [])%list.

(** The two paths of [countDocumentsInRange] over the records they are
    given. *)
Definition countDocuments_server (records : list Document) (timestampField : string)
    (range : DateRange) (options : CountOptions) : Z :=
  count_of (matching_docs records (countDocuments_constraints timestampField range options)).

Definition countDocuments_scan (clock : nat -> Z) (records : list Document)
    (timestampField : string) (range : DateRange) (options : CountOptions) : Z :=
  countDocuments_loop timestampField range options clock 0 records 0.

(** [countDocumentsInRange(collectionPath, timestampField, range, options)] *)
Definition countDocumentsInRange (fs : Firestore) (clock : nat -> Z)
    (collectionPath timestampField : string) (range : DateRange)
    (options : CountOptions) : outcome Z :=
  let constraints := countDocuments_constraints timestampField range options in
  match getCountFromServer fs (query collectionPath constraints) with
  | Fulfilled n => Fulfilled n
  | Rejected =>
      match getDocs fs (query collectionPath
               [orderBy (option_or (fallbackField options) timestampField) true]) with
      | Fulfilled fallbackRef =>
          Fulfilled (countDocuments_scan clock fallbackRef timestampField range options)
      | Rejected => Rejected
      end
  end.

End Aggregator.

(** ** Trend bucketizer *)

Record TrendBucket := { revenue : value; orders : Z; profit : number }.

Record TrendPoint := { date : Date; point : TrendBucket }.

Section Trend.
Context `{Platform}.

Definition pad2 (n : Z) : string := padStart (string_of_Z n) 2 "0".

(** [getDateKey(date, period)]; every field of an invalid date prints
    as NaN. *)
Definition getDateKey (d : Date) (period : string) : string :=
  match d with
  | DateOf t =>
      let year := string_of_Z (getFullYear t) in
      let month := pad2 (getMonth t + 1) in
      let day := pad2 (getDate t) in
      if String.eqb period "today" then
        year ++ "-" ++ month ++ "-" ++ day ++ " " ++ pad2 (getHours t) ++ ":00"
      else if String.eqb period "week" || String.eqb period "month" then
        year ++ "-" ++ month ++ "-" ++ day
      else if String.eqb period "year" then
        year ++ "-" ++ month
      else
        year ++ "-" ++ month ++ "-" ++ day
  | InvalidDate =>
      if String.eqb period "today" then "NaN-NaN-NaN NaN:00"
      else if String.eqb period "year" then "NaN-NaN"
      else "NaN-NaN-NaN"
  end%string.

(** [new Date(year, month, date, hours)]; a NaN argument gives the
    invalid date. *)
Definition new_Date (year month day hours : option Z) : Date :=
  match year, month, day, hours with
  | Some y, Some m, Some d, Some h => TimeClip (Date_of_fields y m d h)
  | _, _, _, _ => InvalidDate
  end.

(** [parseDateKey(key, period)] *)
Definition parseDateKey (key : string) (period : string) : Date :=
  let parts := split_on is_key_delimiter key in
  let year := parseInt_opt (part parts 0) in
  let month := option_map (fun m => m - 1) (parseInt_opt (part parts 1)) in
  if String.eqb period "today" then
    let day := parseInt_opt (part parts 2) in
    let hour := parseInt_opt (part parts 3) in
    new_Date year month day hour
  else if String.eqb period "week" || String.eqb period "month" then
    new_Date year month (parseInt_opt (part parts 2)) (Some 0)
  else if String.eqb period "year" then
    new_Date year month (Some 1) (Some 0)
  else
    new_Date year month
      (parseInt (match part parts 2 with
                 | Some s => if String.eqb s "" then "1" else s
                 | None => "1"
                 end))
      (Some 0).

(** [data['createdAt']?.toDate()]: [undefined] for a missing value, a
    [TypeError] for a value without that method. *)
Definition createdAt_toDate (v : value) : outcome (option Date) :=
  match v with
  | VUndefined | VNull => Fulfilled None
  | VTimestamp s n => Fulfilled (Some (Timestamp_toDate s n))
  | _ => Rejected
  end.

Definition trend_amount (data : gmap string value) : value :=
  js_or (field data "totalAmount") (VNum 0%float).

(** [data['costPrice'] || (amount * 0.7)] *)
Definition trend_cost (data : gmap string value) : value :=
  js_or (field data "costPrice") (VNum (js_times (trend_amount data) (VNum 0.7%float))).

(** [amount - cost], what a record adds to the profit of its bucket. *)
Definition profit_contribution (data : gmap string value) : number :=
  js_minus (trend_amount data) (trend_cost data).

Definition empty_bucket : TrendBucket :=
  {| revenue := VNum 0%float; orders := 0; profit := 0%float |}.

(** The body of [snapshot.forEach] in [getRevenueTrend]. *)
Definition trend_step (period : string) (data : gmap string value)
    (grouped : JSMap TrendBucket) : outcome (JSMap TrendBucket) :=
  match createdAt_toDate (field data "createdAt") with
  | Rejected => Rejected
  | Fulfilled None => Fulfilled grouped
  | Fulfilled (Some d) =>
      let key := getDateKey d period in
      let current := option_or (Map_get grouped key) empty_bucket in
      let amount := trend_amount data in
      Fulfilled
        (Map_set grouped key
           {| revenue := js_plus (revenue current) amount;
              orders := orders current + 1;
              profit := (profit current + profit_contribution data)%float |})
  end.

Fixpoint trend_loop (period : string) (docs : list Document)
    (grouped : JSMap TrendBucket) : outcome (JSMap TrendBucket) :=
  match docs with
  | [] => Fulfilled grouped
  | d :: rest =>
      match trend_step period (doc_data d) grouped with
      | Fulfilled grouped' => trend_loop period rest grouped'
      | Rejected => Rejected
      end
  end.

(** [(a, b) => a.date.getTime() - b.date.getTime()] *)
Definition by_date (a b : TrendPoint) : option Z :=
  match getTime (date a), getTime (date b) with
  | Some x, Some y => Some (x - y)
  | _, _ => None
  end.

Definition trend_points (period : string) (grouped : JSMap TrendBucket) : list TrendPoint :=
  Array_sort by_date
    (map (fun '(key, v) => {| date := parseDateKey key period; point := v |}) grouped).

Definition trend_query (range : DateRange) : Query :=
  query "orders"
    [where_ "status" op_eq (VStr "completed");
     where_ "createdAt" op_ge (Timestamp_fromDate (range_start range));
     where_ "createdAt" op_lt (Timestamp_fromDate (range_end range));
     orderBy "createdAt" false].

(** [getRevenueTrend(period)]: any failure inside yields the empty list. *)
Definition getRevenueTrend (fs : Firestore) (now : Z) (period : string) : list TrendPoint :=
  let range := current (getPeriodBounds period now) in
  match getDocs fs (trend_query range) with
  | Rejected => []
  | Fulfilled snapshot =>
      match trend_loop period snapshot [] with
      | Rejected => []
      | Fulfilled grouped => trend_points period grouped
      end
  end.

End Trend.

(** ** Country and region classifier *)

Inductive Region := LATAM | EU | APAC | NA | MENA | OTHER.

Fixpoint lookup_table (table : list (string * string)) (k : string) : option string :=
  match table with
  | [] => None
  | (k', v) :: rest => if String.eqb k' k then Some v else lookup_table rest k
  end.

Definition nameToCode : list (string * string) :=
  [ ("United States", "US"); ("United States of America", "US"); ("USA", "US");
    ("United Kingdom", "GB"); ("UK", "GB");
    ("Brazil", "BR"); ("Brasil", "BR");
    ("Mexico", "MX"); ("México", "MX");
    ("Germany", "DE"); ("Deutschland", "DE");
    ("France", "FR");
    ("Spain", "ES"); ("España", "ES");
    ("Italy", "IT"); ("Italia", "IT");
    ("Canada", "CA"); ("Canadá", "CA");
    ("Australia", "AU"); ("Japan", "JP"); ("China", "CN"); ("India", "IN");
    ("Singapore", "SG"); ("Netherlands", "NL"); ("Argentina", "AR");
    ("Chile", "CL"); ("Colombia", "CO");
    ("Peru", "PE"); ("Perú", "PE") ].

(** The members every plain object inherits from [Object.prototype]:
    functions, but for [__proto__], which reads as the prototype itself.
    [table[key]] finds them like the entries of the table. *)
Definition Object_prototype_keys : list string :=
  [ "constructor"; "hasOwnProperty"; "isPrototypeOf"; "propertyIsEnumerable";
    "toLocaleString"; "toString"; "valueOf"; "__proto__";
    "__defineGetter__"; "__defineSetter__"; "__lookupGetter__"; "__lookupSetter__" ].

Definition includes (l : list string) (x : string) : bool :=
  existsb (String.eqb x) l.

(** What [convertCountryNameToCode] hands back: a string, or the inherited
    member found under the name. *)
Inductive CountryLookup :=
| country_string (s : string)
| inherited_member (key : string).

(** [convertCountryNameToCode(name)]: [nameToCode[name] || name]; every
    code of the table is a non-empty string, and every inherited member
    is truthy. *)
Definition convertCountryNameToCode (name : string) : CountryLookup :=
  match lookup_table nameToCode name with
  | Some code => country_string code
  | None =>
      if includes Object_prototype_keys name then inherited_member name
      else country_string name
  end.

Definition countryNames : list (string * string) :=
  [ ("BR", "Brazil"); ("MX", "Mexico"); ("AR", "Argentina"); ("CL", "Chile");
    ("CO", "Colombia"); ("PE", "Peru"); ("VE", "Venezuela"); ("EC", "Ecuador");
    ("GB", "United Kingdom"); ("DE", "Germany"); ("FR", "France"); ("ES", "Spain");
    ("IT", "Italy"); ("NL", "Netherlands"); ("SE", "Sweden"); ("NO", "Norway");
    ("PL", "Poland"); ("CH", "Switzerland");
    ("CN", "China"); ("JP", "Japan"); ("KR", "South Korea"); ("IN", "India");
    ("AU", "Australia"); ("SG", "Singapore"); ("TH", "Thailand"); ("VN", "Vietnam");
    ("ID", "Indonesia"); ("MY", "Malaysia"); ("PH", "Philippines");
    ("US", "United States"); ("CA", "Canada");
    ("AE", "UAE"); ("SA", "Saudi Arabia"); ("IL", "Israel"); ("TR", "Turkey") ].

(** [getCountryName(code)]: [countryNames[code] || code].  The service
    calls it on the upper-case strings of [extractCountryCode], none of
    which names a member that objects inherit. *)
Definition getCountryName (code : string) : string :=
  match lookup_table countryNames code with
  | Some name => name
  | None => code
  end.

(** [getRegion(code)] *)
Definition getRegion (code : string) : Region :=
  let latinAmerica := ["BR"; "MX"; "AR"; "CL"; "CO"; "PE"; "VE"; "EC"; "UY"; "PY"; "BO"] in
  let europe := ["GB"; "DE"; "FR"; "ES"; "IT"; "NL"; "SE"; "NO"; "PL"; "CH"; "AT"; "BE";
                 "DK"; "FI"; "IE"; "PT"] in
  let apac := ["CN"; "JP"; "KR"; "IN"; "AU"; "SG"; "TH"; "VN"; "ID"; "MY"; "PH"; "NZ";
               "HK"; "TW"] in
  let northAmerica := ["US"; "CA"] in
  let mena := ["AE"; "SA"; "IL"; "TR"; "EG"; "QA"; "KW"; "OM"; "BH"; "JO"; "LB"] in
  if includes latinAmerica code then LATAM
  else if includes europe code then EU
  else if includes apac code then APAC
  else if includes northAmerica code then NA
  else if includes mena code then MENA
  else OTHER.

Record GeoDataPoint := {
  country : string;
  countryCode : string;
  region : Region;
  quotes : Z;
  conversions : Z;
  geo_revenue : value
}.

Section Geography.
Context `{Platform}.

(** [extractCountryCode(data)] *)
Definition extractCountryCode (data : gmap string value) : string :=
  let country :=
    js_or (field data "countryCode")
    (js_or (field data "country")
    (js_or (opt_field (field data "shippingAddress") "countryCode")
    (js_or (opt_field (field data "shippingAddress") "country")
    (js_or (opt_field (field data "billingAddress") "countryCode")
    (js_or (opt_field (field data "billingAddress") "country")
           (field data "customerCountry")))))) in
  match country with
  | VStr s =>
      if (2 <? String.length s)%nat then
        match convertCountryNameToCode s with
        | country_string c => if String.eqb c "" then "" else toUpperCase c
        | inherited_member key => toUpperCase (inherited_toString key)
        end
      else if truthy country then toUpperCase s else ""
  | _ =>
      (* an array or object with a [length] above 2 is looked up under its
         string form, which is neither an entry nor an inherited member, and
         handed back as it is *)
      if truthy country then toUpperCase (js_toString country) else ""
  end.

Definition geo_entry (m : JSMap GeoDataPoint) (code : string) : JSMap GeoDataPoint :=
  if negb (Map_has m code) then
    Map_set m code
      {| country := getCountryName code; countryCode := code;
         region := getRegion code;
         quotes := 0; conversions := 0; geo_revenue := VNum 0%float |}
  else m.

Definition blank_point : GeoDataPoint :=
  {| country := ""; countryCode := ""; region := OTHER;
     quotes := 0; conversions := 0; geo_revenue := VUndefined |}.

(** The body of [quotesSnapshot.docs.forEach]. *)
Definition geo_quote_step (geoMap : JSMap GeoDataPoint) (d : Document) : JSMap GeoDataPoint :=
  let code := extractCountryCode (doc_data d) in
  if String.eqb code "" then geoMap
  else
    let geoMap := geo_entry geoMap code in
    let cur := option_or (Map_get geoMap code) blank_point in
    Map_set geoMap code
      {| country := country cur; countryCode := countryCode cur; region := region cur;
         quotes := quotes cur + 1;
         conversions := conversions cur; geo_revenue := geo_revenue cur |}.

(** The body of [ordersSnapshot.forEach]; [noQuotes] is
    [quotesSnapshot.docs.length === 0]. *)
Definition geo_order_step (noQuotes : bool) (geoMap : JSMap GeoDataPoint) (d : Document)
  : JSMap GeoDataPoint :=
  let data := doc_data d in
  let code := extractCountryCode data in
  if String.eqb code "" then geoMap
  else
    let status := toLowerCase (js_toString (js_or (field data "status") (VStr "pending"))) in
    let geoMap := geo_entry geoMap code in
    let cur := option_or (Map_get geoMap code) blank_point in
    let quotes1 := if noQuotes then quotes cur + 1 else quotes cur in
    let converted :=
      String.eqb status "completed" || String.eqb status "delivered"
      || String.eqb status "shipped" in
    Map_set geoMap code
      {| country := country cur; countryCode := countryCode cur; region := region cur;
         quotes := quotes1;
         conversions := if converted then conversions cur + 1 else conversions cur;
         geo_revenue :=
           if converted then
             js_plus (geo_revenue cur)
               (js_or (js_or (field data "total") (field data "totalAmount")) (VNum 0%float))
           else geo_revenue cur |}.

Definition geo_range_query (path : string) (range : DateRange) : Query :=
  query path
    [where_ "createdAt" op_ge (Timestamp_fromDate (range_start range));
     where_ "createdAt" op_lt (Timestamp_fromDate (range_end range))].

(** [(a, b) => b.quotes - a.quotes] *)
Definition by_quotes_desc (a b : GeoDataPoint) : option Z := Some (quotes b - quotes a).

(** [getGeographicData(period)]: a rejected quotes query counts as no
    quotes; any other failure yields the empty list. *)
Definition getGeographicData (fs : Firestore) (now : Z) (period : string)
  : list GeoDataPoint :=
  let range := current (getPeriodBounds period now) in
  let quotesDocs :=
    match getDocs fs (geo_range_query "quotes" range) with
    | Fulfilled docs => docs
    | Rejected => []
    end in
  match getDocs fs (geo_range_query "orders" range) with
  | Rejected => []
  | Fulfilled ordersSnapshot =>
      let geoMap := fold_left geo_quote_step quotesDocs [] in
      let noQuotes := (List.length quotesDocs =? 0)%nat in
      let geoMap := fold_left (geo_order_step noQuotes) ordersSnapshot geoMap in
      Array_sort by_quotes_desc
        (List.filter (fun item => (0 <? quotes item) || (0 <? conversions item))
                (map snd geoMap))
  end.

End Geography.

(** ** Activity feed merger *)

Inductive AdminActivityType := order | product | gallery | user.

Record AdminActivityItem := {
  item_id : string;
  item_type : AdminActivityType;
  description : string;
  timestamp : Date;
  icon : string;
  entityId : string
}.

Fixpoint mapi {A B} (f : nat -> A -> B) (i : nat) (l : list A) : list B :=
  match l with
  | [] => []
  | x :: rest => f i x :: mapi f (S i) rest
  end.

(** [s.charAt(0).toUpperCase() + s.slice(1)] *)
Definition capitalize (s : string) : string :=
  match s with
  | EmptyString => EmptyString
  | String c rest => String (to_upper_char c) rest
  end.

Section ActivityFeed.
Context `{Platform}.

(** [safeQuery(collectionPath, constraints, fallbackOrderField, limitCount)] *)
Definition safeQuery (fs : Firestore) (collectionPath : string)
    (constraints : list QueryConstraint) (fallbackOrderField : string) (limitCount : nat)
  : outcome (list Document) :=
  match getDocs fs (query collectionPath constraints) with
  | Fulfilled snapshot => Fulfilled snapshot
  | Rejected =>
      getDocs fs (query collectionPath [orderBy fallbackOrderField true; limit limitCount])
  end.

Definition order_item (format : number -> string) (now : Z) (d : Document)
  : AdminActivityItem :=
  let data := doc_data d in
  let orderNumber := js_or (field data "orderNumber") (VStr (doc_id d)) in
  let status := toLowerCase (js_toString (js_or (field data "status") (VStr "pending"))) in
  let total :=
    match field data "total" with
    | VNum x => x
    | v => Number_ (js_nullish v (VNum 0%float))
    end in
  let timestamp := extractTimestamp now (js_nullish (field data "updatedAt") (field data "createdAt")) in
  let statusLabel := capitalize status in
  let amountLabel := if negb (Number_isNaN total) then " · " ++ format total else "" in
  {| item_id := doc_id d;
     item_type := order;
     description := "Order " ++ js_toString orderNumber ++ " · " ++ statusLabel ++ amountLabel;
     timestamp := timestamp;
     icon := "order";
     entityId := doc_id d |}%string.

(** [getRecentOrdersActivity(limitCount, currencyCode)] *)
Definition getRecentOrdersActivity (fs : Firestore) (clock : nat -> Z)
    (limitCount : nat) (currencyCode : string) : outcome (list AdminActivityItem) :=
  match safeQuery fs "orders" [orderBy "updatedAt" true; limit limitCount]
                  "createdAt" limitCount with
  | Rejected => Rejected
  | Fulfilled snapshot =>
      match NumberFormat_currency currencyCode with
      | None => Rejected
      | Some format =>
          Fulfilled (mapi (fun i d => order_item format (clock i) d) 0 snapshot)
      end
  end.

Definition product_item (now : Z) (d : Document) : AdminActivityItem :=
  let data := doc_data d in
  let name := js_or (field data "name") (VStr "Product") in
  let grosor :=
    js_or (js_or (opt_field (field data "specs") "grosor") (field data "grosor"))
          (VStr "") in
  let timestamp := extractTimestamp now (js_nullish (field data "updatedAt") (field data "createdAt")) in
  {| item_id := doc_id d;
     item_type := product;
     description :=
       if truthy grosor
       then js_toString name ++ " (" ++ js_toString grosor ++ ") updated"
       else js_toString name ++ " updated";
     timestamp := timestamp;
     icon := "product";
     entityId := doc_id d |}%string.

(** [getRecentProductsActivity(limitCount)] *)
Definition getRecentProductsActivity (fs : Firestore) (clock : nat -> Z) (limitCount : nat)
  : outcome (list AdminActivityItem) :=
  match safeQuery fs "products" [orderBy "updatedAt" true; limit limitCount]
                  "createdAt" limitCount with
  | Rejected => Rejected
  | Fulfilled snapshot => Fulfilled (mapi (fun i d => product_item (clock i) d) 0 snapshot)
  end.

Definition gallery_item (now : Z) (d : Document) : AdminActivityItem :=
  let data := doc_data d in
  let altText := js_or (field data "altText") (VStr "") in
  let caption := js_or (field data "caption") (VStr "") in
  let description := js_or altText (js_or caption (VStr "Gallery media uploaded")) in
  let timestamp := extractTimestamp now (field data "uploadedAt") in
  {| item_id := doc_id d;
     item_type := gallery;
     description := js_toString description;
     timestamp := timestamp;
     icon := "gallery";
     entityId := doc_id d |}.

Definition is_gallery (d : Document) : bool :=
  strict_eq_str (field (doc_data d) "relatedEntityType") "gallery".

(** [getRecentGalleryActivity(limitCount)] *)
Definition getRecentGalleryActivity (fs : Firestore) (clock : nat -> Z) (limitCount : nat)
  : outcome (list AdminActivityItem) :=
  match getDocs fs (query "media"
           [where_ "relatedEntityType" op_eq (VStr "gallery");
            orderBy "uploadedAt" true; limit limitCount]) with
  | Fulfilled snapshot => Fulfilled (mapi (fun i d => gallery_item (clock i) d) 0 snapshot)
  | Rejected =>
      match getDocs fs (query "media" [orderBy "uploadedAt" true; limit (limitCount * 2)]) with
      | Rejected => Rejected
      | Fulfilled snapshot =>
          Fulfilled
            (slice0
               (map snd
                  (List.filter (fun '(d, _) => is_gallery d)
                     (mapi (fun i d => (d, gallery_item (clock i) d)) 0 snapshot)))
               limitCount)
      end
  end.

Definition user_item (now : Z) (d : Document) : AdminActivityItem :=
  let data := doc_data d in
  let displayName := js_or (field data "displayName") (VStr "") in
  let email := js_or (field data "email") (VStr "") in
  let timestamp := extractTimestamp now (field data "createdAt") in
  {| item_id := doc_id d;
     item_type := user;
     description :=
       if truthy displayName then "New user: " ++ js_toString displayName
       else "New user registered: " ++ js_toString email;
     timestamp := timestamp;
     icon := "user";
     entityId := doc_id d |}%string.

(** [getRecentUsersActivity(limitCount)] *)
Definition getRecentUsersActivity (fs : Firestore) (clock : nat -> Z) (limitCount : nat)
  : outcome (list AdminActivityItem) :=
  match safeQuery fs "users" [orderBy "createdAt" true; limit limitCount]
                  "createdAt" limitCount with
  | Rejected => Rejected
  | Fulfilled snapshot => Fulfilled (mapi (fun i d => user_item (clock i) d) 0 snapshot)
  end.

(** [(a, b) => b.timestamp.getTime() - a.timestamp.getTime()] *)
Definition by_timestamp_desc (a b : AdminActivityItem) : option Z :=
  match getTime (timestamp b), getTime (timestamp a) with
  | Some x, Some y => Some (x - y)
  | _, _ => None
  end.

Definition merge_activity (maxItems : nat)
    (orderEvents productEvents galleryEvents userEvents : list AdminActivityItem)
  : list AdminActivityItem :=
  slice0
    (Array_sort by_timestamp_desc
       (orderEvents ++ productEvents ++ galleryEvents ++ userEvents)%list)
    maxItems.

(** [getRecentActivity(currencyCode, maxItems)]: [Promise.all] rejects as
    soon as one of the four rejects.  [clock k i] is the clock reading
    while record [i] of kind [k] is mapped. *)
Definition getRecentActivity (fs : Firestore) (clock : AdminActivityType -> nat -> Z)
    (currencyCode : string) (maxItems : nat) : outcome (list AdminActivityItem) :=
  match getRecentOrdersActivity fs (clock order) 10 currencyCode,
        getRecentProductsActivity fs (clock product) 10,
        getRecentGalleryActivity fs (clock gallery) 10,
        getRecentUsersActivity fs (clock user) 10 with
  | Fulfilled orderEvents, Fulfilled productEvents,
    Fulfilled galleryEvents, Fulfilled userEvents =>
      Fulfilled (merge_activity maxItems orderEvents productEvents galleryEvents userEvents)
  | _, _, _, _ => Rejected
  end.

End ActivityFeed.

(** ** Single-flight currency resolver

    The two fields of the service, [cachedCurrencyCode] and
    [currencyResolver], and the callers suspended at the [await].  The
    promise chain [getSettings().then(..).catch(..).finally(..)] settles in
    one step: it computes the code, clears [currencyResolver], and queues
    the continuation of every caller awaiting it; each continuation then
    stores the code in [cachedCurrencyCode] and returns it. *)

Record CurrencyState := {
  cachedCurrencyCode : option string;
  currencyResolver : option nat;        (* the promise in flight *)
  settingsFetches : nat;                (* calls of [getSettings] so far *)
  waiting : list (nat * nat);           (* caller, promise awaited *)
  resumable : list (nat * string)       (* caller, value of its promise *)
}.

Definition initial_currency : CurrencyState :=
  {| cachedCurrencyCode := None; currencyResolver := None; settingsFetches := 0;
     waiting := []; resumable := [] |}.

Inductive CurrencyEvent :=
| call (caller : nat)                   (* [resolveCurrencyCode()] is entered *)
| settle (result : outcome value)       (* [getSettings()] settles *)
| resume.                               (* the next queued continuation runs *)

(** [settings => (settings.stripeCurrency || 'USD').toUpperCase()], then
    [.catch(() => 'USD')]. *)
Definition resolved_code (result : outcome value) : string :=
  match result with
  | Rejected => "USD"
  | Fulfilled settings =>
      match settings with
      | VUndefined | VNull => "USD"                    (* TypeError, caught *)
      | _ =>
          match js_or (opt_field settings "stripeCurrency") (VStr "USD") with
          | VStr s => toUpperCase s
          | _ => "USD"                                 (* TypeError, caught *)
          end
      end
  end.

Definition cache_hit (s : CurrencyState) : option string :=
  match cachedCurrencyCode s with
  | Some code => if String.eqb code "" then None else Some code
  | None => None
  end.

(** One step of the resolver; the second component lists the callers
    whose call returns in this step, with the code they receive. *)
Definition currency_step (s : CurrencyState) (e : CurrencyEvent)
  : CurrencyState * list (nat * string) :=
  match e with
  | call c =>
      match cache_hit s with
      | Some code => (s, [(c, code)])
      | None =>
          match currencyResolver s with
          | Some p =>
              ({| cachedCurrencyCode := cachedCurrencyCode s;
                  currencyResolver := Some p;
                  settingsFetches := settingsFetches s;
                  waiting := (waiting s ++ [(c, p)])%list;
                  resumable := resumable s |}, [])
          | None =>
              let p := settingsFetches s in
              ({| cachedCurrencyCode := cachedCurrencyCode s;
                  currencyResolver := Some p;
                  settingsFetches := S (settingsFetches s);
                  waiting := (waiting s ++ [(c, p)])%list;
                  resumable := resumable s |}, [])
          end
      end
  | settle result =>
      match currencyResolver s with
      | None => (s, [])
      | Some p =>
          let code := resolved_code result in
          let woken := List.filter (fun w => (snd w =? p)%nat) (waiting s) in
          ({| cachedCurrencyCode := cachedCurrencyCode s;
              currencyResolver := None;
              settingsFetches := settingsFetches s;
              waiting := List.filter (fun w => negb (snd w =? p)%nat) (waiting s);
              resumable := (resumable s ++ map (fun w => (fst w, code)) woken)%list |}, [])
      end
  | resume =>
      match resumable s with
      | [] => (s, [])
      | (c, code) :: rest =>
          ({| cachedCurrencyCode := Some code;
              currencyResolver := currencyResolver s;
              settingsFetches := settingsFetches s;
              waiting := waiting s;
              resumable := rest |}, [(c, code)])
      end
  end.

Fixpoint currency_run (s : CurrencyState) (es : list CurrencyEvent)
  : CurrencyState * list (nat * string) :=
  match es with
  | [] => (s, [])
  | e :: rest =>
      let '(s1, out1) := currency_step s e in
      let '(s2, out2) := currency_run s1 rest in
      (s2, (out1 ++ out2)%list)
  end.

(** ** Auxiliary notions used to state the properties *)

Definition leapDay (y : Z) : Z := if isLeapYear y then 1 else 0.

(** The period tags of [AnalyticsPeriod]. *)
Definition known_period (period : string) : Prop :=
  period = "today" \/ period = "week" \/ period = "month" \/ period = "year".

(** The percentage by which [current] differs from [previous]. *)
Definition percentage (current previous : number) : number :=
  (((current - previous) / previous) * 100)%float.

(** [r] is the finite number [x] rounded to an integer: with
    [x = signed s m * 2^e], a number from 2^52 on is an integer and is its
    own rounding; below, [r] is the number of the integer [n] with
    [n - 1/2 <= x < n + 1/2], a zero of the sign of [x] when [n] is 0. *)
Definition rounded_to_integer (x r : number) : Prop :=
  match Prim2SF x with
  | S754_zero _ => r = x
  | S754_finite s m e =>
      if 0 <=? e then r = x
      else
        exists n,
          (2 * n - 1) * 2 ^ (- e) <= 2 * signed s m < (2 * n + 1) * 2 ^ (- e)
          /\ r = if n =? 0 then (if s then PrimFloat.neg_zero else PrimFloat.zero)
                 else number_of_Z n
  | _ => False
  end.

(** [r] is [x] rounded to one decimal place: the integer nearest to ten
    times [x], divided by ten. *)
Definition rounded_to_one_decimal (x r : number) : Prop :=
  exists tenfold, rounded_to_integer (x * 10)%float tenfold /\ r = (tenfold / 10)%float.

(** ** A sample platform and sample data *)

(** UTC, no date-string parsing, three-letter currency codes. *)
Definition utc_platform : Platform :=
  {| tz := 0;
     Date_parse := fun _ => None;
     coerce_number := fun _ => nan;
     plus_other := fun a b =>
       match a, b with
       | VStr x, VStr y => VStr (x ++ y)
       | _, _ => VNum nan
       end;
     toString_other := fun _ => "[object Object]";
     inherited_toString := fun key =>
       if String.eqb key "__proto__" then "[object Object]"
       else if String.eqb key "constructor" then "function Object() { [native code] }"
       else "function " ++ key ++ "() { [native code] }";
     NumberFormat_currency := fun code =>
       if (String.length code =? 3)%nat then Some (fun _ => code) else None |}.

(** 2024-03-15T10:30:00Z *)
Definition sample_now : Z := 1710498600000.

(** A [Timestamp] of the store of whole milliseconds, within the years 1
    to 9999 that the class admits, and a number other than NaN: what the
    aggregate queries of the store compare and add. *)
Definition millisecond_timestamp (v : value) : Prop :=
  exists s n,
    v = VTimestamp s n
    /\ -62135596800 <= s <= 253402300799
    /\ 0 <= n < 1000000000 /\ whole_milliseconds n.

Definition stored_number (v : value) : Prop :=
  exists x, v = VNum x /\ Number_isNaN x = false.

(** The record passes the in-process predicate of the options, and the
    extra filters they hand to the store. *)
Definition passes_predicate (options : CountOptions) (d : Document) : bool :=
  match filterPredicate options with
  | Some p => p (doc_data d)
  | None => true
  end.

Definition passes_filters (options : CountOptions) (d : Document) : bool :=
  matches_all (option_or (additionalFilters options) []) d.

(** The field the fallback query of [countDocumentsInRange] orders by,
    and the value its scan dates a record by. *)
Definition scan_order_field (timestampField : string) (options : CountOptions) : string :=
  option_or (fallbackField options) timestampField.

Definition scan_value (timestampField : string) (options : CountOptions)
    (d : Document) : value :=
  js_nullish (field (doc_data d) timestampField)
    (match fallbackField options with
     | Some f => field (doc_data d) f
     | None => VUndefined
     end).

(** A backend without aggregate queries: it answers every read and turns
    down every count and sum; and one that answers every request. *)
Definition scan_only (docs : string -> list Document) : Firestore :=
  {| collection := docs;
     rejects := fun r => match r with req_getDocs _ => false | _ => true end |}.

Definition serving (docs : string -> list Document) : Firestore :=
  {| collection := docs; rejects := fun _ => false |}.

(** The inputs [extractTimestamp] maps to the clock reading. *)
Definition missing_value (v : value) : Prop := v = VUndefined \/ v = VNull.

Definition unparseable_string `{Platform} (v : value) : Prop :=
  exists s, v = VStr s /\ Date_parse s = None.

Definition unrecognized_shape (v : value) : Prop :=
  match v with
  | VBool true | VArr _ | VOpaque => True
  | VMap fields => fields !! "seconds" = None
  | _ => False
  end.

Definition dated_now `{Platform} (v : value) : Prop :=
  missing_value v \/ unparseable_string v \/ unrecognized_shape v.

Definition doc_of (id : string) (fields : list (string * value)) : Document :=
  {| doc_id := id; doc_data := list_to_map fields |}.

(** March 2024 up to [sample_now]: the current range of "month". *)
Definition sample_range : DateRange :=
  {| range_start := 1709251200000; range_end := 1710498600000 |}.

(** 2024-03-09T16:00:00Z *)
Definition T0 : value := VTimestamp 1710000000 0.

Definition product_never_updated : Document :=
  doc_of "p1" [("name", VStr "Slab"); ("createdAt", T0)].

(** The options [getAnalyticsSnapshot] passes for products. *)
Definition products_options : CountOptions :=
  {| fallbackField := Some "createdAt"; additionalFilters := None;
     filterPredicate := None |}.

Definition order_dated_by_number : Document :=
  doc_of "o1" [("createdAt", VNum 1710000000000%float); ("total", VNum 100%float)].

Definition order_100 : Document :=
  doc_of "o2" [("createdAt", T0); ("total", VNum 100%float)].

(** Documents under one path and nowhere else. *)
Definition in_collection (path : string) (docs : list Document) : string -> list Document :=
  fun p => if String.eqb p path then docs else [].

(** An order without a [createdAt] field, and one whose [createdAt] is
    [null]. *)
Definition undated_order : Document := doc_of "o3" [("total", VNum 100%float)].

Definition null_dated_order : Document :=
  doc_of "o4" [("createdAt", VNull); ("total", VNum 100%float)].

(** Three orders of March 2024 in the order of their creation, whose
    totals add up differently from the left and from the right. *)
Definition orders_of_three_totals : list Document :=
  [ doc_of "o5" [("createdAt", VTimestamp 1710000000 0); ("total", VNum 287.135%float)];
    doc_of "o6" [("createdAt", VTimestamp 1710000100 0); ("total", VNum 1.713%float)];
    doc_of "o7" [("createdAt", VTimestamp 1710000200 0); ("total", VNum 235.097%float)] ].

(** The two orders of the geographic scenario, created at [createdAt]. *)
Definition completed_order_BR (createdAt : value) : Document :=
  doc_of "order-1"
    [("total", VNum 100%float); ("status", VStr "completed"); ("country", VStr "BR");
     ("createdAt", createdAt)].

Definition pending_order_BR (createdAt : value) : Document :=
  doc_of "order-2"
    [("total", VNum 50%float); ("status", VStr "pending"); ("country", VStr "BR");
     ("createdAt", createdAt)].

Definition BR_point : GeoDataPoint :=
  {| country := "Brazil"; countryCode := "BR"; region := LATAM;
     quotes := 2; conversions := 1; geo_revenue := VNum 100%float |}.

(** A store holding the two orders and no quotes; it turns down requests on
    the collections listed in [down]. *)
Definition store_of (orders_ quotes_ : list Document) (down : list string) : Firestore :=
  {| collection := fun path =>
       if String.eqb path "orders" then orders_
       else if String.eqb path "quotes" then quotes_
       else [];
     rejects := fun r =>
       match r with
       | req_getDocs q | req_count q | req_aggregate q _ => includes down (q_path q)
       end |}.

(** A completed order of 100 whose recorded cost is 0, and one with a
    recorded cost of 60. *)
Definition order_zero_cost : Document :=
  doc_of "order-3"
    [("totalAmount", VNum 100%float); ("costPrice", VNum 0%float);
     ("status", VStr "completed"); ("createdAt", T0)].

Definition order_cost_60 : Document :=
  doc_of "order-4"
    [("totalAmount", VNum 100%float); ("costPrice", VNum 60%float);
     ("status", VStr "completed"); ("createdAt", T0)].

(** The resolver once a first fetch has settled on [code] and every waiting
    caller has resumed. *)
Definition settled_currency (code : string) : CurrencyState :=
  {| cachedCurrencyCode := Some code; currencyResolver := None; settingsFetches := 1;
     waiting := []; resumable := [] |}.

(** The time value of a date, read as 0 when the date is invalid. *)
Definition time_of (d : Date) : Z :=
  match d with
  | DateOf t => t
  | InvalidDate => 0
  end.

Definition valid_date (d : Date) : Prop := exists t, d = DateOf t.

(** Newest first. *)
Definition newer_first (a b : AdminActivityItem) : Prop :=
  time_of (timestamp b) <= time_of (timestamp a).

Definition sample_user : Document :=
  doc_of "user-1" [("displayName", VStr "Ana"); ("createdAt", T0)].

Definition sample_product : Document :=
  doc_of "product-1" [("name", VStr "Slab"); ("updatedAt", VTimestamp 1710000100 0)].

Definition sample_media : Document :=
  doc_of "media-1"
    [("relatedEntityType", VStr "gallery"); ("caption", VStr "Hall");
     ("uploadedAt", VTimestamp 1710000200 0)].

(** A store with one order, product, gallery picture and user, which turns
    down every request on the collections listed in [down]. *)
Definition activity_store (down : list string) : Firestore :=
  {| collection := fun path =>
       if String.eqb path "orders" then [order_100]
       else if String.eqb path "products" then [sample_product]
       else if String.eqb path "media" then [sample_media]
       else if String.eqb path "users" then [sample_user]
       else [];
     rejects := fun r =>
       match r with
       | req_getDocs q | req_count q | req_aggregate q _ => includes down (q_path q)
       end |}.

(** A store with an order updated at 16:00:00, a product whose [updatedAt]
    holds a number that is no date, a gallery picture uploaded at 16:03:20
    and a user created at 16:01:40. *)
Definition feed_store_with_undated_product : Firestore :=
  serving
    (fun path =>
       if String.eqb path "orders" then
         [doc_of "order-7" [("total", VNum 100%float); ("updatedAt", T0)]]
       else if String.eqb path "products" then
         [doc_of "product-2" [("name", VStr "Slab"); ("updatedAt", VNum infinity)]]
       else if String.eqb path "media" then [sample_media]
       else if String.eqb path "users" then
         [doc_of "user-2" [("displayName", VStr "Ana");
                           ("createdAt", VTimestamp 1710000100 0)]]
       else []).

(** A store that turns down only the ordered query on the orders'
    [updatedAt], as when the index for it is missing. *)
Definition activity_store_no_index : Firestore :=
  {| collection := collection (activity_store []);
     rejects := fun r =>
       match r with
       | req_getDocs q =>
           String.eqb (q_path q) "orders"
           && match first_orderBy (q_constraints q) with
              | Some (f, _) => String.eqb f "updatedAt"
              | None => false
              end
       | _ => false
       end |}.

Fixpoint all_digits (s : string) : bool :=
  match s with
  | EmptyString => true
  | String c rest => is_digit c && all_digits rest
  end.

Fixpoint no_delimiter (s : string) : bool :=
  match s with
  | EmptyString => true
  | String c rest => negb (is_key_delimiter c) && no_delimiter rest
  end.

(** The instant a bucket stands for: the start of the local hour
    ("today"), month ("year") or day (any other tag) of [t]. *)
Definition bucket_start `{Platform} (period : string) (t : Z) : Z :=
  let lt := LocalTime t in
  if String.eqb period "today" then
    UTC (MakeDate (Day lt) (MakeTime (HourFromTime lt) 0 0 0))
  else if String.eqb period "year" then
    UTC (MakeDate (MakeDay (YearFromTime lt) (MonthFromTime lt) 1) 0)
  else
    UTC (MakeDate (Day lt) 0).

(** The bucket key of a record, when its [createdAt] yields a date. *)
Definition record_key `{Platform} (period : string) (d : Document) : option string :=
  match createdAt_toDate (field (doc_data d) "createdAt") with
  | Fulfilled (Some dt) => Some (getDateKey dt period)
  | _ => None
  end.

Definition record_keys `{Platform} (period : string) (docs : list Document) : list string :=
  flat_map (fun d => match record_key period d with
                     | Some k => [k]
                     | None => []
                     end) docs.

(** The distinct keys among the records: the non-empty buckets. *)
Definition bucket_keys `{Platform} (period : string) (docs : list Document) : list string :=
  nodup string_dec (record_keys period docs).

(** A [Timestamp] object holds between 0 and 999999999 nanoseconds. *)
Definition createdAt_well_formed (d : Document) : Prop :=
  forall s n, field (doc_data d) "createdAt" = VTimestamp s n -> 0 <= n < 1000000000.

(** Strictly earlier, between valid dates. *)
Definition date_before (a b : TrendPoint) : Prop :=
  exists x y, date a = DateOf x /\ date b = DateOf y /\ x < y.

(** A record whose [createdAt] is a timestamp, and one whose timestamp
    converts to a valid date between [lo] and [hi]. *)
Definition has_date (d : Document) : Prop :=
  exists s n, field (doc_data d) "createdAt" = VTimestamp s n.

Definition dated_within (lo hi : Z) (d : Document) : Prop :=
  exists s n t,
    field (doc_data d) "createdAt" = VTimestamp s n
    /\ Timestamp_toDate s n = DateOf t /\ lo <= t <= hi.

(** Completed orders of March 2024, the later one first. *)
Definition order_march_12 : Document :=
  doc_of "order-5"
    [("totalAmount", VNum 80%float); ("status", VStr "completed");
     ("createdAt", VTimestamp 1710244800 0)].

Definition order_march_2 : Document :=
  doc_of "order-6"
    [("totalAmount", VNum 20%float); ("status", VStr "completed");
     ("createdAt", VTimestamp 1709380800 500000000)].

(** ** Dashboard totals *)

Record OrdersSummary := {
  summary_total : Z;
  summary_pending : Z;
  summary_revenue : number
}.

Record AdminDashboardSnapshot := {
  totalProducts : Z;
  totalOrders : Z;
  totalGalleryImages : Z;
  totalUsers : Z;
  pendingOrders : Z;
  pendingReviews : Z;
  totalRevenue : number;
  dashboard_currencyCode : string;
  dashboard_recentActivity : list AdminActivityItem
}.

(** [snapshot.forEach(docSnap => { if (test(docSnap.data())) count += 1 })] *)
Definition count_loop (test : gmap string value -> bool) (snapshot : list Document) : Z :=
  fold_left (fun count d => if test (doc_data d) then count + 1 else count) snapshot 0.

Section Dashboard.
Context `{Platform}.

(** [getCollectionCount(path)]; the count of the store is an integer, which
    [normalizeNumber] hands back as it is. *)
Definition getCollectionCount (fs : Firestore) (path : string) : outcome Z :=
  match getCountFromServer fs (query path []) with
  | Fulfilled n => Fulfilled n
  | Rejected =>
      match getDocs fs (query path []) with
      | Fulfilled snapshot => Fulfilled (Z.of_nat (List.length snapshot))
      | Rejected => Rejected
      end
  end.

(** [getGalleryImagesCount()] *)
Definition getGalleryImagesCount (fs : Firestore) : outcome Z :=
  match getCountFromServer fs
          (query "media" [where_ "relatedEntityType" op_eq (VStr "gallery")]) with
  | Fulfilled n => Fulfilled n
  | Rejected =>
      match getDocs fs (query "media" []) with
      | Fulfilled snapshot =>
          Fulfilled
            (count_loop (fun data => strict_eq_str (field data "relatedEntityType") "gallery")
               snapshot)
      | Rejected => Rejected
      end
  end.

(** [getPendingReviewsCount()] *)
Definition getPendingReviewsCount (fs : Firestore) : outcome Z :=
  match getCountFromServer fs
          (query "productReviews" [where_ "status" op_eq (VStr "pending")]) with
  | Fulfilled n => Fulfilled n
  | Rejected =>
      match getDocs fs (query "productReviews" []) with
      | Fulfilled snapshot =>
          Fulfilled
            (count_loop (fun data => strict_eq_str (field data "status") "pending") snapshot)
      | Rejected => Rejected
      end
  end.

(** The body of the fallback loop of [getOrdersSummary]. *)
Definition ordersSummary_step (acc : Z * number) (d : Document) : Z * number :=
  let '(pending, revenue_) := acc in
  let data := doc_data d in
  let status := toLowerCase (js_toString (js_or (field data "status") (VStr "pending"))) in
  let pending := if String.eqb status "pending" then pending + 1 else pending in
  let total :=
    match field data "total" with
    | VNum x => x
    | v => Number_ (js_nullish v (VNum 0%float))
    end in
  (pending, if negb (Number_isNaN total) then (revenue_ + total)%float else revenue_).

(** The two paths of [getOrdersSummary] over the orders they are given. *)
Definition ordersSummary_server (orders_ : list Document) : OrdersSummary :=
  {| summary_total := count_of (matching_docs orders_ []);
     summary_pending :=
       count_of (matching_docs orders_ [where_ "status" op_eq (VStr "pending")]);
     summary_revenue := normalizeNumber (of_value (VNum (sum_of "total" (matching_docs orders_ [])))) |}.

Definition ordersSummary_scan (snapshot : list Document) : OrdersSummary :=
  let '(pending, revenue_) := fold_left ordersSummary_step snapshot (0, 0%float) in
  {| summary_total := Z.of_nat (List.length snapshot);
     summary_pending := pending;
     summary_revenue := revenue_ |}.

(** [getOrdersSummary(currencyCode)]: three server-side aggregates joined
    by [Promise.all] (the third asks for the sum of [total] only); when one
    is rejected, a scan of the whole collection. *)
Definition getOrdersSummary (fs : Firestore) (currencyCode : string) : outcome OrdersSummary :=
  match getCountFromServer fs (query "orders" []),
        getCountFromServer fs (query "orders" [where_ "status" op_eq (VStr "pending")]),
        getAggregateFromServer fs (query "orders" []) "total" with
  | Fulfilled total, Fulfilled pending, Fulfilled (_, totalRevenue_) =>
      Fulfilled {| summary_total := total;
                   summary_pending := pending;
                   summary_revenue := normalizeNumber (of_value (VNum totalRevenue_)) |}
  | _, _, _ =>
      match getDocs fs (query "orders" []) with
      | Fulfilled snapshot => Fulfilled (ordersSummary_scan snapshot)
      | Rejected => Rejected
      end
  end.

(** What [getDashboardStats] returns from its [catch]. *)
Definition empty_dashboard : AdminDashboardSnapshot :=
  {| totalProducts := 0; totalOrders := 0; totalGalleryImages := 0; totalUsers := 0;
     pendingOrders := 0; pendingReviews := 0; totalRevenue := 0%float;
     dashboard_currencyCode := "USD"; dashboard_recentActivity := [] |}.

(** [getDashboardStats()], with [currencyCode] the code that
    [resolveCurrencyCode()] resolved (that call is never rejected): six
    fetches joined by [Promise.all], and the empty snapshot when one of
    them is rejected. *)
Definition getDashboardStats (fs : Firestore) (clock : AdminActivityType -> nat -> Z)
    (currencyCode : string) : AdminDashboardSnapshot :=
  match getCollectionCount fs "products",
        getOrdersSummary fs currencyCode,
        getGalleryImagesCount fs,
        getCollectionCount fs "users",
        getPendingReviewsCount fs,
        getRecentActivity fs clock currencyCode 8 with
  | Fulfilled totalProducts_, Fulfilled ordersSummary, Fulfilled totalGalleryImages_,
    Fulfilled totalUsers_, Fulfilled pendingReviews_, Fulfilled recentActivity =>
      {| totalProducts := totalProducts_;
         totalOrders := summary_total ordersSummary;
         totalGalleryImages := totalGalleryImages_;
         totalUsers := totalUsers_;
         pendingOrders := summary_pending ordersSummary;
         pendingReviews := pendingReviews_;
         totalRevenue := summary_revenue ordersSummary;
         dashboard_currencyCode := currencyCode;
         dashboard_recentActivity := recentActivity |}
  | _, _, _, _, _, _ => empty_dashboard
  end.

(** [getRecentActivityFeed(maxItems)], with the resolved [currencyCode]. *)
Definition getRecentActivityFeed (fs : Firestore) (clock : AdminActivityType -> nat -> Z)
    (currencyCode : string) (maxItems : nat) : outcome (list AdminActivityItem) :=
  getRecentActivity fs clock currencyCode maxItems.

End Dashboard.

(** ** Analytics snapshot *)

Record AdminAnalyticsMetric := {
  metric_key : string;
  metric_labelKey : string;
  metric_format : string;
  metric_currentValue : number;
  metric_previousValue : number;
  metric_changePercentage : option number
}.

Record AdminAnalyticsSnapshot := {
  analytics_period : string;
  analytics_currencyCode : string;
  analytics_metrics : list AdminAnalyticsMetric;
  analytics_recentActivity : list AdminActivityItem
}.

(** The options [getAnalyticsSnapshot] passes for gallery uploads. *)
Definition gallery_options : CountOptions :=
  {| fallbackField := None;
     additionalFilters := Some [where_ "relatedEntityType" op_eq (VStr "gallery")];
     filterPredicate :=
       Some (fun data => strict_eq_str (field data "relatedEntityType") "gallery") |}.

Definition make_metric (key labelKey format : string) (currentValue previousValue : number)
  : AdminAnalyticsMetric :=
  {| metric_key := key; metric_labelKey := labelKey; metric_format := format;
     metric_currentValue := currentValue; metric_previousValue := previousValue;
     metric_changePercentage := calculateChange currentValue previousValue |}.

Section Analytics.
Context `{Platform}.

(** [getAnalyticsSnapshot(period)], with the resolved [currencyCode] and the
    clock reading [now] of [getPeriodBounds]; [clock k] is the clock of the
    scan of fetch [k] (0..7) and [feedClock] that of the activity feed.
    Counts enter the metrics as numbers. *)
Definition getAnalyticsSnapshot (fs : Firestore) (clock : nat -> nat -> Z)
    (feedClock : AdminActivityType -> nat -> Z) (now : Z) (currencyCode : string)
    (period : string) : AdminAnalyticsSnapshot :=
  let bounds := getPeriodBounds period now in
  match aggregateOrders fs (clock 0%nat) (current bounds),
        aggregateOrders fs (clock 1%nat) (previous bounds),
        countDocumentsInRange fs (clock 2%nat) "users" "createdAt" (current bounds) no_options,
        countDocumentsInRange fs (clock 3%nat) "users" "createdAt" (previous bounds) no_options,
        countDocumentsInRange fs (clock 4%nat) "products" "updatedAt" (current bounds)
          products_options,
        countDocumentsInRange fs (clock 5%nat) "products" "updatedAt" (previous bounds)
          products_options,
        countDocumentsInRange fs (clock 6%nat) "media" "uploadedAt" (current bounds)
          gallery_options,
        countDocumentsInRange fs (clock 7%nat) "media" "uploadedAt" (previous bounds)
          gallery_options,
        getRecentActivity fs feedClock currencyCode 10 with
  | Fulfilled currentOrders, Fulfilled previousOrders,
    Fulfilled currentUsers, Fulfilled previousUsers,
    Fulfilled currentProducts, Fulfilled previousProducts,
    Fulfilled currentGallery, Fulfilled previousGallery,
    Fulfilled recentActivity =>
      {| analytics_period := period;
         analytics_currencyCode := currencyCode;
         analytics_metrics :=
           [ make_metric "totalOrders" "admin.analytics.metrics.total_orders" "number"
               (number_of_Z (agg_count currentOrders)) (number_of_Z (agg_count previousOrders));
             make_metric "revenue" "admin.analytics.metrics.revenue" "currency"
               (agg_revenue currentOrders) (agg_revenue previousOrders);
             make_metric "averageOrderValue" "admin.analytics.metrics.average_order_value"
               "currency" (agg_average currentOrders) (agg_average previousOrders);
             make_metric "newCustomers" "admin.analytics.metrics.new_customers" "number"
               (number_of_Z currentUsers) (number_of_Z previousUsers);
             make_metric "productsUpdated" "admin.analytics.metrics.products_updated" "number"
               (number_of_Z currentProducts) (number_of_Z previousProducts);
             make_metric "galleryUploads" "admin.analytics.metrics.gallery_uploads" "number"
               (number_of_Z currentGallery) (number_of_Z previousGallery) ];
         analytics_recentActivity := recentActivity |}
  | _, _, _, _, _, _, _, _, _ =>
      {| analytics_period := period;
         analytics_currencyCode := currencyCode;
         analytics_metrics := [];
         analytics_recentActivity := [] |}
  end.

End Analytics.

(** ** Top products *)

(** Keys of a [Map] are compared by SameValueZero.  An object is the same
    as itself only, and every object read from a document is a fresh one:
    two keys that are objects are never the same. *)
Definition same_value_zero (a b : value) : bool :=
  match a, b with
  | VUndefined, VUndefined => true
  | VNull, VNull => true
  | VBool x, VBool y => Bool.eqb x y
  | VNum x, VNum y => (x =? y)%float || (PrimFloat.is_nan x && PrimFloat.is_nan y)
  | VStr x, VStr y => String.eqb x y
  | _, _ => false
  end.

(** [Map] keyed by values, in insertion order. *)
Definition ValueMap (V : Type) := list (value * V).

Fixpoint ValueMap_get {V} (m : ValueMap V) (k : value) : option V :=
  match m with
  | [] => None
  | (k', v) :: rest => if same_value_zero k' k then Some v else ValueMap_get rest k
  end.

Fixpoint ValueMap_set {V} (m : ValueMap V) (k : value) (v : V) : ValueMap V :=
  match m with
  | [] => [(k, v)]
  | (k', v') :: rest =>
      if same_value_zero k' k then (k', v) :: rest else (k', v') :: ValueMap_set rest k v
  end.

Record ProductStats := {
  stats_name : value;
  stats_revenue : number;
  stats_orders : Z;
  stats_views : Z
}.

Record TopProduct := {
  productId : value;
  productName : value;
  product_revenue : number;
  product_orders : Z;
  product_views : Z;
  conversionRate : number
}.

(** The sign of a comparator's result; [None] for NaN. *)
Definition number_sign (x : number) : option Z :=
  if PrimFloat.is_nan x then None
  else if (x <? 0)%float then Some (-1)
  else if (0 <? x)%float then Some 1
  else Some 0.

(** [(a, b) => b.revenue - a.revenue] *)
Definition by_revenue_desc (a b : TopProduct) : option Z :=
  number_sign (product_revenue b - product_revenue a)%float.

(** The entry of the result for one product: [views] is never recorded,
    so it reads as an estimate. *)
Definition top_product (entry : value * ProductStats) : TopProduct :=
  let '(id, stats) := entry in
  {| productId := id;
     productName := stats_name stats;
     product_revenue := stats_revenue stats;
     product_orders := stats_orders stats;
     product_views :=
       if stats_views stats =? 0 then stats_orders stats * 10 else stats_views stats;
     conversionRate :=
       if 0 <? stats_views stats
       then (number_of_Z (stats_orders stats) / number_of_Z (stats_views stats) * 100)%float
       else 10%float |}.

Section TopProducts.
Context `{Platform}.

(** The body of [items.forEach]: reading a property of [null] or
    [undefined] is a [TypeError]. *)
Definition top_item_step (productStats : ValueMap ProductStats) (item : value)
  : outcome (ValueMap ProductStats) :=
  match item with
  | VUndefined | VNull => Rejected
  | _ =>
      let id := js_or (opt_field item "productId") (VStr "") in
      let current :=
        option_or (ValueMap_get productStats id)
          {| stats_name := js_or (opt_field item "productName") (VStr "Unknown");
             stats_revenue := 0%float; stats_orders := 0; stats_views := 0 |} in
      Fulfilled
        (ValueMap_set productStats id
           {| stats_name := stats_name current;
              stats_revenue :=
                (stats_revenue current
                 + js_times (opt_field item "price") (opt_field item "quantity"))%float;
              stats_orders := stats_orders current + 1;
              stats_views := stats_views current |})
  end.

Fixpoint top_items_loop (items : list value) (productStats : ValueMap ProductStats)
  : outcome (ValueMap ProductStats) :=
  match items with
  | [] => Fulfilled productStats
  | item :: rest =>
      match top_item_step productStats item with
      | Fulfilled productStats' => top_items_loop rest productStats'
      | Rejected => Rejected
      end
  end.

(** The body of [snapshot.forEach]: [data['items'] || []] must be an array
    for [forEach] to be callable. *)
Definition top_doc_step (productStats : ValueMap ProductStats) (d : Document)
  : outcome (ValueMap ProductStats) :=
  match js_or (field (doc_data d) "items") (VArr []) with
  | VArr items => top_items_loop items productStats
  | _ => Rejected
  end.

Fixpoint top_docs_loop (docs : list Document) (productStats : ValueMap ProductStats)
  : outcome (ValueMap ProductStats) :=
  match docs with
  | [] => Fulfilled productStats
  | d :: rest =>
      match top_doc_step productStats d with
      | Fulfilled productStats' => top_docs_loop rest productStats'
      | Rejected => Rejected
      end
  end.

Definition top_query (range : DateRange) : Query :=
  query "orders"
    [where_ "status" op_eq (VStr "completed");
     where_ "createdAt" op_ge (Timestamp_fromDate (range_start range));
     where_ "createdAt" op_lt (Timestamp_fromDate (range_end range))].

(** [getTopProducts(period, limit)]: any failure inside yields the empty
    list. *)
Definition getTopProducts (fs : Firestore) (now : Z) (period : string) (limit_ : nat)
  : list TopProduct :=
  let range := current (getPeriodBounds period now) in
  match getDocs fs (top_query range) with
  | Rejected => []
  | Fulfilled snapshot =>
      match top_docs_loop snapshot [] with
      | Rejected => []
      | Fulfilled productStats =>
          slice0 (Array_sort by_revenue_desc (map top_product productStats)) limit_
      end
  end.

End TopProducts.

(** ** Analytics logger: where the visitor is

    The second service of the file, [AnalyticsLoggerService], keeps the
    visitor's geographic data in [geoDataCache] and remembers in
    [geoFetchAttempted] that the lookup by IP address was tried. *)

Fixpoint assoc {V} (table : list (string * V)) (k : string) : option V :=
  match table with
  | [] => None
  | (k', v) :: rest => if String.eqb k' k then Some v else assoc rest k
  end.

Definition tzToCountry : list (string * (string * string)) :=
  [ ("America/New_York", ("United States", "US"));
    ("America/Chicago", ("United States", "US"));
    ("America/Denver", ("United States", "US"));
    ("America/Los_Angeles", ("United States", "US"));
    ("America/Mexico_City", ("Mexico", "MX"));
    ("America/Sao_Paulo", ("Brazil", "BR"));
    ("America/Buenos_Aires", ("Argentina", "AR"));
    ("America/Santiago", ("Chile", "CL"));
    ("America/Bogota", ("Colombia", "CO"));
    ("Europe/London", ("United Kingdom", "GB"));
    ("Europe/Paris", ("France", "FR"));
    ("Europe/Berlin", ("Germany", "DE"));
    ("Europe/Madrid", ("Spain", "ES"));
    ("Europe/Rome", ("Italy", "IT"));
    ("Europe/Amsterdam", ("Netherlands", "NL"));
    ("Asia/Tokyo", ("Japan", "JP"));
    ("Asia/Shanghai", ("China", "CN"));
    ("Asia/Singapore", ("Singapore", "SG"));
    ("Asia/Seoul", ("South Korea", "KR"));
    ("Asia/Dubai", ("UAE", "AE"));
    ("Australia/Sydney", ("Australia", "AU")) ].

(** [getGeoFromTimezone()]; [timezone] is what
    [Intl.DateTimeFormat().resolvedOptions().timeZone] reads (the name of a
    time zone), or [None] when reading it throws. *)
Definition getGeoFromTimezone (timezone : option string) : gmap string value :=
  match timezone with
  | None => ∅
  | Some tzName =>
      match assoc tzToCountry tzName with
      | Some (country_, code) =>
          {[ "country" := VStr country_; "countryCode" := VStr code ]}
      | None => ∅
      end
  end.

Record LoggerState := {
  geoDataCache : option (gmap string value);
  geoFetchAttempted : bool;
  ipLookups : nat                        (* requests sent to the lookup service so far *)
}.

Definition initial_logger : LoggerState :=
  {| geoDataCache := None; geoFetchAttempted := false; ipLookups := 0 |}.

(** [getGeoFromIP()]; [response] is how the request to the lookup service
    ends if it is sent: the parsed body of a successful answer, or a
    failure (network error, status other than 2xx, body that is not
    JSON). *)
Definition getGeoFromIP (timezone : option string) (response : outcome value)
    (s : LoggerState) : LoggerState * gmap string value :=
  if geoFetchAttempted s then (s, ∅)
  else
    let s' := {| geoDataCache := geoDataCache s; geoFetchAttempted := true;
                 ipLookups := S (ipLookups s) |} in
    match response with
    | Rejected => (s', getGeoFromTimezone timezone)
    | Fulfilled (VUndefined | VNull) => (s', getGeoFromTimezone timezone)
    | Fulfilled data =>
        (s', {[ "country" := opt_field data "country_name";
                "countryCode" := opt_field data "country_code";
                "region" := opt_field data "region";
                "city" := opt_field data "city" ]})
    end.

(** [getGeoFromBrowser()] asks for no permission and finds nothing. *)
Definition getGeoFromBrowser : gmap string value := ∅.

(** [getGeoData()], for a call that runs to its end before the next one
    starts; [{...browserGeo, ...ipGeo}] lets the later source win. *)
Definition getGeoData (timezone : option string) (response : outcome value)
    (s : LoggerState) : LoggerState * gmap string value :=
  match geoDataCache s with
  | Some cached => (s, cached)
  | None =>
      let browserGeo := getGeoFromBrowser in
      let '(s1, ipGeo) := getGeoFromIP timezone response s in
      let combined := ipGeo ∪ browserGeo in
      ({| geoDataCache := Some combined; geoFetchAttempted := geoFetchAttempted s1;
          ipLookups := ipLookups s1 |}, combined)
  end.

(** [clearGeoCache()] *)
Definition clearGeoCache (s : LoggerState) : LoggerState :=
  {| geoDataCache := None; geoFetchAttempted := false; ipLookups := ipLookups s |}.

Inductive LoggerEvent :=
| get_geo (response : outcome value)     (* [getGeoData()] is called and awaited *)
| clear_geo.                              (* [clearGeoCache()] *)

(** The events in turn; the data each [getGeoData()] returned, in order. *)
Fixpoint logger_run (timezone : option string) (s : LoggerState) (es : list LoggerEvent)
  : LoggerState * list (gmap string value) :=
  match es with
  | [] => (s, [])
  | get_geo response :: rest =>
      let '(s1, data) := getGeoData timezone response s in
      let '(s2, out) := logger_run timezone s1 rest in
      (s2, data :: out)
  | clear_geo :: rest => logger_run timezone (clearGeoCache s) rest
  end.

(** ** Further notions used to state the properties *)

(** Local midnight of the day of [t], as a time value. *)
Definition local_midnight `{Platform} (t : Z) : Z := Day (LocalTime t) * msPerDay - tz.

(** The first instant, in local time, of month [m] (0..11) of year [y]. *)
Definition month_start `{Platform} (y m : Z) : Z := MakeDay y m 1 * msPerDay - tz.

(** Sum of an integer measure over a list. *)
Definition total_of {A} (f : A -> Z) (l : list A) : Z :=
  fold_right (fun x acc => f x + acc) 0 l.

(** The number of elements of a list that satisfy [p]. *)
Definition count_if {A} (p : A -> bool) (l : list A) : Z :=
  Z.of_nat (List.length (List.filter p l)).

(** A record that names a country, and an order whose status counts as a
    conversion. *)
Definition located `{Platform} (d : Document) : bool :=
  negb (String.eqb (extractCountryCode (doc_data d)) "").

Definition converted `{Platform} (d : Document) : bool :=
  let status :=
    toLowerCase (js_toString (js_or (field (doc_data d) "status") (VStr "pending"))) in
  String.eqb status "completed" || String.eqb status "delivered" || String.eqb status "shipped".

(** What the quotes query of [getGeographicData] contributes: its
    documents, or none when it is rejected. *)
Definition quotes_in_range `{Platform} (fs : Firestore) (now : Z) (period : string)
  : list Document :=
  match getDocs fs (geo_range_query "quotes" (current (getPeriodBounds period now))) with
  | Fulfilled docs => docs
  | Rejected => []
  end.

(** What every entry of the map of [getGeographicData] satisfies while it
    is being filled. *)
Definition geo_point_ok (k : string) (p : GeoDataPoint) : Prop :=
  k <> "" /\ toUpperCase k = k
  /\ countryCode p = k /\ country p = getCountryName k /\ region p = getRegion k
  /\ 0 <= quotes p /\ 0 <= conversions p.

Definition geo_map_ok (m : JSMap GeoDataPoint) : Prop :=
  List.NoDup (map fst m) /\ forall k p, In (k, p) m -> geo_point_ok k p.

Definition geo_quotes_total (m : JSMap GeoDataPoint) : Z :=
  total_of (fun kv => quotes (snd kv)) m.

Definition geo_conversions_total (m : JSMap GeoDataPoint) : Z :=
  total_of (fun kv => conversions (snd kv)) m.

(** The points handed out for a filled map. *)
Definition geo_points (m : JSMap GeoDataPoint) : list GeoDataPoint :=
  Array_sort by_quotes_desc
    (List.filter (fun item => (0 <? quotes item) || (0 <? conversions item)) (map snd m)).


(** Every two elements of a list, taken in order, are related. *)
Fixpoint pairwise {A} (R : A -> A -> Prop) (l : list A) : Prop :=
  match l with
  | [] => True
  | x :: rest => Forall (R x) rest /\ pairwise R rest
  end.

(** Two products that [Map] keeps apart. *)
Definition other_product (a b : value) : Prop := same_value_zero a b = false.

(** What every entry of [productStats] satisfies: no view is ever
    recorded, and at least one item was counted. *)
Definition stats_ok (stats : ProductStats) : Prop :=
  stats_views stats = 0 /\ 1 <= stats_orders stats.

(** The first field of a record that holds a country, as
    [extractCountryCode] looks for it. *)
Definition country_candidate (data : gmap string value) : value :=
  js_or (field data "countryCode")
  (js_or (field data "country")
  (js_or (opt_field (field data "shippingAddress") "countryCode")
  (js_or (opt_field (field data "shippingAddress") "country")
  (js_or (opt_field (field data "billingAddress") "countryCode")
  (js_or (opt_field (field data "billingAddress") "country")
         (field data "customerCountry")))))).

(** A degenerate range, and a store with one order and nothing else. *)
Definition empty_range : DateRange := {| range_start := 1710000000000; range_end := 1710000000000 |}.

Definition one_order_store : Firestore := store_of [order_100] [] [].

(** What the resolver keeps in any interleaving: a cached code is in upper
    case, and the codes waiting to be delivered are not empty and in upper
    case. *)
Definition currency_ok (s : CurrencyState) : Prop :=
  (forall code, cachedCurrencyCode s = Some code -> toUpperCase code = code)
  /\ Forall (fun r => snd r <> "" /\ toUpperCase (snd r) = snd r) (resumable s).

(** The codes held by the cache and by the queued continuations of [s]
    all satisfy [P]; and a settlement resolves to a code that does. *)
Definition codes_in (P : string -> Prop) (s : CurrencyState) : Prop :=
  (forall code, cachedCurrencyCode s = Some code -> P code)
  /\ Forall (fun r => P (snd r)) (resumable s).

Definition settles_to (P : string -> Prop) (e : CurrencyEvent) : Prop :=
  match e with
  | settle result => P (resolved_code result)
  | _ => True
  end.


(* ===================================================================== *)
(** * Part II. Properties                                                 *)
(* ===================================================================== *)

(** String append unfolds on a constructor in the proofs below. *)
#[local] Arguments String.append !_ _ : simpl nomatch.

(** ** Metric comparator *)

Example Math_round_half_up : Math_round 2.5%float = 3%float.
Proof. reflexivity. Qed.

Example Math_round_negative_half : Math_round (-2.5)%float = (-2)%float.
Proof. reflexivity. Qed.

Example Math_round_integral : Math_round 1500%float = 1500%float.
Proof. reflexivity. Qed.

(** A negative number that rounds to zero keeps its sign, and so does -0. *)
Example Math_round_negative_zero :
  Math_round (-0.2)%float = neg_zero /\ Math_round neg_zero = neg_zero
  /\ Math_round 0.2%float = 0%float.
Proof. repeat split; reflexivity. Qed.

Lemma finite_Prim2SF x :
  Number_isFinite x = true ->
  (exists s, Prim2SF x = S754_zero s) \/ (exists s m e, Prim2SF x = S754_finite s m e).
Proof.
  unfold Number_isFinite, Prim2SF. intros Hfin.
  destruct (PrimFloat.is_nan x); [discriminate |].
  destruct (PrimFloat.is_infinity x); [discriminate |].
  destruct (PrimFloat.is_zero x); [left; eexists; reflexivity |].
  destruct (FloatOps.Z.frexp x) as [r exp].
  destruct (shr_fexp prec emax (Uint63.to_Z (normfr_mantissa r)) (exp - prec) loc_Exact)
    as [shr e'].
  destruct (shr_m shr); [left | right | left]; repeat eexists.
Qed.

Lemma round_half_up_nearest M e :
  e < 0 ->
  (2 * round_half_up M e - 1) * 2 ^ (- e) <= 2 * M
  < (2 * round_half_up M e + 1) * 2 ^ (- e).
Proof.
  intros He. unfold round_half_up.
  destruct (Z.leb_spec 0 e) as [Hge | _]; [lia |].
  replace (1 - e) with (Z.succ (- e)) by lia. rewrite Z.pow_succ_r by lia.
  assert (0 < 2 ^ (- e)) as Hpos by (apply Z.pow_pos_nonneg; lia).
  pose proof (Z.div_mod (2 * M + 2 ^ (- e)) (2 * 2 ^ (- e)) ltac:(lia)) as Hdm.
  pose proof (Z.mod_pos_bound (2 * M + 2 ^ (- e)) (2 * 2 ^ (- e)) ltac:(lia)) as Hr.
  set (n := (2 * M + 2 ^ (- e)) / (2 * 2 ^ (- e))) in *.
  set (r := (2 * M + 2 ^ (- e)) mod (2 * 2 ^ (- e))) in *.
  set (P := 2 ^ (- e)) in *. nia.
Qed.

(** [Math.round] rounds a finite number to the integer nearest to it. *)
Lemma Math_round_rounded x :
  Number_isFinite x = true -> rounded_to_integer x (Math_round x).
Proof.
  intros Hfin. unfold rounded_to_integer, Math_round.
  destruct (finite_Prim2SF x Hfin) as [[s ->] | (s & m & e & ->)]; [reflexivity |].
  destruct (Z.leb_spec 0 e) as [_ | He]; [reflexivity |].
  exists (round_half_up (signed s m) e). split; [| reflexivity].
  apply round_half_up_nearest. exact He.
Qed.

(** The comparator on every pair of numbers whose percentage change,
    taken ten times, is still a finite number: [calculateChange] returns 0
    when both values are 0 and [null] when only the previous one is 0;
    otherwise [null] when the percentage change is not finite, and else the
    percentage rounded to one decimal place: the integer nearest to ten
    times the percentage, divided by ten.  It takes the four values the
    specification lists. *)
Theorem calculateChange_rounded (current previous : number) :
  ((previous =? 0)%float = true ->
   calculateChange current previous
   = if (current =? 0)%float then Some 0%float else None)
  /\ ((previous =? 0)%float = false ->
      Number_isFinite (percentage current previous) = false ->
      calculateChange current previous = None)
  /\ ((previous =? 0)%float = false ->
      Number_isFinite (percentage current previous) = true ->
      Number_isFinite (percentage current previous * 10)%float = true ->
      exists r,
        calculateChange current previous = Some r
        /\ rounded_to_one_decimal (percentage current previous) r)
  /\ calculateChange 0%float 0%float = Some 0%float
  /\ calculateChange 5%float 0%float = None
  /\ calculateChange 150%float 100%float = Some 50%float
  /\ calculateChange 50%float 100%float = Some (-50)%float.
Proof.
  split; [| split; [| split; [| repeat split; reflexivity]]].
  - intros Hp. unfold calculateChange. rewrite Hp. reflexivity.
  - intros Hp Hfin. unfold calculateChange. rewrite Hp.
    fold (percentage current previous). rewrite Hfin. reflexivity.
  - intros Hp Hfin Hten. unfold calculateChange. rewrite Hp.
    fold (percentage current previous). rewrite Hfin. cbn [negb].
    eexists. split; [reflexivity |].
    exists (Math_round (percentage current previous * 10)%float).
    split; [apply Math_round_rounded; exact Hten | reflexivity].
Qed.

(** C2: [calculateChange] is to return the percentage change rounded to
    one decimal place, or [null] when the percentage is not finite.  The
    percentage change from 1 to about 1.6e306 is finite, about 1.6e308, and
    an integer, its own rounding; the code tests the percentage for
    finiteness and then multiplies it by ten to round it, and returns
    [Infinity]: neither that percentage nor [null]. *)
Lemma calculateChange_rounding_overflow :
  Number_isFinite (percentage 0x1.6c8e5ca239029p+1016%float 1%float) = true
  /\ rounded_to_integer (percentage 0x1.6c8e5ca239029p+1016%float 1%float)
       (percentage 0x1.6c8e5ca239029p+1016%float 1%float)
  /\ calculateChange 0x1.6c8e5ca239029p+1016%float 1%float = Some infinity.
Proof. repeat split; reflexivity. Qed.

(** One decimal is kept, a tie going towards +infinity as [Math.round]
    sends it. *)
Example calculateChange_third : calculateChange 2%float 3%float = Some (-33.3)%float.
Proof. reflexivity. Qed.

Example calculateChange_tie_up : calculateChange 100.25%float 100%float = Some 0.3%float.
Proof. reflexivity. Qed.

Example calculateChange_tie_negative :
  calculateChange 99.75%float 100%float = Some (-0.2)%float.
Proof. reflexivity. Qed.

(** NaN on either side gives [null]. *)
Example calculateChange_nan :
  calculateChange nan 3%float = None /\ calculateChange 3%float nan = None.
Proof. split; reflexivity. Qed.

(** Two equal negative values differ by -0 percent. *)
Example calculateChange_negative_zero :
  calculateChange (-5)%float (-5)%float = Some neg_zero.
Proof. reflexivity. Qed.

(** ** Calendar arithmetic *)

Lemma YearFromDay_spec d :
  DayFromYear (YearFromDay d) <= d < DayFromYear (YearFromDay d + 1).
Proof.
  unfold YearFromDay.
  destruct (Z.ltb_spec d (DayFromYear (1970 + 400 * d / 146097))).
  - unfold DayFromYear in *. Z.div_mod_to_equations. lia.
  - destruct (Z.leb_spec (DayFromYear (1970 + 400 * d / 146097 + 1)) d).
    + unfold DayFromYear in *. Z.div_mod_to_equations. lia.
    + lia.
Qed.

Lemma leapDay_range y : 0 <= leapDay y <= 1.
Proof. unfold leapDay. destruct (isLeapYear y); lia. Qed.

Lemma DayFromYear_succ y : DayFromYear (y + 1) = DayFromYear y + 365 + leapDay y.
Proof.
  unfold leapDay, isLeapYear, DayFromYear.
  destruct (Z.eqb_spec (y mod 4) 0), (Z.eqb_spec (y mod 100) 0), (Z.eqb_spec (y mod 400) 0);
    cbn [andb orb negb]; Z.div_mod_to_equations; lia.
Qed.

Lemma InLeapYear_range t : 0 <= InLeapYear t <= 1.
Proof. unfold InLeapYear. destruct (isLeapYear _); lia. Qed.

Lemma DayWithinYear_range t : 0 <= DayWithinYear t < 365 + InLeapYear t.
Proof.
  unfold DayWithinYear, InLeapYear, YearFromTime.
  pose proof (YearFromDay_spec (Day t)) as Hs.
  rewrite DayFromYear_succ in Hs. unfold leapDay in Hs. lia.
Qed.

Lemma MonthFromTime_range t : 0 <= MonthFromTime t <= 11.
Proof.
  unfold MonthFromTime.
  repeat match goal with |- context [if ?b then _ else _] => destruct b end; lia.
Qed.

Lemma DateFromTime_range t : 1 <= DateFromTime t <= 31.
Proof.
  unfold DateFromTime, MonthFromTime.
  pose proof (DayWithinYear_range t). pose proof (InLeapYear_range t).
  repeat match goal with
         | |- context [if ?a <? ?b then _ else _] => destruct (Z.ltb_spec a b)
         end; cbn [monthStart]; lia.
Qed.

(** The day number is recovered from its year, month and date. *)
Lemma MakeDay_of_time t :
  MakeDay (YearFromTime t) (MonthFromTime t) (DateFromTime t) = Day t.
Proof.
  unfold MakeDay.
  pose proof (MonthFromTime_range t) as Hm.
  rewrite Z.div_small, Z.mod_small, Z.add_0_r by lia.
  unfold DateFromTime, DayWithinYear, InLeapYear. lia.
Qed.

Lemma MakeDay_date y m d k : MakeDay y m (d + k) = MakeDay y m d + k.
Proof. unfold MakeDay. lia. Qed.

Lemma Day_decompose t : Day t * msPerDay + TimeWithinDay t = t.
Proof. unfold Day, TimeWithinDay, msPerDay. Z.div_mod_to_equations. lia. Qed.

Ltac month_cases m :=
  let Hc := fresh "Hc" in
  assert (m = 0 \/ m = 1 \/ m = 2 \/ m = 3 \/ m = 4 \/ m = 5 \/ m = 6 \/ m = 7
          \/ m = 8 \/ m = 9 \/ m = 10 \/ m = 11) as Hc by lia;
  repeat destruct Hc as [-> | Hc]; try subst m.

Lemma monthStart_prev l m :
  0 <= l <= 1 -> 1 <= m <= 11 -> monthStart l (m - 1) < monthStart l m.
Proof.
  intros Hl Hm. month_cases m; try lia;
    match goal with
    | |- context [monthStart _ (?a - 1)] =>
        let v := eval compute in (a - 1) in change (a - 1) with v
    end; cbn [monthStart]; lia.
Qed.

Lemma monthStart_leap m l1 l2 :
  0 <= m <= 11 -> 0 <= l1 <= 1 -> 0 <= l2 <= 1 ->
  monthStart l1 m <= monthStart l2 m + 1.
Proof. intros Hm Hl1 Hl2. month_cases m; cbn [monthStart]; lia. Qed.

Lemma MakeDay_prev_month y m d :
  0 <= m <= 11 -> MakeDay y (m - 1) d < MakeDay y m d.
Proof.
  intros Hm. unfold MakeDay.
  destruct (Z.eq_dec m 0) as [-> | Hne].
  - change ((0 - 1) / 12) with (-1). change ((0 - 1) mod 12) with 11.
    change (0 / 12) with 0. change (0 mod 12) with 0.
    replace (y + 0) with (y + -1 + 1) by lia.
    rewrite DayFromYear_succ. unfold leapDay. cbn [monthStart].
    destruct (isLeapYear (y + -1)), (isLeapYear (y + -1 + 1)); lia.
  - rewrite !Z.div_small, !Z.mod_small, Z.add_0_r by lia.
    pose proof (monthStart_prev (if isLeapYear y then 1 else 0) m).
    destruct (isLeapYear y); lia.
Qed.

Lemma MakeDay_prev_year y m d :
  0 <= m <= 11 -> MakeDay (y - 1) m d < MakeDay y m d.
Proof.
  intros Hm. unfold MakeDay.
  rewrite !Z.div_small, !Z.mod_small, !Z.add_0_r by lia.
  replace y with (y - 1 + 1) at 3 by lia.
  rewrite DayFromYear_succ.
  pose proof (monthStart_leap m (if isLeapYear (y - 1) then 1 else 0)
                (if isLeapYear y then 1 else 0) Hm).
  pose proof (leapDay_range (y - 1)).
  destruct (isLeapYear (y - 1)), (isLeapYear y); lia.
Qed.

Section DateSetters.
Context `{Platform}.

Lemma setDate_shift t k : setDate t (getDate t + k) = t + k * msPerDay.
Proof.
  unfold setDate, getDate, UTC, MakeDate.
  rewrite MakeDay_date, MakeDay_of_time.
  pose proof (Day_decompose (LocalTime t)). unfold LocalTime in *. lia.
Qed.

Lemma setDate_back t k : setDate t (getDate t - k) = t - k * msPerDay.
Proof.
  replace (getDate t - k) with (getDate t + - k) by lia.
  rewrite setDate_shift. lia.
Qed.

Lemma setDate_first_le t : setDate t 1 <= t.
Proof.
  replace 1 with (getDate t + (1 - getDate t)) by lia.
  rewrite setDate_shift. pose proof (DateFromTime_range (LocalTime t)).
  unfold getDate, msPerDay. lia.
Qed.

Lemma setHours_midnight t :
  setHours t 0 0 0 0 = Day (LocalTime t) * msPerDay - tz.
Proof. unfold setHours, UTC, MakeDate, MakeTime. lia. Qed.

Lemma setHours_midnight_le t : setHours t 0 0 0 0 <= t.
Proof.
  rewrite setHours_midnight. pose proof (Day_decompose (LocalTime t)).
  assert (0 <= TimeWithinDay (LocalTime t)).
  { unfold TimeWithinDay, msPerDay. apply Z.mod_pos_bound. lia. }
  unfold LocalTime in *. lia.
Qed.

Lemma setMonth_prev_lt t : setMonth t (getMonth t - 1) < t.
Proof.
  unfold setMonth, getMonth, UTC, MakeDate.
  pose proof (MakeDay_prev_month (YearFromTime (LocalTime t)) (MonthFromTime (LocalTime t))
                (DateFromTime (LocalTime t)) (MonthFromTime_range _)) as Hlt.
  rewrite MakeDay_of_time in Hlt.
  pose proof (Day_decompose (LocalTime t)). unfold LocalTime, msPerDay in *. nia.
Qed.

Lemma setMonth2_january_le t : setMonth2 t 0 1 <= t.
Proof.
  unfold setMonth2, UTC, MakeDate, MakeDay.
  change (0 / 12) with 0. change (0 mod 12) with 0. cbn [monthStart].
  pose proof (YearFromDay_spec (Day (LocalTime t))) as Hy.
  pose proof (Day_decompose (LocalTime t)).
  unfold YearFromTime, LocalTime, msPerDay in *. rewrite !Z.add_0_r. lia.
Qed.

Lemma setFullYear_prev_lt t : setFullYear t (getFullYear t - 1) < t.
Proof.
  unfold setFullYear, getFullYear, UTC, MakeDate.
  pose proof (MakeDay_prev_year (YearFromTime (LocalTime t)) (MonthFromTime (LocalTime t))
                (DateFromTime (LocalTime t)) (MonthFromTime_range _)) as Hlt.
  rewrite MakeDay_of_time in Hlt.
  pose proof (Day_decompose (LocalTime t)). unfold LocalTime, msPerDay in *. nia.
Qed.

End DateSetters.

(** ** Period resolver *)

Ltac keep_setters :=
  cbn -[setHours setDate getDate setMonth getMonth setMonth2 setFullYear getFullYear
        Z.mul Z.sub].

(** C5: for each of the four period tags and every reading of the clock,
    the previous range ends no later than the current range starts (it ends
    exactly there), each range has its start no later than its end, and
    for "today" the current range starts at local midnight while the
    previous range is the calendar day before it. *)
Theorem period_bounds_ordered `{Platform} (period : string) (now : Z) :
  known_period period ->
  range_end (previous (getPeriodBounds period now))
    <= range_start (current (getPeriodBounds period now))
  /\ range_end (previous (getPeriodBounds period now))
     = range_start (current (getPeriodBounds period now))
  /\ range_start (current (getPeriodBounds period now))
     <= range_end (current (getPeriodBounds period now))
  /\ range_start (previous (getPeriodBounds period now))
     <= range_end (previous (getPeriodBounds period now))
  /\ (period = "today" ->
      range_start (current (getPeriodBounds period now))
        = Day (LocalTime now) * msPerDay - tz
      /\ range_end (current (getPeriodBounds period now)) = now
      /\ range_start (previous (getPeriodBounds period now))
         = (Day (LocalTime now) - 1) * msPerDay - tz).
Proof.
  intros [-> | [-> | [-> | ->]]]; keep_setters.
  - rewrite setDate_back. pose proof (setHours_midnight_le now).
    rewrite setHours_midnight in *. unfold msPerDay in *.
    repeat split; intros; lia.
  - rewrite !setDate_back. pose proof (setHours_midnight_le now).
    unfold msPerDay. repeat split; intros; try lia; discriminate.
  - pose proof (setHours_midnight_le now).
    pose proof (setDate_first_le (setHours now 0 0 0 0)).
    pose proof (setMonth_prev_lt (setDate (setHours now 0 0 0 0) 1)).
    repeat split; intros; try lia; discriminate.
  - pose proof (setHours_midnight_le now).
    pose proof (setMonth2_january_le (setHours now 0 0 0 0)).
    pose proof (setFullYear_prev_lt (setMonth2 (setHours now 0 0 0 0) 0 1)).
    repeat split; intros; try lia; discriminate.
Qed.

Lemma period_bounds_ordered_witness :
  known_period "month"
  /\ range_end (previous (@getPeriodBounds utc_platform "month" sample_now))
     <= range_start (current (@getPeriodBounds utc_platform "month" sample_now)).
Proof.
  split.
  - right. right. left. reflexivity.
  - apply (@period_bounds_ordered utc_platform "month" sample_now).
    right. right. left. reflexivity.
Defined.

Lemma unknown_period_eqb (period : string) :
  ~ known_period period ->
  String.eqb period "today" = false /\ String.eqb period "week" = false
  /\ String.eqb period "month" = false /\ String.eqb period "year" = false.
Proof.
  intros Hn. unfold known_period in Hn.
  repeat split; apply String.eqb_neq; intros ->; tauto.
Qed.

(** C4 (as stated, refuted): with the tag "quarter" the current range
    runs from midnight to the clock reading; it is not empty. *)
Lemma unknown_period_current_not_empty :
  ~ known_period "quarter"
  /\ range_start (current (@getPeriodBounds utc_platform "quarter" sample_now))
     <> range_end (current (@getPeriodBounds utc_platform "quarter" sample_now)).
Proof.
  split.
  - intros [Hq | [Hq | [Hq | Hq]]]; discriminate Hq.
  - vm_compute. discriminate.
Qed.

(** C4 (amended): for a period tag outside the four known ones, the
    current range is the one of "today", from local midnight to the clock
    reading, and only the previous range is empty, starting and ending at
    that midnight. *)
Theorem unknown_period_bounds `{Platform} (period : string) (now : Z) :
  ~ known_period period ->
  getPeriodBounds period now =
    {| current := {| range_start := setHours now 0 0 0 0; range_end := now |};
       previous := {| range_start := setHours now 0 0 0 0;
                      range_end := setHours now 0 0 0 0 |} |}
  /\ setHours now 0 0 0 0 = Day (LocalTime now) * msPerDay - tz
  /\ setHours now 0 0 0 0 <= now
  /\ current (getPeriodBounds period now) = current (getPeriodBounds "today" now).
Proof.
  intros Hn. destruct (unknown_period_eqb period Hn) as (H1 & H2 & H3 & H4).
  assert (getPeriodBounds period now =
    {| current := {| range_start := setHours now 0 0 0 0; range_end := now |};
       previous := {| range_start := setHours now 0 0 0 0;
                      range_end := setHours now 0 0 0 0 |} |}) as Hb.
  { unfold getPeriodBounds. rewrite H1, H2, H3, H4. reflexivity. }
  rewrite Hb. repeat split.
  - apply setHours_midnight.
  - apply setHours_midnight_le.
Qed.

Lemma unknown_period_bounds_witness :
  ~ known_period "quarter"
  /\ current (@getPeriodBounds utc_platform "quarter" sample_now)
     = current (@getPeriodBounds utc_platform "today" sample_now).
Proof.
  assert (~ known_period "quarter") as Hn.
  { intros [Hq | [Hq | [Hq | Hq]]]; discriminate Hq. }
  split.
  - exact Hn.
  - apply (@unknown_period_bounds utc_platform "quarter" sample_now Hn).
Defined.

(** ** Resilient aggregator: how the store compares timestamps *)

Lemma stored_timestamp_ge s n t (data : gmap string value) f :
  field data f = VTimestamp s n -> 0 <= n < 1000000000 ->
  matches_where data f op_ge (Timestamp_fromDate t) = (t <=? (s * 1000000000 + n) / 1000000).
Proof.
  intros Hf Hn. unfold matches_where, Timestamp_fromDate. rewrite Hf.
  cbn [comparable value_rank value_compare andb]. rewrite Z.eqb_refl. cbn [andb].
  destruct (Z.compare_spec s (t / 1000)) as [He | Hl | Hg].
  - subst s. destruct (Z.compare_spec n (t mod 1000 * 1000000));
      destruct (Z.leb_spec t ((t / 1000 * 1000000000 + n) / 1000000)); try reflexivity;
      exfalso; Z.div_mod_to_equations; lia.
  - destruct (Z.leb_spec t ((s * 1000000000 + n) / 1000000)); try reflexivity;
      exfalso; Z.div_mod_to_equations; lia.
  - destruct (Z.leb_spec t ((s * 1000000000 + n) / 1000000)); try reflexivity;
      exfalso; Z.div_mod_to_equations; lia.
Qed.

Lemma stored_timestamp_lt s n t (data : gmap string value) f :
  field data f = VTimestamp s n -> 0 <= n < 1000000000 ->
  matches_where data f op_lt (Timestamp_fromDate t) = ((s * 1000000000 + n) / 1000000 <? t).
Proof.
  intros Hf Hn. unfold matches_where, Timestamp_fromDate. rewrite Hf.
  cbn [comparable value_rank value_compare andb]. rewrite Z.eqb_refl. cbn [andb].
  destruct (Z.compare_spec s (t / 1000)) as [He | Hl | Hg].
  - subst s. destruct (Z.compare_spec n (t mod 1000 * 1000000));
      destruct (Z.ltb_spec ((t / 1000 * 1000000000 + n) / 1000000) t); try reflexivity;
      exfalso; Z.div_mod_to_equations; lia.
  - destruct (Z.ltb_spec ((s * 1000000000 + n) / 1000000) t); try reflexivity;
      exfalso; Z.div_mod_to_equations; lia.
  - destruct (Z.ltb_spec ((s * 1000000000 + n) / 1000000) t); try reflexivity;
      exfalso; Z.div_mod_to_equations; lia.
Qed.

Lemma sum_step_number f acc (d : Document) x :
  field (doc_data d) f = VNum x -> sum_step f acc d = (acc + x)%float.
Proof. intros Hx. unfold sum_step. rewrite Hx. reflexivity. Qed.

(** ** Geographic breakdown *)

Section Geo.
Context `{Platform}.

Lemma geo_fold_two_orders createdAt :
  fold_left (geo_order_step true) [completed_order_BR createdAt; pending_order_BR createdAt] []
  = [("BR", BR_point)].
Proof. vm_compute. reflexivity. Qed.

Lemma order_by_same_timestamp f (a b : Document) s n :
  field (doc_data a) f = VTimestamp s n -> field (doc_data b) f = VTimestamp s n ->
  order_by f false [a; b] = [a; b].
Proof.
  intros Ha Hb.
  assert (has_field f a = true /\ has_field f b = true) as [Hfa Hfb].
  { unfold has_field, field in *. split.
    - destruct (doc_data a !! f); [reflexivity | discriminate].
    - destruct (doc_data b !! f); [reflexivity | discriminate]. }
  unfold order_by. cbn [List.filter]. rewrite Hfa, Hfb.
  cbn [Array_sort sort_insert]. rewrite Ha, Hb.
  cbn [value_compare]. rewrite !Z.compare_refl. reflexivity.
Qed.

Lemma in_range_matches_geo (d : Document) range s n :
  field (doc_data d) "createdAt" = VTimestamp s n ->
  0 <= n < 1000000000 ->
  range_start range <= (s * 1000000000 + n) / 1000000 < range_end range ->
  matches_all (q_constraints (geo_range_query "orders" range)) d = true.
Proof.
  intros Hf Hn Hr. unfold geo_range_query, query, matches_all.
  cbn [q_constraints forallb matches].
  rewrite (stored_timestamp_ge s n _ _ "createdAt" Hf Hn),
          (stored_timestamp_lt s n _ _ "createdAt" Hf Hn).
  apply andb_true_intro; split; [apply Z.leb_le; lia |].
  apply andb_true_intro; split; [apply Z.ltb_lt; lia | reflexivity].
Qed.

(** C6: with exactly the two orders of the scenario in the current range
    (a completed one of 100 and a pending one of 50, both from BR and
    created at the same instant) and no quotes data, either because the
    quotes query is rejected or because the collection is empty,
    [getGeographicData] returns the single point BR with quotes = 2,
    conversions = 1 and revenue = 100. *)
Theorem geographic_scenario_BR (fs : Firestore) (now : Z) (period : string) (s n : Z) :
  0 <= n < 1000000000 ->
  range_start (current (getPeriodBounds period now)) <= (s * 1000000000 + n) / 1000000
    < range_end (current (getPeriodBounds period now)) ->
  collection fs "orders" = [completed_order_BR (VTimestamp s n); pending_order_BR (VTimestamp s n)] ->
  rejects fs (req_getDocs (geo_range_query "orders" (current (getPeriodBounds period now)))) = false ->
  rejects fs (req_getDocs (geo_range_query "quotes" (current (getPeriodBounds period now)))) = true
    \/ collection fs "quotes" = [] ->
  getGeographicData fs now period = [BR_point].
Proof.
  intros Hn Hr Horders Hok Hquotes.
  unfold getGeographicData.
  set (range := current (getPeriodBounds period now)) in *.
  assert (match getDocs fs (geo_range_query "quotes" range) with
          | Fulfilled docs => docs
          | Rejected => []
          end = []) as ->.
  { unfold getDocs. destruct Hquotes as [-> | Hq]; [reflexivity |].
    destruct (rejects fs (req_getDocs (geo_range_query "quotes" range))); [reflexivity |].
    cbn [geo_range_query query q_path]. rewrite Hq. reflexivity. }
  unfold getDocs. rewrite Hok. cbn [geo_range_query query q_path q_constraints]. rewrite Horders.
  assert (run_query [completed_order_BR (VTimestamp s n); pending_order_BR (VTimestamp s n)]
            (q_constraints (geo_range_query "orders" range))
          = [completed_order_BR (VTimestamp s n); pending_order_BR (VTimestamp s n)]) as Hq.
  { unfold run_query, matching_docs. cbn [List.filter].
    rewrite (in_range_matches_geo (completed_order_BR (VTimestamp s n)) range s n eq_refl Hn Hr).
    rewrite (in_range_matches_geo (pending_order_BR (VTimestamp s n)) range s n eq_refl Hn Hr).
    cbn [geo_range_query query q_constraints first_orderBy first_inequality first_limit].
    apply (order_by_same_timestamp "createdAt" _ _ s n); reflexivity. }
  cbn [geo_range_query query q_constraints] in Hq. rewrite Hq.
  cbn [List.length Nat.eqb].
  change (fold_left geo_quote_step [] []) with (@nil (string * GeoDataPoint)).
  rewrite geo_fold_two_orders. reflexivity.
Qed.
End Geo.

Lemma geographic_scenario_BR_witness :
  @getGeographicData utc_platform
    (store_of [completed_order_BR T0; pending_order_BR T0] [] ["quotes"]) sample_now "month"
  = [BR_point].
Proof.
  apply (@geographic_scenario_BR utc_platform
           (store_of [completed_order_BR T0; pending_order_BR T0] [] ["quotes"])
           sample_now "month" 1710000000 0).
  - lia.
  - vm_compute. split; [discriminate | reflexivity].
  - reflexivity.
  - reflexivity.
  - left. reflexivity.
Defined.

(** The same scenario once one quote from BR exists: orders no longer add
    to the quotes, which now count the quote alone. *)
Example geographic_with_quotes :
  @getGeographicData utc_platform
    (store_of [completed_order_BR T0; pending_order_BR T0]
              [doc_of "quote-1" [("countryCode", VStr "BR"); ("createdAt", T0)]] [])
    sample_now "month"
  = [{| country := "Brazil"; countryCode := "BR"; region := LATAM;
        quotes := 1; conversions := 1; geo_revenue := VNum 100%float |}].
Proof. vm_compute. reflexivity. Qed.

(** ** Trend bucketizer: profit *)

Lemma Map_get_set {V} (m : JSMap V) k v : Map_get (Map_set m k v) k = Some v.
Proof.
  induction m as [| [k' v'] rest IH]; cbn [Map_set Map_get].
  - rewrite String.eqb_refl. reflexivity.
  - destruct (String.eqb k' k) eqn:E; cbn [Map_get].
    + rewrite String.eqb_refl. reflexivity.
    + rewrite E. exact IH.
Qed.

(** C7 (as stated, refuted): an order of 100 with a recorded cost of 0
    adds 30 to the profit of its bucket, not 100: the recorded 0 is
    replaced by the estimate of 70. *)
Lemma zero_cost_is_estimated :
  doc_data order_zero_cost !! "costPrice" = Some (VNum 0%float)
  /\ trend_amount (doc_data order_zero_cost) = VNum 100%float
  /\ @profit_contribution utc_platform (doc_data order_zero_cost) = 30%float
  /\ @profit_contribution utc_platform (doc_data order_zero_cost) <> (100 - 0)%float.
Proof.
  repeat split; try (vm_compute; reflexivity).
  vm_compute. discriminate.
Qed.

Section TrendProfit.
Context `{Platform}.

(** C7 (amended): what a record adds to the profit of its bucket is its
    amount minus its cost, where the cost is the recorded [costPrice] when
    that value is truthy, and 0.7 times the amount when it is missing or
    falsy, a recorded cost of 0 included. *)
Theorem profit_contribution_cost (data : gmap string value) :
  (truthy (field data "costPrice") = true ->
   profit_contribution data
   = (Number_ (trend_amount data) - Number_ (field data "costPrice"))%float)
  /\ (truthy (field data "costPrice") = false ->
      profit_contribution data
      = (Number_ (trend_amount data) - Number_ (trend_amount data) * 0.7)%float)
  /\ (data !! "costPrice" = None -> truthy (field data "costPrice") = false)
  /\ (field data "costPrice" = VNum 0%float -> truthy (field data "costPrice") = false)
  /\ (forall period grouped s n,
        field data "createdAt" = VTimestamp s n ->
        exists grouped' bucket,
          trend_step period data grouped = Fulfilled grouped'
          /\ Map_get grouped' (getDateKey (Timestamp_toDate s n) period) = Some bucket
          /\ profit bucket
             = (profit (option_or (Map_get grouped (getDateKey (Timestamp_toDate s n) period))
                                  empty_bucket)
                + profit_contribution data)%float).
Proof.
  unfold profit_contribution, trend_cost, js_minus, js_or.
  repeat split.
  - intros ->. reflexivity.
  - intros ->. reflexivity.
  - intros Hnone. unfold field. rewrite Hnone. reflexivity.
  - intros ->. reflexivity.
  - intros period grouped s n Hts.
    unfold trend_step. rewrite Hts. cbn [createdAt_toDate].
    eexists. eexists. split; [reflexivity |]. split; [apply Map_get_set | reflexivity].
Qed.

End TrendProfit.

Lemma profit_contribution_cost_witness :
  truthy (field (doc_data order_cost_60) "costPrice") = true
  /\ @profit_contribution utc_platform (doc_data order_cost_60)
     = (@Number_ utc_platform (trend_amount (doc_data order_cost_60))
        - @Number_ utc_platform (field (doc_data order_cost_60) "costPrice"))%float.
Proof.
  assert (truthy (field (doc_data order_cost_60) "costPrice") = true) as Ht
    by (vm_compute; reflexivity).
  split; [exact Ht |].
  apply (proj1 (@profit_contribution_cost utc_platform (doc_data order_cost_60)) Ht).
Defined.

(** ** Single-flight currency resolver *)

Lemma map_string_empty f s : map_string f s = "" -> s = "".
Proof. destruct s; [reflexivity | discriminate]. Qed.

Lemma resolved_code_nonempty result : String.eqb (resolved_code result) "" = false.
Proof.
  apply String.eqb_neq. unfold resolved_code.
  destruct result as [settings |]; [| discriminate].
  assert (forall v, match js_or v (VStr "USD") with
                    | VStr s => toUpperCase s
                    | _ => "USD"
                    end <> "") as Hor.
  { intros v. unfold js_or. destruct (truthy v) eqn:Ht; [| discriminate].
    destruct v; try discriminate. cbn in Ht.
    intros Hs. apply map_string_empty in Hs. subst s. discriminate Ht. }
  destruct settings; try discriminate; apply Hor.
Qed.

Lemma cache_hit_resolved s result :
  cachedCurrencyCode s = Some (resolved_code result) -> cache_hit s = Some (resolved_code result).
Proof. intros Hc. unfold cache_hit. rewrite Hc, resolved_code_nonempty. reflexivity. Qed.

(** Calls that arrive while a fetch is in flight join it. *)
Lemma calls_join_in_flight cs : forall s p,
  cache_hit s = None -> currencyResolver s = Some p ->
  currency_run s (map call cs)
  = ({| cachedCurrencyCode := cachedCurrencyCode s;
        currencyResolver := Some p;
        settingsFetches := settingsFetches s;
        waiting := (waiting s ++ map (fun c => (c, p)) cs)%list;
        resumable := resumable s |}, []).
Proof.
  induction cs as [| c cs IH]; intros s p Hmiss Hres.
  - cbn. rewrite app_nil_r. destruct s; cbn in *. subst. reflexivity.
  - cbn [map currency_run currency_step]. rewrite Hmiss, Hres.
    rewrite (IH _ p); [| assumption | reflexivity].
    cbn. rewrite <- app_assoc. reflexivity.
Qed.

Lemma currency_run_app es1 : forall s es2,
  currency_run s (es1 ++ es2)%list
  = let '(s1, out1) := currency_run s es1 in
    let '(s2, out2) := currency_run s1 es2 in
    (s2, (out1 ++ out2)%list).
Proof.
  induction es1 as [| e es1 IH]; intros s es2.
  - cbn. destruct (currency_run s es2). reflexivity.
  - cbn [app currency_run]. destruct (currency_step s e) as [s1 out1].
    rewrite IH. destruct (currency_run s1 es1) as [s2 out2].
    destruct (currency_run s2 es2) as [s3 out3]. rewrite app_assoc. reflexivity.
Qed.

Lemma resumes_deliver code cs : forall c s,
  resumable s = map (fun k => (k, code)) (c :: cs) ->
  currency_run s (repeat resume (S (List.length cs)))
  = ({| cachedCurrencyCode := Some code;
        currencyResolver := currencyResolver s;
        settingsFetches := settingsFetches s;
        waiting := waiting s;
        resumable := [] |}, map (fun k => (k, code)) (c :: cs)).
Proof.
  induction cs as [| c' cs IH]; intros c s Hres.
  - cbn [List.length repeat currency_run currency_step]. rewrite Hres. reflexivity.
  - cbn [List.length repeat currency_run currency_step] in *. rewrite Hres.
    cbn [map]. rewrite (IH c'); [reflexivity | reflexivity].
Qed.

Lemma filter_waiting_same p cs :
  List.filter (fun w : nat * nat => (snd w =? p)%nat) (map (fun c => (c, p)) cs)
  = map (fun c => (c, p)) cs
  /\ List.filter (fun w : nat * nat => negb (snd w =? p)%nat) (map (fun c => (c, p)) cs) = [].
Proof.
  induction cs as [| c cs [IH1 IH2]]; [split; reflexivity |].
  cbn [map List.filter snd]. rewrite Nat.eqb_refl. cbn [negb]. rewrite IH1, IH2.
  split; reflexivity.
Qed.

Lemma calls_await_one_fetch c cs :
  currency_run initial_currency (map call (c :: cs))
  = ({| cachedCurrencyCode := None; currencyResolver := Some 0%nat; settingsFetches := 1;
        waiting := map (fun k => (k, 0%nat)) (c :: cs); resumable := [] |}, []).
Proof.
  cbn [map currency_run].
  change (currency_step initial_currency (call c))
    with ({| cachedCurrencyCode := None; currencyResolver := Some 0%nat; settingsFetches := 1;
             waiting := [(c, 0%nat)]; resumable := [] |}, @nil (nat * string)).
  cbv beta iota.
  rewrite (calls_join_in_flight cs _ 0%nat); reflexivity.
Qed.

Lemma settle_wakes_all result p n cs :
  currency_step
    {| cachedCurrencyCode := None; currencyResolver := Some p; settingsFetches := n;
       waiting := map (fun k => (k, p)) cs; resumable := [] |} (settle result)
  = ({| cachedCurrencyCode := None; currencyResolver := None; settingsFetches := n;
        waiting := []; resumable := map (fun k => (k, resolved_code result)) cs |}, []).
Proof.
  cbn [currency_step currencyResolver waiting resumable cachedCurrencyCode settingsFetches app].
  destruct (filter_waiting_same p cs) as [-> ->].
  rewrite map_map. reflexivity.
Qed.

Lemma to_upper_char_idempotent c : to_upper_char (to_upper_char c) = to_upper_char c.
Proof. destruct c as [[] [] [] [] [] [] [] []]; reflexivity. Qed.

Lemma toUpperCase_idempotent s : toUpperCase (toUpperCase s) = toUpperCase s.
Proof.
  unfold toUpperCase. induction s as [| c s IH]; cbn [map_string]; [reflexivity |].
  rewrite to_upper_char_idempotent, IH. reflexivity.
Qed.

Lemma resolved_code_upper result : toUpperCase (resolved_code result) = resolved_code result.
Proof.
  unfold resolved_code. destruct result as [settings |]; [| reflexivity].
  destruct settings; try reflexivity;
    match goal with
    | |- context [js_or ?a ?b] => destruct (js_or a b); try reflexivity
    end; apply toUpperCase_idempotent.
Qed.

(** *** Any interleaving of calls, settlements and resumptions *)

Lemma cache_hit_Some s code : cache_hit s = Some code -> cachedCurrencyCode s = Some code /\ code <> "".
Proof.
  unfold cache_hit. destruct (cachedCurrencyCode s) as [c |]; [| discriminate].
  destruct (String.eqb_spec c "") as [-> | Hne]; [discriminate |].
  intros Hc. injection Hc as <-. split; [reflexivity | exact Hne].
Qed.

Lemma currency_step_ok s e :
  currency_ok s ->
  currency_ok (fst (currency_step s e))
  /\ Forall (fun answer => snd answer <> "" /\ toUpperCase (snd answer) = snd answer)
       (snd (currency_step s e))
  /\ (snd (currency_step s e) <> [] -> cache_hit (fst (currency_step s e)) <> None)
  /\ (cache_hit s <> None ->
      cache_hit (fst (currency_step s e)) <> None
      /\ settingsFetches (fst (currency_step s e)) = settingsFetches s).
Proof.
  intros [Hcache Hres].
  assert (forall code, code <> "" -> (if String.eqb code "" then @None string else Some code) <> None)
    as Hhit.
  { intros code Hne. destruct (String.eqb_spec code ""); [contradiction | discriminate]. }
  destruct e as [c | result |]; cbn [currency_step].
  - destruct (cache_hit s) as [code |] eqn:Hc.
    + apply cache_hit_Some in Hc as Hc'. destruct Hc' as [Hcc Hne].
      cbn [fst snd]. split; [split; assumption |].
      split; [constructor; [split; [exact Hne | apply (Hcache code Hcc)] | constructor] |].
      split; [intros _; rewrite Hc; discriminate |].
      intros _. split; [rewrite Hc; discriminate | reflexivity].
    + destruct (currencyResolver s) as [p |]; cbn [fst snd];
        (split; [split; assumption |]);
        (split; [constructor |]);
        (split; [intros Hn; contradiction |]);
        intros Hn; contradiction.
  - destruct (currencyResolver s) as [p |]; cbn [fst snd].
    + split.
      * split; [exact Hcache |]. cbn [resumable].
        apply Forall_app. split; [exact Hres |].
        apply List.Forall_forall. intros [k code] Hin. apply in_map_iff in Hin as (w & Hw & _).
        injection Hw as _ <-. cbn [snd]. split.
        -- pose proof (resolved_code_nonempty result) as Hn. apply String.eqb_neq. exact Hn.
        -- apply resolved_code_upper.
      * split; [constructor |]. split; [intros Hn; contradiction |].
        intros Hn. split; [exact Hn | reflexivity].
    + split; [split; assumption |]. split; [constructor |].
      split; [intros Hn; contradiction |]. intros Hn. split; [exact Hn | reflexivity].
  - destruct (resumable s) as [| [c code] rest] eqn:Hr; cbn [fst snd].
    + split; [split; [exact Hcache | rewrite Hr; constructor] |]. split; [constructor |].
      split; [intros Hn; contradiction |]. intros Hn. split; [exact Hn | reflexivity].
    + apply Forall_cons_iff in Hres as [[Hne Hup] Hrest]. cbn [snd] in *.
      split; [split |].
      * cbn [cachedCurrencyCode]. intros code' Hc. injection Hc as <-. exact Hup.
      * cbn [resumable]. exact Hrest.
      * split; [constructor; [split; assumption | constructor] |].
        unfold cache_hit. cbn [cachedCurrencyCode settingsFetches].
        split; [intros _; apply Hhit; exact Hne |].
        intros _. split; [apply Hhit; exact Hne | reflexivity].
Qed.

Lemma currency_run_ok es : forall s,
  currency_ok s ->
  currency_ok (fst (currency_run s es))
  /\ Forall (fun answer => snd answer <> "" /\ toUpperCase (snd answer) = snd answer)
       (snd (currency_run s es))
  /\ (snd (currency_run s es) <> [] -> cache_hit (fst (currency_run s es)) <> None)
  /\ (cache_hit s <> None ->
      cache_hit (fst (currency_run s es)) <> None
      /\ settingsFetches (fst (currency_run s es)) = settingsFetches s).
Proof.
  induction es as [| e rest IH]; intros s Hs.
  - cbn [currency_run fst snd]. split; [exact Hs |]. split; [constructor |].
    split; [intros Hn; contradiction |]. intros Hn. split; [exact Hn | reflexivity].
  - cbn [currency_run].
    destruct (currency_step_ok s e Hs) as (Hs1 & Hout1 & Hans1 & Hkeep1).
    destruct (currency_step s e) as [s1 out1]. cbn [fst snd] in *.
    destruct (IH s1 Hs1) as (Hs2 & Hout2 & Hans2 & Hkeep2).
    destruct (currency_run s1 rest) as [s2 out2]. cbn [fst snd] in *.
    split; [exact Hs2 |]. split; [apply Forall_app; split; assumption |]. split.
    + intros Hne. destruct out1 as [| a out1].
      * apply Hans2. exact Hne.
      * apply Hkeep2. apply Hans1. discriminate.
    + intros Hhit. destruct (Hkeep1 Hhit) as [Hhit1 Hf1].
      destruct (Hkeep2 Hhit1) as [Hhit2 Hf2]. split; [exact Hhit2 | lia].
Qed.

Lemma currency_ok_initial : currency_ok initial_currency.
Proof. split; [intros code Hc; discriminate Hc | constructor]. Qed.

(** Every code that is cached, queued or handed out was resolved by a
    settlement of the run. *)
Lemma currency_step_codes (P : string -> Prop) s e :
  codes_in P s -> settles_to P e ->
  codes_in P (fst (currency_step s e))
  /\ Forall (fun answer => P (snd answer)) (snd (currency_step s e)).
Proof.
  intros [Hcache Hres] He. destruct e as [c | result |]; cbn [currency_step].
  - destruct (cache_hit s) as [code |] eqn:Hc.
    + apply cache_hit_Some in Hc as [Hc _]. cbn [fst snd].
      split; [split; assumption |]. constructor; [apply Hcache; exact Hc | constructor].
    + destruct (currencyResolver s); cbn [fst snd]; (split; [split; assumption | constructor]).
  - destruct (currencyResolver s) as [p |]; cbn [fst snd];
      [| split; [split; assumption | constructor]].
    split; [| constructor]. split; [exact Hcache |]. cbn [resumable].
    apply Forall_app. split; [exact Hres |].
    apply List.Forall_forall. intros [k code] Hin. apply in_map_iff in Hin as (w & Hw & _).
    injection Hw as _ <-. exact He.
  - destruct (resumable s) as [| [c code] rest] eqn:Hr; cbn [fst snd].
    + split; [split; [exact Hcache | rewrite Hr; constructor] | constructor].
    + apply Forall_cons_iff in Hres as [Hcode Hrest]. cbn [snd] in Hcode.
      split; [split |].
      * cbn [cachedCurrencyCode]. intros code' Hc. injection Hc as <-. exact Hcode.
      * exact Hrest.
      * constructor; [exact Hcode | constructor].
Qed.

Lemma currency_run_codes (P : string -> Prop) es : forall s,
  codes_in P s -> Forall (settles_to P) es ->
  codes_in P (fst (currency_run s es))
  /\ Forall (fun answer => P (snd answer)) (snd (currency_run s es)).
Proof.
  induction es as [| e rest IH]; intros s Hs Hes.
  - cbn [currency_run fst snd]. split; [exact Hs | constructor].
  - apply Forall_cons_iff in Hes as [He Hrest]. cbn [currency_run].
    destruct (currency_step_codes P s e Hs He) as [Hs1 Hout1].
    destruct (currency_step s e) as [s1 out1]. cbn [fst snd] in *.
    destruct (IH s1 Hs1 Hrest) as [Hs2 Hout2].
    destruct (currency_run s1 rest) as [s2 out2]. cbn [fst snd] in *.
    split; [exact Hs2 | apply Forall_app; split; assumption].
Qed.

(** The cache is written by a resuming caller only: while nobody has been
    answered it is empty. *)
Lemma currency_run_unanswered es : forall s,
  cachedCurrencyCode s = None -> snd (currency_run s es) = [] ->
  cachedCurrencyCode (fst (currency_run s es)) = None.
Proof.
  induction es as [| e rest IH]; intros s Hs Hout; [exact Hs |].
  cbn [currency_run] in *.
  assert (snd (currency_step s e) = [] -> cachedCurrencyCode (fst (currency_step s e)) = None)
    as Hstep.
  { destruct e as [c | result |]; cbn [currency_step].
    - unfold cache_hit. rewrite Hs. destruct (currencyResolver s); intros _; reflexivity.
    - destruct (currencyResolver s); intros _; exact Hs.
    - destruct (resumable s) as [| [c code] rest']; [intros _; exact Hs | discriminate]. }
  destruct (currency_step s e) as [s1 out1]. cbn [fst snd] in *.
  specialize (IH s1). destruct (currency_run s1 rest) as [s2 out2]. cbn [fst snd] in *.
  apply app_eq_nil in Hout as [-> ->]. apply IH; [apply Hstep |]; reflexivity.
Qed.

(** C1 (amended): a settings fetch that fails resolves to "USD" like one
    that succeeds resolves to its code, and no call has another outcome
    than a code: in a run in which every fetch fails, every caller that is
    answered receives "USD".  The callers waiting on one fetch, however
    many, share it and each receive its code.  The code a caller receives
    is stored in the cache when that caller resumes, after a failure as
    after a success: once a caller has been answered the cache holds a
    code and is never emptied, every later call is answered at once from
    it, and the settings are not fetched again.  A call starts a fetch
    exactly when nobody has been answered yet and no fetch is in flight. *)
Theorem currency_resolution_policy (es : list CurrencyEvent) (result : outcome value)
    (c : nat) (cs : list nat) :
  ((forall r, In (settle r) es -> r = Rejected) ->
   Forall (fun answer => snd answer = "USD") (snd (currency_run initial_currency es))
   /\ (snd (currency_run initial_currency es) <> [] ->
       cachedCurrencyCode (fst (currency_run initial_currency es)) = Some "USD"))
  /\ currency_run initial_currency
       (map call (c :: cs) ++ settle result :: repeat resume (S (List.length cs)))%list
     = (settled_currency (resolved_code result),
        map (fun k => (k, resolved_code result)) (c :: cs))
  /\ resolved_code Rejected = "USD"
  /\ (snd (currency_run initial_currency es) <> [] ->
      exists code,
        cachedCurrencyCode (fst (currency_run initial_currency es)) = Some code
        /\ (forall later,
              currency_step (fst (currency_run initial_currency es)) (call later)
              = (fst (currency_run initial_currency es), [(later, code)]))
        /\ (forall after,
              cachedCurrencyCode (fst (currency_run initial_currency (es ++ after))) <> None
              /\ settingsFetches (fst (currency_run initial_currency (es ++ after)))
                 = settingsFetches (fst (currency_run initial_currency es))))
  /\ (forall later,
        settingsFetches (fst (currency_step (fst (currency_run initial_currency es))
                               (call later)))
        = match snd (currency_run initial_currency es),
                currencyResolver (fst (currency_run initial_currency es)) with
          | [], None => S (settingsFetches (fst (currency_run initial_currency es)))
          | _, _ => settingsFetches (fst (currency_run initial_currency es))
          end).
Proof.
  destruct (currency_run_ok es initial_currency currency_ok_initial) as (Hok & _ & Hans & _).
  pose proof (currency_run_unanswered es initial_currency eq_refl) as Hnone.
  split; [| split; [| split; [reflexivity | split]]].
  - intros Hfail.
    assert (Forall (settles_to (fun code => code = "USD")) es) as Hes.
    { apply List.Forall_forall. intros e He. destruct e as [k | r |]; cbn [settles_to]; trivial.
      rewrite (Hfail r He). reflexivity. }
    destruct (currency_run_codes (fun code => code = "USD") es initial_currency) as [Hs Hout];
      [split; [intros code Hc; discriminate Hc | constructor] | exact Hes |].
    split; [exact Hout |].
    intros Hne. specialize (Hans Hne).
    destruct (cache_hit (fst (currency_run initial_currency es))) as [code |] eqn:Hc;
      [| contradiction].
    apply cache_hit_Some in Hc as [Hc _]. rewrite Hc. f_equal. apply (proj1 Hs). exact Hc.
  - rewrite currency_run_app, calls_await_one_fetch.
    change (currency_run ?s (settle result :: ?l))
      with (let '(s1, out1) := currency_step s (settle result) in
            let '(s2, out2) := currency_run s1 l in (s2, (out1 ++ out2)%list)).
    rewrite settle_wakes_all. cbv beta iota.
    rewrite (resumes_deliver (resolved_code result) cs c); reflexivity.
  - intros Hne. specialize (Hans Hne).
    destruct (cache_hit (fst (currency_run initial_currency es))) as [code |] eqn:Hc;
      [| contradiction].
    exists code. split; [apply cache_hit_Some in Hc as [Hc _]; exact Hc |].
    split; [intros later; cbn [currency_step]; rewrite Hc; reflexivity |].
    intros after. rewrite currency_run_app.
    destruct (currency_run initial_currency es) as [s1 out1]. cbn [fst snd] in *.
    destruct (currency_run_ok after s1 Hok) as (_ & _ & _ & Hkeep).
    destruct (currency_run s1 after) as [s2 out2]. cbn [fst snd] in *.
    destruct Hkeep as [Hhit Hfetch]; [rewrite Hc; discriminate |].
    split; [| exact Hfetch].
    unfold cache_hit in Hhit. destruct (cachedCurrencyCode s2); [discriminate | contradiction].
  - intros later. cbn [currency_step].
    destruct (snd (currency_run initial_currency es)) as [| answer answers] eqn:Hout.
    + unfold cache_hit. rewrite (Hnone eq_refl).
      destruct (currencyResolver (fst (currency_run initial_currency es))); reflexivity.
    + assert (cache_hit (fst (currency_run initial_currency es)) <> None) as Hhit
        by (apply Hans; discriminate).
      destruct (cache_hit (fst (currency_run initial_currency es))); [reflexivity | contradiction].
Qed.

(** C1 (as stated, refuted): after a failed fetch the cache holds "USD",
    and the next call is answered from it: [getSettings] has still been
    called once. *)
Lemma failed_resolution_is_cached :
  cachedCurrencyCode
    (fst (currency_run initial_currency [call 1; settle Rejected; resume])) = Some "USD"
  /\ cachedCurrencyCode
       (fst (currency_run initial_currency [call 1; settle Rejected; resume])) <> None
  /\ settingsFetches
       (fst (currency_run initial_currency [call 1; settle Rejected; resume])) = 1%nat
  /\ currency_run initial_currency [call 1; settle Rejected; resume; call 2]
     = (settled_currency "USD", [(1%nat, "USD"); (2%nat, "USD")]).
Proof. repeat split; try reflexivity. discriminate. Qed.

(** Two callers share a fetch that fails, and a third calls later: all
    three receive "USD", which the cache holds. *)
Lemma currency_resolution_policy_witness :
  (forall r, In (settle r) [call 1; call 2; settle Rejected; resume; resume; call 3] ->
             r = Rejected)
  /\ Forall (fun answer => snd answer = "USD")
       (snd (currency_run initial_currency
               [call 1; call 2; settle Rejected; resume; resume; call 3]))
  /\ cachedCurrencyCode
       (fst (currency_run initial_currency
               [call 1; call 2; settle Rejected; resume; resume; call 3])) = Some "USD".
Proof.
  assert (forall r, In (settle r) [call 1; call 2; settle Rejected; resume; resume; call 3] ->
                    r = Rejected) as Hfail.
  { intros r Hin. repeat (destruct Hin as [Hin | Hin]; [try discriminate Hin |]).
    - injection Hin as <-. reflexivity.
    - destruct Hin. }
  split; [exact Hfail |].
  destruct (proj1 (currency_resolution_policy
                     [call 1; call 2; settle Rejected; resume; resume; call 3]
                     Rejected 0%nat []) Hfail) as [Hanswers Hcache].
  split; [exact Hanswers | apply Hcache; discriminate].
Defined.

(** A call that arrives after the failed fetch has settled and before its
    waiter has resumed finds the cache empty and no fetch in flight: it
    starts a second fetch, and the code of that one replaces the cached
    "USD". *)
Example call_before_resumption_fetches_again :
  let BRL := Fulfilled (VMap {[ "stripeCurrency" := VStr "brl" ]}) in
  snd (currency_run initial_currency
         [call 1; settle Rejected; call 2; resume; settle BRL; resume; call 3])
  = [(1%nat, "USD"); (2%nat, "BRL"); (3%nat, "BRL")]
  /\ settingsFetches
       (fst (currency_run initial_currency
               [call 1; settle Rejected; call 2; resume; settle BRL; resume; call 3]))
     = 2%nat.
Proof. split; vm_compute; reflexivity. Qed.

(** ** Activity feed merger *)

(** [Array.prototype.sort] with a comparator that subtracts keys. *)
Section SortFacts.
Context {A : Type} (cmp : A -> A -> option Z) (key : A -> Z) (P : A -> Prop).
Hypothesis cmp_key : forall a b, P a -> P b -> cmp a b = Some (key a - key b).

Lemma sort_insert_Permutation x l : Permutation (sort_insert cmp x l) (x :: l).
Proof.
  induction l as [| y rest IH]; cbn [sort_insert]; [reflexivity |].
  destruct (sorts_before (cmp x y)); [reflexivity |].
  rewrite IH. apply perm_swap.
Qed.

Lemma Array_sort_Permutation l : Permutation (Array_sort cmp l) l.
Proof.
  induction l as [| x rest IH]; cbn [Array_sort]; [reflexivity |].
  rewrite sort_insert_Permutation. constructor. exact IH.
Qed.

Lemma sort_insert_sorted x l :
  P x -> Forall P l ->
  StronglySorted (fun a b => key a <= key b) l ->
  StronglySorted (fun a b => key a <= key b) (sort_insert cmp x l).
Proof.
  intros Hx Hl Hs. induction Hs as [| y rest Hrest IH Hy]; cbn [sort_insert].
  - constructor; constructor.
  - apply Forall_cons_iff in Hl as [Py Prest].
    rewrite (cmp_key x y Hx Py). cbn [sorts_before].
    destruct (Z.leb_spec (key x - key y) 0) as [Hle | Hgt].
    + constructor; [constructor; assumption |].
      constructor; [lia |].
      eapply List.Forall_impl; [| exact Hy]. cbn. intros z Hz. lia.
    + constructor; [apply IH; assumption |].
      rewrite sort_insert_Permutation. constructor; [lia | exact Hy].
Qed.

Lemma Array_sort_sorted l :
  Forall P l -> StronglySorted (fun a b => key a <= key b) (Array_sort cmp l).
Proof.
  induction 1 as [| x rest Hx Hrest IH]; cbn [Array_sort]; [constructor |].
  apply sort_insert_sorted; [assumption | | assumption].
  rewrite Array_sort_Permutation. exact Hrest.
Qed.

End SortFacts.

(** An array that is in order as far as neighbours tell is handed back
    as it is, whatever the comparator says of other pairs. *)
Lemma Array_sort_in_order {A} (cmp : A -> A -> option Z) l :
  neighbours_in_order cmp l = true -> Array_sort cmp l = l.
Proof.
  induction l as [| x rest IH]; [reflexivity |].
  cbn [neighbours_in_order Array_sort]. intros Hn. apply andb_prop in Hn as [Hx Hrest].
  rewrite (IH Hrest). destruct rest as [| y rest']; [reflexivity |].
  cbn [sort_insert]. rewrite Hx. reflexivity.
Qed.

Lemma In_firstn_In {A} (x : A) n : forall l, In x (firstn n l) -> In x l.
Proof.
  induction n as [| n IH]; intros [| y l]; cbn [firstn]; try contradiction.
  intros [-> | Hin]; [left; reflexivity | right; apply IH; exact Hin].
Qed.

Lemma StronglySorted_firstn {A} (R : A -> A -> Prop) n l :
  StronglySorted R l -> StronglySorted R (firstn n l).
Proof.
  intros Hs. revert n. induction Hs as [| x rest Hrest IH Hx]; intros [| n]; cbn [firstn];
    try constructor.
  - apply IH.
  - rewrite List.Forall_forall in *. intros y Hy. apply Hx. eapply In_firstn_In; eauto.
Qed.

Section Feed.
Context `{Platform}.

Lemma by_timestamp_desc_key a b :
  valid_date (timestamp a) -> valid_date (timestamp b) ->
  by_timestamp_desc a b
  = Some (- time_of (timestamp a) - - time_of (timestamp b)).
Proof.
  intros [x Hx] [y Hy]. unfold by_timestamp_desc. rewrite Hx, Hy.
  cbn [getTime time_of]. f_equal. lia.
Qed.

Lemma StronglySorted_firstn_skipn {A} (R : A -> A -> Prop) l :
  StronglySorted R l ->
  forall n x y, In x (firstn n l) -> In y (skipn n l) -> R x y.
Proof.
  induction 1 as [| z rest Hrest IH Hz]; intros [| n] x y; cbn [firstn skipn];
    try contradiction.
  intros [<- | Hx] Hy.
  - rewrite List.Forall_forall in Hz. apply Hz.
    rewrite <- (firstn_skipn n rest). apply in_or_app. right. exact Hy.
  - apply (IH n); assumption.
Qed.

Lemma merge_activity_facts maxItems o p g u :
  List.length (merge_activity maxItems o p g u)
  = Nat.min maxItems (List.length (o ++ p ++ g ++ u)%list)
  /\ (forall x, In x (merge_activity maxItems o p g u) -> In x (o ++ p ++ g ++ u)%list)
  /\ (Forall (fun i => valid_date (timestamp i)) (o ++ p ++ g ++ u)%list ->
      StronglySorted newer_first (merge_activity maxItems o p g u)
      /\ exists dropped,
           Permutation (merge_activity maxItems o p g u ++ dropped) (o ++ p ++ g ++ u)%list
           /\ forall x y,
                In x (merge_activity maxItems o p g u) -> In y dropped -> newer_first x y).
Proof.
  unfold merge_activity, slice0. split; [| split].
  - rewrite length_firstn.
    rewrite (Permutation_length (Array_sort_Permutation by_timestamp_desc _)). reflexivity.
  - intros x Hin. apply In_firstn_In in Hin.
    eapply Permutation_in; [apply Array_sort_Permutation | exact Hin].
  - intros Hvalid.
    pose proof (Array_sort_sorted by_timestamp_desc (fun i => - time_of (timestamp i))
                  (fun i => valid_date (timestamp i)) by_timestamp_desc_key _ Hvalid) as Hs.
    assert (StronglySorted newer_first
              (Array_sort by_timestamp_desc (o ++ p ++ g ++ u)%list)) as Hsorted.
    { clear Hvalid. induction Hs as [| x rest Hrest IH Hx]; constructor; [exact IH |].
      eapply List.Forall_impl; [| exact Hx]. unfold newer_first. cbn. intros z Hz. lia. }
    split; [apply StronglySorted_firstn; exact Hsorted |].
    exists (skipn maxItems (Array_sort by_timestamp_desc (o ++ p ++ g ++ u)%list)).
    split; [rewrite firstn_skipn; apply Array_sort_Permutation |].
    intros x y. apply StronglySorted_firstn_skipn. exact Hsorted.
Qed.


End Feed.



(** With only the ordered query on the orders' [updatedAt] turned down, the
    secondary query on [createdAt] supplies the order and all four kinds
    are merged. *)
Example rejected_primary_query_is_absorbed :
  exists items,
    @getRecentActivity utc_platform activity_store_no_index (fun _ _ => sample_now) "USD" 10
    = Fulfilled items
    /\ map item_type items = [gallery; product; order; user].
Proof. eexists. split; vm_compute; reflexivity. Qed.

(** ** Resilient aggregator: the two paths *)

Lemma Timestamp_toDate_milliseconds s n :
  -62135596800 <= s <= 253402300799 -> 0 <= n < 1000000000 -> whole_milliseconds n ->
  Timestamp_toDate s n = DateOf ((s * 1000000000 + n) / 1000000).
Proof.
  intros Hs Hn Hms. unfold whole_milliseconds in Hms. unfold Timestamp_toDate, TimeClip.
  assert (s * 1000000000 + n = (s * 1000 + n / 1000000) * 1000000) as ->
    by (Z.div_mod_to_equations; lia).
  rewrite Z.quot_mul, Z.div_mul by lia.
  destruct (Z.leb_spec (Z.abs (s * 1000 + n / 1000000)) 8640000000000000) as [_ | Hbig];
    [reflexivity |].
  exfalso. revert Hbig. Z.div_mod_to_equations. lia.
Qed.

Lemma millisecond_timestamp_has_field (d : Document) f :
  millisecond_timestamp (field (doc_data d) f) -> has_field f d = true.
Proof.
  intros (s & n & Hf & _). unfold field, has_field in *.
  destruct (doc_data d !! f); [reflexivity | discriminate Hf].
Qed.

Lemma filter_all {A} (p : A -> bool) l :
  Forall (fun x => p x = true) l -> List.filter p l = l.
Proof.
  induction 1 as [| x l Hx _ IH]; [reflexivity |].
  cbn [List.filter]. rewrite Hx, IH. reflexivity.
Qed.

Lemma Permutation_filter_bool {A} (p : A -> bool) l l' :
  Permutation l l' -> Permutation (List.filter p l) (List.filter p l').
Proof.
  induction 1 as [| x l l' _ IH | x y l | l l' l'' _ IH1 _ IH2]; cbn [List.filter].
  - constructor.
  - destruct (p x); [constructor |]; exact IH.
  - destruct (p x), (p y); try reflexivity. apply perm_swap.
  - etransitivity; eassumption.
Qed.

Lemma count_if_Permutation {A} (p : A -> bool) l l' :
  Permutation l l' -> count_if p l = count_if p l'.
Proof.
  intros Hp. unfold count_if. f_equal.
  apply Permutation_length, Permutation_filter_bool, Hp.
Qed.

Lemma count_if_filter {A} (p q : A -> bool) l :
  count_if p (List.filter q l) = count_if (fun x => q x && p x) l.
Proof.
  unfold count_if. f_equal. f_equal.
  induction l as [| x l IH]; [reflexivity |]. cbn [List.filter].
  destruct (q x); cbn [andb List.filter]; [destruct (p x) |]; rewrite IH; reflexivity.
Qed.

(** The snapshot of the fallback query: the records that hold the field,
    in some order. *)
Lemma order_by_Permutation f desc docs :
  Permutation (order_by f desc docs) (List.filter (has_field f) docs).
Proof.
  unfold order_by. destruct desc; [rewrite <- Permutation_rev |]; apply Array_sort_Permutation.
Qed.

Lemma run_query_orderBy docs f desc : run_query docs [orderBy f desc] = order_by f desc docs.
Proof.
  unfold run_query, matching_docs. cbn [first_orderBy first_limit].
  rewrite filter_all; [reflexivity |]. apply List.Forall_forall. intros d _. reflexivity.
Qed.

Section Paths.
Context `{Platform}.

Lemma millisecond_timestamp_in_range (d : Document) f range now :
  millisecond_timestamp (field (doc_data d) f) ->
  in_range (extractTimestamp now (field (doc_data d) f)) range
  = matches_all (buildRangeConstraints range f) d.
Proof.
  intros (s & n & Hf & Hs & Hn & Hms). rewrite Hf.
  unfold extractTimestamp. cbn [truthy negb].
  rewrite Timestamp_toDate_milliseconds by assumption.
  unfold buildRangeConstraints, matches_all. cbn [forallb matches in_range].
  rewrite (stored_timestamp_ge s n _ _ f Hf Hn), (stored_timestamp_lt s n _ _ f Hf Hn).
  rewrite andb_true_r. reflexivity.
Qed.

(** The scan of [aggregateOrders] over records dated by timestamps of
    whole milliseconds counts the records the range filter of the store
    keeps, and adds up their totals in the order it meets them. *)
Lemma aggregateOrders_loop_count range clock records :
  Forall (fun d => millisecond_timestamp (field (doc_data d) "createdAt")) records ->
  forall i countValue (revenueValue : float),
    fst (aggregateOrders_loop range clock i records (countValue, revenueValue))
    = countValue + count_of (matching_docs records (buildRangeConstraints range "createdAt")).
Proof.
  induction 1 as [| d rest Hts _ IH]; intros i c r.
  - unfold matching_docs, count_of.
    cbn [aggregateOrders_loop List.filter List.length Z.of_nat fst]. lia.
  - cbn [aggregateOrders_loop]. unfold aggregateOrders_step.
    rewrite (millisecond_timestamp_in_range d "createdAt" range (clock i) Hts).
    unfold matching_docs. cbn [List.filter].
    destruct (matches_all (buildRangeConstraints range "createdAt") d) eqn:Hm.
    + rewrite IH. unfold matching_docs, count_of. cbn [List.length]. lia.
    + apply IH.
Qed.

Lemma aggregateOrders_loop_sum range clock records :
  Forall (fun d => millisecond_timestamp (field (doc_data d) "createdAt")) records ->
  Forall (fun d => stored_number (field (doc_data d) "total")) records ->
  forall i countValue (revenueValue : float),
    snd (aggregateOrders_loop range clock i records (countValue, revenueValue))
    = fold_left (sum_step "total")
        (matching_docs records (buildRangeConstraints range "createdAt")) revenueValue.
Proof.
  intros Hts Htotal. induction records as [| d rest IH]; intros i c r; [reflexivity |].
  inversion Hts as [| ? ? Hd Hts']; inversion Htotal as [| ? ? Htot Htotal']; subst.
  destruct Htot as (x & Hx & Hnan).
  cbn [aggregateOrders_loop]. unfold aggregateOrders_step.
  rewrite (millisecond_timestamp_in_range d "createdAt" range (clock i) Hd).
  unfold matching_docs. cbn [List.filter].
  destruct (matches_all (buildRangeConstraints range "createdAt") d) eqn:Hm.
  - rewrite Hx, Hnan. cbn [negb]. rewrite (IH Hts' Htotal'). unfold matching_docs.
    cbn [fold_left]. rewrite (sum_step_number "total" r d x Hx). reflexivity.
  - apply (IH Hts' Htotal').
Qed.

Lemma countDocuments_loop_count timestampField range options clock records :
  Forall (fun d => millisecond_timestamp (field (doc_data d) timestampField)) records ->
  Forall (fun d => passes_predicate options d = passes_filters options d) records ->
  forall i countValue,
    countDocuments_loop timestampField range options clock i records countValue
    = countValue
      + count_of (matching_docs records (countDocuments_constraints timestampField range options)).
Proof.
  intros Hts Hf. induction records as [| d rest IH]; intros i c.
  - unfold matching_docs, count_of. cbn [countDocuments_loop List.filter List.length Z.of_nat]. lia.
  - inversion Hts as [| ? ? Hd Hts']; inversion Hf as [| ? ? Hp Hf']; subst.
    cbn [countDocuments_loop]. rewrite (IH Hts' Hf').
    unfold countDocuments_step, matching_docs, countDocuments_constraints. cbn [List.filter].
    unfold matches_all at 2. rewrite forallb_app.
    fold (matches_all (buildRangeConstraints range timestampField) d).
    fold (matches_all (option_or (additionalFilters options) []) d).
    fold (passes_filters options d). rewrite <- Hp. unfold passes_predicate.
    rewrite <- (millisecond_timestamp_in_range d timestampField range (clock i) Hd).
    destruct Hd as (s & n & Hfield & _). rewrite Hfield. cbn [js_nullish].
    destruct (filterPredicate options) as [p |].
    + destruct (p (doc_data d)); cbn [negb andb].
      * rewrite andb_true_r.
        destruct (in_range _ range); unfold count_of; cbn [List.length]; lia.
      * rewrite andb_false_r. reflexivity.
    + rewrite andb_true_r.
      destruct (in_range _ range); unfold count_of; cbn [List.length]; lia.
Qed.

Lemma count_of_matching_Permutation l l' cs :
  Permutation l l' -> count_of (matching_docs l cs) = count_of (matching_docs l' cs).
Proof.
  intros Hp. unfold count_of, matching_docs. f_equal.
  apply Permutation_length, Permutation_filter_bool, Hp.
Qed.


End Paths.


(** The same for [aggregateOrders] and an order whose [createdAt] was stored
    as a number of milliseconds: the range filter of the store compares
    timestamps with timestamps only, while the scan accepts the number. *)
Example fallback_orders_differ_from_server_orders :
  option_map agg_count
    (match @aggregateOrders utc_platform
             (serving (in_collection "orders" [order_dated_by_number; order_100]))
             (fun _ => sample_now) sample_range with
     | Fulfilled a => Some a
     | Rejected => None
     end) = Some 1
  /\ option_map agg_count
       (match @aggregateOrders utc_platform
                (scan_only (in_collection "orders" [order_dated_by_number; order_100]))
                (fun _ => sample_now) sample_range with
        | Fulfilled a => Some a
        | Rejected => None
        end) = Some 2.
Proof. split; vm_compute; reflexivity. Qed.

(** The scan adds the totals in the order of its snapshot, the newest
    order first.  Added in the order of the documents, the same three totals
    round to another cent. *)
Example scan_sum_depends_on_order :
  option_map agg_revenue
    (match @aggregateOrders utc_platform
             (scan_only (in_collection "orders" orders_of_three_totals))
             (fun _ => sample_now) sample_range with
     | Fulfilled a => Some a
     | Rejected => None
     end) = Some 523.94%float
  /\ round2 (sum_of "total" orders_of_three_totals) = 523.95%float.
Proof. split; vm_compute; reflexivity. Qed.


(** ** Timestamps of records *)

Section Defaults.
Context `{Platform}.

Lemma extractTimestamp_dated_now now v : dated_now v -> extractTimestamp now v = DateOf now.
Proof.
  intros [[-> | ->] | [(s & -> & Hs) | Hu]]; try reflexivity.
  - unfold extractTimestamp. rewrite Hs. destruct (negb (truthy (VStr s))); reflexivity.
  - unfold extractTimestamp.
    destruct v as [| | [|] | | | | fields | |]; cbn in Hu; try contradiction; cbn [truthy negb].
    + reflexivity.
    + rewrite Hu. reflexivity.
    + reflexivity.
    + reflexivity.
Qed.

(** The scans over records that are all dated at the clock reading, when
    every reading is inside the range, or every reading outside. *)
Lemma aggregateOrders_loop_dated_now range clock inside records :
  Forall (fun d => dated_now (field (doc_data d) "createdAt")) records ->
  (forall i, in_range (DateOf (clock i)) range = inside) ->
  forall i countValue (revenueValue : float),
    fst (aggregateOrders_loop range clock i records (countValue, revenueValue))
    = countValue + (if inside then Z.of_nat (List.length records) else 0).
Proof.
  intros Hnow Hclock. induction Hnow as [| d rest Hd _ IH]; intros i c r.
  - cbn [aggregateOrders_loop fst List.length Z.of_nat]. destruct inside; lia.
  - cbn [aggregateOrders_loop]. unfold aggregateOrders_step.
    rewrite (extractTimestamp_dated_now _ _ Hd), (Hclock i).
    destruct inside; rewrite IH; cbn [List.length]; lia.
Qed.

Lemma countDocuments_loop_dated_now timestampField range options clock inside records :
  Forall (fun d => passes_predicate options d = true ->
                   dated_now (scan_value timestampField options d)) records ->
  (forall i, in_range (DateOf (clock i)) range = inside) ->
  forall i countValue,
    countDocuments_loop timestampField range options clock i records countValue
    = countValue + (if inside then count_if (passes_predicate options) records else 0).
Proof.
  intros Hnow Hclock. unfold count_if.
  induction Hnow as [| d rest Hd _ IH]; intros i c.
  - cbn [countDocuments_loop List.filter List.length Z.of_nat]. destruct inside; lia.
  - cbn [countDocuments_loop List.filter]. rewrite IH.
    unfold countDocuments_step. fold (scan_value timestampField options d).
    unfold passes_predicate in *.
    destruct (filterPredicate options) as [p |].
    + destruct (p (doc_data d)); cbn [negb].
      * rewrite (extractTimestamp_dated_now _ _ (Hd eq_refl)), (Hclock i).
        destruct inside; cbn [List.length]; lia.
      * destruct inside; lia.
    + rewrite (extractTimestamp_dated_now _ _ (Hd eq_refl)), (Hclock i).
      destruct inside; cbn [List.length]; lia.
Qed.


End Defaults.



(** An order whose [createdAt] is [null] is returned by the fallback query,
    dated at the clock reading, and counted. *)
Example null_dated_order_is_counted_now :
  @aggregateOrders utc_platform (scan_only (in_collection "orders" [null_dated_order]))
    (fun _ => sample_now - 1000) sample_range
  = Fulfilled {| agg_count := 1; agg_revenue := 100%float; agg_average := 100%float |}.
Proof. vm_compute. reflexivity. Qed.

(** ** Trend bucketizer: keys and instants *)

Ltac digit_cases d :=
  let Hc := fresh "Hc" in
  assert (d = 0 \/ d = 1 \/ d = 2 \/ d = 3 \/ d = 4 \/ d = 5 \/ d = 6 \/ d = 7
          \/ d = 8 \/ d = 9) as Hc by lia;
  repeat destruct Hc as [-> | Hc]; try subst d.

Lemma digit_char_digit d :
  0 <= d <= 9 -> is_digit (digit_char d) = true /\ digit_value (digit_char d) = d.
Proof. intros Hd. digit_cases d; split; reflexivity. Qed.

Lemma string_app_assoc (a b c : string) : ((a ++ b) ++ c = a ++ (b ++ c))%string.
Proof. induction a as [| x a IH]; cbn [String.append String.length]; [reflexivity | rewrite IH; reflexivity]. Qed.

Lemma string_length_app (a b : string) :
  String.length (a ++ b) = (String.length a + String.length b)%nat.
Proof. induction a as [| x a IH]; cbn [String.append String.length]; [reflexivity | rewrite IH; reflexivity]. Qed.

Lemma all_digits_app a b : all_digits (a ++ b) = all_digits a && all_digits b.
Proof.
  induction a as [| x a IH]; cbn [String.append all_digits]; [reflexivity |].
  rewrite IH, andb_assoc. reflexivity.
Qed.

(** The decimal digits of [n] read back as [n]. *)
Lemma digits_onto_spec fuel : forall n acc,
  0 <= n < 2 ^ (Z.of_nat fuel + 1) ->
  exists ds,
    digits_onto fuel n acc = (ds ++ acc)%string
    /\ ds <> ""
    /\ all_digits ds = true
    /\ forall a seen rest,
        leading_digits (ds ++ rest) a seen
        = leading_digits rest (a * 10 ^ Z.of_nat (String.length ds) + n) true.
Proof.
  assert (forall n acc, 0 <= n < 10 ->
            exists ds,
              String (digit_char (n mod 10)) acc = (ds ++ acc)%string
              /\ ds <> ""
              /\ all_digits ds = true
              /\ forall a seen rest,
                  leading_digits (ds ++ rest) a seen
                  = leading_digits rest (a * 10 ^ Z.of_nat (String.length ds) + n) true) as Hone.
  { intros n acc Hn. exists (String (digit_char n) "").
    rewrite Z.mod_small by lia. destruct (digit_char_digit n) as [Hd Hv]; [lia |].
    repeat split.
    - discriminate.
    - cbn [all_digits]. rewrite Hd. reflexivity.
    - intros a seen rest. cbn [String.append leading_digits String.length]. rewrite Hd, Hv.
      f_equal. change (10 ^ Z.of_nat 1) with 10. lia. }
  induction fuel as [| fuel IH]; intros n acc Hn.
  - cbn [digits_onto]. apply Hone. change (2 ^ (Z.of_nat 0 + 1)) with 2 in Hn. lia.
  - cbn [digits_onto]. destruct (Z.ltb_spec n 10) as [Hsmall | Hbig]; [apply Hone; lia |].
    destruct (IH (n / 10) (String (digit_char (n mod 10)) acc)) as (ds & Heq & Hne & Hall & Hval).
    { split; [apply Z.div_pos; lia |].
      apply Z.div_lt_upper_bound; [lia |].
      replace (Z.of_nat (S fuel) + 1) with (Z.of_nat fuel + 1 + 1) in Hn by lia.
      rewrite Z.pow_add_r in Hn by lia. change (2 ^ 1) with 2 in Hn. lia. }
    exists (ds ++ String (digit_char (n mod 10)) "")%string.
    destruct (digit_char_digit (n mod 10)) as [Hd Hv].
    { pose proof (Z.mod_pos_bound n 10). lia. }
    repeat split.
    + rewrite Heq, string_app_assoc. reflexivity.
    + destruct ds; [contradiction | discriminate].
    + rewrite all_digits_app, Hall. cbn [all_digits]. rewrite Hd. reflexivity.
    + intros a seen rest. rewrite string_app_assoc, Hval.
      cbn [String.append leading_digits]. rewrite Hd, Hv.
      f_equal. rewrite string_length_app. cbn [String.length].
      rewrite Nat2Z.inj_add, Z.pow_add_r by lia. change (10 ^ Z.of_nat 1) with 10.
      pose proof (Z.div_mod n 10). lia.
Qed.

Lemma digits_spec n :
  0 <= n ->
  digits n <> "" /\ all_digits (digits n) = true
  /\ forall seen, leading_digits (digits n) 0 seen = (n, true).
Proof.
  intros Hn. unfold digits.
  destruct (digits_onto_spec (Z.to_nat (Z.log2 n)) n "") as (ds & Heq & Hne & Hall & Hval).
  { split; [exact Hn |]. rewrite Z2Nat.id by apply Z.log2_nonneg.
    destruct (Z.eq_dec n 0) as [-> | Hpos]; [reflexivity |].
    apply Z.log2_spec. lia. }
  assert (forall s : string, (s ++ "")%string = s) as Hnil.
  { induction s as [| c s IHs]; cbn [String.append]; [reflexivity | rewrite IHs; reflexivity]. }
  rewrite Heq, Hnil. repeat split; try assumption.
  intros seen. specialize (Hval 0 seen ""). rewrite Hnil in Hval. rewrite Hval. reflexivity.
Qed.

Lemma leading_digits_seen s : forall a, snd (leading_digits s a true) = true.
Proof.
  induction s as [| c s IH]; intros a; cbn [leading_digits]; [reflexivity |].
  destruct (is_digit c); [apply IH | reflexivity].
Qed.

Ltac ascii_digit c H :=
  destruct c as [[] [] [] [] [] [] [] []]; try discriminate H.

Lemma parse_magnitude_digits c r :
  is_digit c = true -> all_digits r = true ->
  parse_magnitude (String c r) = Some (fst (leading_digits (String c r) 0 false)).
Proof.
  intros Hc Hr.
  assert (parse_magnitude (String c r)
          = let '(v, seen) := leading_digits (String c r) 0 false in
            if seen then Some v else None) as ->.
  { unfold parse_magnitude. ascii_digit c Hc; try reflexivity.
    destruct r as [| x rest]; [reflexivity |].
    cbn [all_digits] in Hr. apply andb_prop in Hr as [Hx _].
    ascii_digit x Hx; reflexivity. }
  cbn [leading_digits]. rewrite Hc.
  pose proof (leading_digits_seen r (10 * 0 + digit_value c)) as Hseen.
  destruct (leading_digits r (10 * 0 + digit_value c) true) as [v seen].
  cbn [snd] in Hseen. subst seen. reflexivity.
Qed.

Lemma parseInt_digits s :
  s <> "" -> all_digits s = true ->
  parseInt s = Some (fst (leading_digits s 0 false)).
Proof.
  intros Hne Hall. destruct s as [| c r]; [contradiction |].
  cbn [all_digits] in Hall. apply andb_prop in Hall as [Hc Hr].
  rewrite <- (parse_magnitude_digits c r Hc Hr).
  unfold parseInt. ascii_digit c Hc; reflexivity.
Qed.

Lemma parseInt_digits_of n : 0 <= n -> parseInt (digits n) = Some n.
Proof.
  intros Hn. destruct (digits_spec n Hn) as (Hne & Hall & Hval).
  rewrite (parseInt_digits _ Hne Hall), Hval. reflexivity.
Qed.

Lemma string_of_Z_nonneg n : 0 <= n -> string_of_Z n = digits n.
Proof. intros Hn. unfold string_of_Z. destruct (Z.ltb_spec n 0); [lia | reflexivity]. Qed.

Lemma leading_zeros k : forall s,
  leading_digits (repeat_char k "0" ++ s) 0 false
  = match k with O => leading_digits s 0 false | S _ => leading_digits s 0 true end.
Proof.
  induction k as [| k IH]; intros s; [reflexivity |].
  cbn [repeat_char String.append leading_digits].
  change (is_digit "0") with true. cbv iota.
  change (10 * 0 + digit_value "0") with 0.
  destruct k as [| k']; [reflexivity |].
  specialize (IH s). cbn [repeat_char String.append leading_digits] in *.
  change (is_digit "0") with true in *. cbv iota in *.
  change (10 * 0 + digit_value "0") with 0 in *. exact IH.
Qed.

Lemma all_digits_repeat_zero k : all_digits (repeat_char k "0") = true.
Proof. induction k as [| k IH]; [reflexivity | exact IH]. Qed.

Lemma pad2_spec n :
  0 <= n ->
  pad2 n <> "" /\ all_digits (pad2 n) = true /\ parseInt (pad2 n) = Some n.
Proof.
  intros Hn. destruct (digits_spec n Hn) as (Hne & Hall & Hval).
  assert (pad2 n <> "" /\ all_digits (pad2 n) = true) as [Hne2 Hall2].
  { unfold pad2, padStart. rewrite string_of_Z_nonneg by exact Hn. split.
    - destruct (repeat_char _ _); [exact Hne | discriminate].
    - rewrite all_digits_app, all_digits_repeat_zero, Hall. reflexivity. }
  repeat split; try assumption.
  rewrite (parseInt_digits _ Hne2 Hall2).
  unfold pad2, padStart. rewrite string_of_Z_nonneg by exact Hn.
  rewrite leading_zeros. destruct (2 - String.length (digits n))%nat; rewrite Hval; reflexivity.
Qed.

Lemma digit_not_delimiter c : is_digit c = true -> is_key_delimiter c = false.
Proof. intros Hc. ascii_digit c Hc; reflexivity. Qed.

Lemma all_digits_no_delimiter s : all_digits s = true -> no_delimiter s = true.
Proof.
  induction s as [| c s IH]; cbn [all_digits no_delimiter]; [reflexivity |].
  intros Hs. apply andb_prop in Hs as [Hc Hr].
  rewrite (digit_not_delimiter c Hc), (IH Hr). reflexivity.
Qed.

Lemma split_on_whole s : no_delimiter s = true -> split_on is_key_delimiter s = [s].
Proof.
  induction s as [| c s IH]; cbn [no_delimiter split_on]; [reflexivity |].
  intros Hs. apply andb_prop in Hs as [Hc Hr].
  apply negb_true_iff in Hc. rewrite Hc, (IH Hr). reflexivity.
Qed.

Lemma split_on_first s c rest :
  no_delimiter s = true -> is_key_delimiter c = true ->
  split_on is_key_delimiter (s ++ String c rest) = s :: split_on is_key_delimiter rest.
Proof.
  intros Hs Hd. induction s as [| x s IH]; cbn [String.append no_delimiter split_on] in *.
  - rewrite Hd. reflexivity.
  - apply andb_prop in Hs as [Hx Hr]. apply negb_true_iff in Hx.
    rewrite Hx, (IH Hr). reflexivity.
Qed.

Section Keys.
Context `{Platform}.

Lemma HourFromTime_range t : 0 <= HourFromTime t < 24.
Proof. unfold HourFromTime. apply Z.mod_pos_bound. lia. Qed.

Lemma key_parts_day ys ms ds :
  all_digits ys = true -> all_digits ms = true -> all_digits ds = true ->
  split_on is_key_delimiter (ys ++ "-" ++ ms ++ "-" ++ ds) = [ys; ms; ds].
Proof.
  intros Hy Hm Hd.
  change (ys ++ "-" ++ ms ++ "-" ++ ds)%string
    with (ys ++ String "-" (ms ++ String "-" ds))%string.
  rewrite split_on_first by (auto using all_digits_no_delimiter).
  rewrite split_on_first by (auto using all_digits_no_delimiter).
  rewrite split_on_whole by (auto using all_digits_no_delimiter). reflexivity.
Qed.

Lemma key_parts_month ys ms :
  all_digits ys = true -> all_digits ms = true ->
  split_on is_key_delimiter (ys ++ "-" ++ ms) = [ys; ms].
Proof.
  intros Hy Hm.
  change (ys ++ "-" ++ ms)%string with (ys ++ String "-" ms)%string.
  rewrite split_on_first by (auto using all_digits_no_delimiter).
  rewrite split_on_whole by (auto using all_digits_no_delimiter). reflexivity.
Qed.

Lemma key_parts_hour ys ms ds hs :
  all_digits ys = true -> all_digits ms = true -> all_digits ds = true ->
  all_digits hs = true ->
  split_on is_key_delimiter (ys ++ "-" ++ ms ++ "-" ++ ds ++ " " ++ hs ++ ":00")
  = [ys; ms; ds; hs; "00"].
Proof.
  intros Hy Hm Hd Hh.
  change (ys ++ "-" ++ ms ++ "-" ++ ds ++ " " ++ hs ++ ":00")%string
    with (ys ++ String "-" (ms ++ String "-" (ds ++ String " " (hs ++ String ":" "00"))))%string.
  rewrite !split_on_first by (auto using all_digits_no_delimiter).
  reflexivity.
Qed.

Lemma parseDateKey_getDateKey period t :
  100 <= getFullYear t ->
  parseDateKey (getDateKey (DateOf t) period) period = TimeClip (bucket_start period t).
Proof.
  intros Hyear.
  pose proof (MonthFromTime_range (LocalTime t)) as Hm.
  pose proof (DateFromTime_range (LocalTime t)) as Hd.
  pose proof (HourFromTime_range (LocalTime t)) as Hh.
  destruct (digits_spec (getFullYear t)) as (Yne & Yall & _); [lia |].
  pose proof (parseInt_digits_of (getFullYear t)) as Yval.
  destruct (pad2_spec (getMonth t + 1)) as (Mne & Mall & Mval); [unfold getMonth; lia |].
  destruct (pad2_spec (getDate t)) as (Dne & Dall & Dval); [unfold getDate; lia |].
  destruct (pad2_spec (getHours t)) as (Hne & Hall & Hval); [unfold getHours; lia |].
  assert (Date_of_fields (getFullYear t) (getMonth t) (getDate t) (getHours t)
          = UTC (MakeDate (Day (LocalTime t)) (MakeTime (HourFromTime (LocalTime t)) 0 0 0))) as Ehour.
  { unfold Date_of_fields. destruct (Z.leb_spec (getFullYear t) 99); [lia |].
    rewrite andb_false_r. unfold getFullYear, getMonth, getDate, getHours.
    rewrite MakeDay_of_time. reflexivity. }
  assert (Date_of_fields (getFullYear t) (getMonth t) (getDate t) 0
          = UTC (MakeDate (Day (LocalTime t)) 0)) as Eday.
  { unfold Date_of_fields. destruct (Z.leb_spec (getFullYear t) 99); [lia |].
    rewrite andb_false_r. unfold getFullYear, getMonth, getDate.
    rewrite MakeDay_of_time. reflexivity. }
  assert (Date_of_fields (getFullYear t) (getMonth t) 1 0
          = UTC (MakeDate (MakeDay (YearFromTime (LocalTime t)) (MonthFromTime (LocalTime t)) 1) 0))
    as Emonth.
  { unfold Date_of_fields. destruct (Z.leb_spec (getFullYear t) 99); [lia |].
    rewrite andb_false_r. reflexivity. }
  unfold parseDateKey, getDateKey, bucket_start.
  rewrite string_of_Z_nonneg by lia.
  destruct (String.eqb period "today") eqn:Etoday.
  - rewrite key_parts_hour by assumption. cbn [part nth_error parseInt_opt].
    rewrite Yval, Mval, Dval, Hval by lia. cbn [option_map new_Date].
    replace (getMonth t + 1 - 1) with (getMonth t) by lia. rewrite Ehour. reflexivity.
  - destruct (String.eqb period "week" || String.eqb period "month") eqn:Eday'.
    + rewrite key_parts_day by assumption. cbn [part nth_error parseInt_opt].
      rewrite Yval, Mval, Dval by lia. cbn [option_map new_Date].
      replace (getMonth t + 1 - 1) with (getMonth t) by lia. rewrite Eday.
      destruct (String.eqb period "year") eqn:Eyear; [| reflexivity].
      apply String.eqb_eq in Eyear. subst period. discriminate Eday'.
    + destruct (String.eqb period "year") eqn:Eyear.
      * rewrite key_parts_month by assumption. cbn [part nth_error parseInt_opt].
        rewrite Yval, Mval by lia. cbn [option_map new_Date].
        replace (getMonth t + 1 - 1) with (getMonth t) by lia. rewrite Emonth. reflexivity.
      * rewrite key_parts_day by assumption. cbn [part nth_error parseInt_opt].
        rewrite Yval, Mval by lia. cbn [option_map].
        destruct (String.eqb (pad2 (getDate t)) "") eqn:Eempty.
        { apply String.eqb_eq in Eempty. contradiction. }
        rewrite Dval. cbn [new_Date]. 
        replace (getMonth t + 1 - 1) with (getMonth t) by lia. rewrite Eday. reflexivity.
Qed.
End Keys.

Lemma DayFromYear_le y1 y2 : y1 <= y2 -> DayFromYear y1 <= DayFromYear y2.
Proof. intros Hle. unfold DayFromYear. Z.div_mod_to_equations. lia. Qed.

Lemma monthStart_range l m : 0 <= l <= 1 -> 0 <= m <= 11 -> 0 <= monthStart l m <= 335.
Proof. intros Hl Hm. month_cases m; cbn [monthStart]; lia. Qed.

Lemma monthStart_inj l m1 m2 :
  0 <= l <= 1 -> 0 <= m1 <= 11 -> 0 <= m2 <= 11 ->
  monthStart l m1 = monthStart l m2 -> m1 = m2.
Proof.
  intros Hl H1 H2. month_cases m1; month_cases m2; cbn [monthStart]; lia.
Qed.

Lemma MakeDay_first y m :
  0 <= m <= 11 -> MakeDay y m 1 = DayFromYear y + monthStart (leapDay y) m.
Proof.
  intros Hm. unfold MakeDay, leapDay.
  rewrite Z.div_small, Z.mod_small, Z.add_0_r by lia. lia.
Qed.

Lemma MakeDay_first_inj y1 m1 y2 m2 :
  0 <= m1 <= 11 -> 0 <= m2 <= 11 ->
  MakeDay y1 m1 1 = MakeDay y2 m2 1 -> y1 = y2 /\ m1 = m2.
Proof.
  intros H1 H2. rewrite !MakeDay_first by assumption. intros Heq.
  pose proof (monthStart_range (leapDay y1) m1 (leapDay_range y1) H1).
  pose proof (monthStart_range (leapDay y2) m2 (leapDay_range y2) H2).
  pose proof (DayFromYear_succ y1). pose proof (DayFromYear_succ y2).
  pose proof (leapDay_range y1). pose proof (leapDay_range y2).
  assert (y1 = y2) as ->.
  { destruct (Z.lt_trichotomy y1 y2) as [Hlt | [Heq' | Hgt]]; [| exact Heq' |].
    - pose proof (DayFromYear_le (y1 + 1) y2). lia.
    - pose proof (DayFromYear_le (y2 + 1) y1). lia. }
  split; [reflexivity |].
  apply (monthStart_inj (leapDay y2)); try assumption. lia.
Qed.

Lemma year_from_1968 t : - 368 * msPerDay <= t -> 1968 <= YearFromTime t.
Proof.
  intros Ht. unfold YearFromTime.
  pose proof (YearFromDay_spec (Day t)) as [_ Hup].
  assert (-368 <= Day t) as Hday.
  { unfold Day, msPerDay in *. Z.div_mod_to_equations. lia. }
  destruct (Z.le_gt_cases 1968 (YearFromDay (Day t))) as [Hok | Hlow]; [exact Hok |].
  pose proof (DayFromYear_le (YearFromDay (Day t) + 1) 1968).
  change (DayFromYear 1968) with (-731) in *. lia.
Qed.

Section Buckets.
Context `{Platform}.

Lemma same_day_same_fields t1 t2 :
  Day (LocalTime t1) = Day (LocalTime t2) ->
  getFullYear t1 = getFullYear t2 /\ getMonth t1 = getMonth t2 /\ getDate t1 = getDate t2.
Proof.
  intros Hday.
  assert (getFullYear t1 = getFullYear t2) as Hy.
  { unfold getFullYear, YearFromTime. rewrite Hday. reflexivity. }
  assert (getMonth t1 = getMonth t2) as Hm.
  { unfold getFullYear, getMonth, MonthFromTime, DayWithinYear, InLeapYear, YearFromTime in *.
    rewrite Hday. reflexivity. }
  repeat split; try assumption.
  unfold getDate, DateFromTime.
  unfold getMonth in Hm. rewrite Hm.
  unfold DayWithinYear, InLeapYear, YearFromTime. rewrite Hday. reflexivity.
Qed.

Lemma bucket_start_key period t1 t2 :
  bucket_start period t1 = bucket_start period t2 ->
  getDateKey (DateOf t1) period = getDateKey (DateOf t2) period.
Proof.
  unfold bucket_start, getDateKey.
  destruct (String.eqb period "today") eqn:Etoday.
  - intros Heq.
    pose proof (HourFromTime_range (LocalTime t1)). pose proof (HourFromTime_range (LocalTime t2)).
    assert (Day (LocalTime t1) = Day (LocalTime t2)
            /\ HourFromTime (LocalTime t1) = HourFromTime (LocalTime t2)) as [Hday Hhour].
    { unfold UTC, MakeDate, MakeTime, msPerDay, msPerHour in Heq. lia. }
    destruct (same_day_same_fields t1 t2 Hday) as (-> & -> & ->).
    unfold getHours. rewrite Hhour. reflexivity.
  - destruct (String.eqb period "year") eqn:Eyear.
    + intros Heq. apply String.eqb_eq in Eyear. subst period. cbn [String.eqb orb].
      cbn -[string_of_Z pad2 String.append].
      assert (MakeDay (YearFromTime (LocalTime t1)) (MonthFromTime (LocalTime t1)) 1
              = MakeDay (YearFromTime (LocalTime t2)) (MonthFromTime (LocalTime t2)) 1) as Hmd.
      { unfold UTC, MakeDate, msPerDay in Heq. lia. }
      apply MakeDay_first_inj in Hmd as [Hy Hm]; try apply MonthFromTime_range.
      unfold getFullYear, getMonth. rewrite Hy, Hm. reflexivity.
    + intros Heq.
      assert (Day (LocalTime t1) = Day (LocalTime t2)) as Hday.
      { unfold UTC, MakeDate, msPerDay in Heq. lia. }
      destruct (same_day_same_fields t1 t2 Hday) as (-> & -> & ->). reflexivity.
Qed.

Lemma current_start_lower period now :
  now - 367 * msPerDay <= range_start (current (getPeriodBounds period now)).
Proof.
  pose proof (setHours_midnight now) as Hsc.
  pose proof (Day_decompose (LocalTime now)) as Hdec.
  assert (0 <= TimeWithinDay (LocalTime now) < msPerDay) as Htwd.
  { unfold TimeWithinDay, msPerDay. apply Z.mod_pos_bound. lia. }
  assert (now - msPerDay <= setHours now 0 0 0 0) as Hmid.
  { rewrite Hsc. unfold LocalTime in *. lia. }
  unfold getPeriodBounds.
  destruct (String.eqb period "today"); [cbn [current range_start]; unfold msPerDay in *; lia |].
  destruct (String.eqb period "week").
  { cbn [current range_start]. rewrite setDate_back. unfold msPerDay in *. lia. }
  destruct (String.eqb period "month").
  { cbn [current range_start].
    replace 1 with (getDate (setHours now 0 0 0 0) + (1 - getDate (setHours now 0 0 0 0))) by lia.
    rewrite setDate_shift.
    pose proof (DateFromTime_range (LocalTime (setHours now 0 0 0 0))).
    unfold getDate, msPerDay in *. lia. }
  destruct (String.eqb period "year").
  { cbn [current range_start]. unfold setMonth2, UTC, MakeDate.
    rewrite MakeDay_first by lia. cbn [monthStart].
    pose proof (YearFromDay_spec (Day (LocalTime (setHours now 0 0 0 0)))) as [_ Hup].
    rewrite DayFromYear_succ in Hup.
    pose proof (leapDay_range (YearFromDay (Day (LocalTime (setHours now 0 0 0 0))))).
    pose proof (Day_decompose (LocalTime (setHours now 0 0 0 0))).
    unfold YearFromTime, LocalTime, msPerDay in *. lia. }
  cbn [current range_start]. unfold msPerDay in *. lia.
Qed.

End Buckets.

(** ** Trend bucketizer: the sorted series *)

Lemma In_sort_insert {A} (cmp : A -> A -> option Z) x y l :
  In y (sort_insert cmp x l) -> y = x \/ In y l.
Proof.
  intros Hin. apply (Permutation_in _ (sort_insert_Permutation cmp x l)) in Hin.
  destruct Hin as [-> | Hin]; [left; reflexivity | right; exact Hin].
Qed.

Lemma run_query_sound docs cs d :
  In d (run_query docs cs) -> In d docs /\ matches_all cs d = true.
Proof.
  assert (forall f desc l, In d (order_by f desc l) -> In d l) as Horder.
  { intros f desc l Hin. unfold order_by in Hin.
    assert (In d (Array_sort
                    (fun a b => compare_number
                                  (value_compare (field (doc_data a) f) (field (doc_data b) f)))
                    (List.filter (has_field f) l))) as Hs.
    { destruct desc; [apply in_rev in Hin |]; exact Hin. }
    apply (Permutation_in _ (Array_sort_Permutation _ _)) in Hs.
    apply filter_In in Hs. tauto. }
  intros Hin. unfold run_query in Hin.
  assert (In d (matching_docs docs cs)) as Hm.
  { destruct (first_limit cs); [apply In_firstn_In in Hin |];
      (destruct (first_orderBy cs) as [[f desc] |];
       [apply Horder in Hin; exact Hin |
        destruct (first_inequality cs); [apply Horder in Hin |]; exact Hin]). }
  unfold matching_docs in Hm. apply filter_In in Hm. exact Hm.
Qed.

Lemma quot_between a : a / 1000000 <= Z.quot a 1000000 <= a / 1000000 + 1.
Proof.
  destruct (Z.le_gt_cases 0 a) as [Hpos | Hneg].
  - rewrite Z.quot_div_nonneg by lia. lia.
  - pose proof (Z.quot_opp_l a 1000000). 
    assert (Z.quot a 1000000 = - ((- a) / 1000000)) as ->.
    { rewrite <- (Z.quot_div_nonneg (- a) 1000000) by lia.
      rewrite Z.quot_opp_l by lia. lia. }
    Z.div_mod_to_equations. lia.
Qed.

Section Snapshot.
Context `{Platform}.

Lemma trend_match_timestamp range (d : Document) :
  matches_all (q_constraints (trend_query range)) d = true ->
  exists s n,
    field (doc_data d) "createdAt" = VTimestamp s n
    /\ (0 <= n < 1000000000 ->
        range_start range <= (s * 1000000000 + n) / 1000000 < range_end range).
Proof.
  unfold trend_query, query, matches_all. cbn [q_constraints forallb matches].
  intros Hm. apply andb_prop in Hm as [_ Hm]. apply andb_prop in Hm as [Hge Hm].
  apply andb_prop in Hm as [Hlt _].
  destruct (field (doc_data d) "createdAt") as [| | b | x | str | s n | fields | items |] eqn:Hf;
    try (unfold matches_where in Hge; rewrite Hf in Hge; discriminate Hge).
  exists s, n. split; [reflexivity |]. intros Hn.
  rewrite (stored_timestamp_ge s n _ _ "createdAt" Hf Hn) in Hge.
  rewrite (stored_timestamp_lt s n _ _ "createdAt" Hf Hn) in Hlt.
  apply Z.leb_le in Hge. apply Z.ltb_lt in Hlt. lia.
Qed.

Lemma snapshot_dated (fs : Firestore) now period snapshot :
  0 <= now <= 8640000000000000 ->
  Forall createdAt_well_formed (collection fs "orders") ->
  getDocs fs (trend_query (current (getPeriodBounds period now))) = Fulfilled snapshot ->
  Forall (dated_within (now - 367 * msPerDay) now) snapshot.
Proof.
  intros Hnow Hwf Hdocs. unfold getDocs in Hdocs.
  destruct (rejects fs _); [discriminate |]. injection Hdocs as <-.
  apply List.Forall_forall. intros d Hin.
  apply run_query_sound in Hin as [Hin Hm].
  change (q_path (trend_query (current (getPeriodBounds period now)))) with "orders" in Hin.
  rewrite List.Forall_forall in Hwf. specialize (Hwf d Hin).
  apply trend_match_timestamp in Hm as (s & n & Hf & Hrange).
  specialize (Hrange (Hwf s n Hf)).
  pose proof (current_start_lower period now) as Hlo.
  assert (range_end (current (getPeriodBounds period now)) = now) as Hend.
  { unfold getPeriodBounds.
    repeat match goal with |- context [if ?b then _ else _] => destruct b end; reflexivity. }
  pose proof (quot_between (s * 1000000000 + n)) as Hq.
  exists s, n, (Z.quot (s * 1000000000 + n) 1000000).
  split; [exact Hf |]. split.
  - unfold Timestamp_toDate, TimeClip.
    destruct (Z.leb_spec (Z.abs (Z.quot (s * 1000000000 + n) 1000000)) 8640000000000000);
      [reflexivity |]. unfold msPerDay in *. lia.
  - lia.
Qed.

End Snapshot.

Lemma Map_set_keys {V} (m : JSMap V) k v :
  map fst (Map_set m k v) = if Map_has m k then map fst m else (map fst m ++ [k])%list.
Proof.
  unfold Map_has. induction m as [| [k' v'] rest IH]; cbn [Map_set Map_get map fst]; [reflexivity |].
  destruct (String.eqb k' k) eqn:E.
  - apply String.eqb_eq in E. subst k'. reflexivity.
  - cbn [map fst]. rewrite IH. destruct (Map_get rest k); reflexivity.
Qed.

Lemma Map_has_In {V} (m : JSMap V) k : Map_has m k = true <-> In k (map fst m).
Proof.
  unfold Map_has. induction m as [| [k' v'] rest IH]; cbn [Map_get map fst In].
  - split; [discriminate | contradiction].
  - destruct (String.eqb k' k) eqn:E.
    + apply String.eqb_eq in E. split; [intros _; left; exact E | reflexivity].
    + apply String.eqb_neq in E. rewrite IH. split; [intros Hin; right; exact Hin |].
      intros [Heq | Hin]; [contradiction | exact Hin].
Qed.

Lemma Map_set_NoDup {V} (m : JSMap V) k v :
  List.NoDup (map fst m) -> List.NoDup (map fst (Map_set m k v)).
Proof.
  intros Hnd. rewrite Map_set_keys. destruct (Map_has m k) eqn:Hhas; [exact Hnd |].
  apply List.NoDup_app; [exact Hnd | constructor; [intros [] | constructor] |].
  intros x Hx [<- | []]. apply Map_has_In in Hx. congruence.
Qed.

Lemma Map_set_In {V} (m : JSMap V) k v k' :
  In k' (map fst (Map_set m k v)) <-> k' = k \/ In k' (map fst m).
Proof.
  rewrite Map_set_keys. destruct (Map_has m k) eqn:Hhas.
  - apply Map_has_In in Hhas. split; [intros Hin; right; exact Hin |].
    intros [-> | Hin]; assumption.
  - rewrite in_app_iff. cbn [In]. split.
    + intros [Hin | [<- | []]]; [right; exact Hin | left; reflexivity].
    + intros [-> | Hin]; [right; left; reflexivity | left; exact Hin].
Qed.

Section Grouping.
Context `{Platform}.

Lemma record_keys_In period docs k :
  In k (record_keys period docs) <-> exists d, In d docs /\ record_key period d = Some k.
Proof.
  unfold record_keys. rewrite in_flat_map. split.
  - intros (d & Hd & Hk). exists d. split; [exact Hd |].
    destruct (record_key period d) as [k' |]; [| contradiction].
    destruct Hk as [-> | []]. reflexivity.
  - intros (d & Hd & Hk). exists d. split; [exact Hd |]. rewrite Hk. left. reflexivity.
Qed.

Lemma trend_loop_keys period docs :
  Forall has_date docs ->
  forall grouped,
    List.NoDup (map fst grouped) ->
    exists grouped',
      trend_loop period docs grouped = Fulfilled grouped'
      /\ List.NoDup (map fst grouped')
      /\ forall k, In k (map fst grouped')
                   <-> In k (map fst grouped) \/ In k (record_keys period docs).
Proof.
  induction 1 as [| d rest (s & n & Hf) _ IH]; intros grouped Hnd.
  - exists grouped. cbn [trend_loop record_keys flat_map]. repeat split; try assumption.
    + intros Hin. left. exact Hin.
    + intros [Hin | []]. exact Hin.
  - cbn [trend_loop]. unfold trend_step. rewrite Hf. cbn [createdAt_toDate].
    set (key := getDateKey (Timestamp_toDate s n) period).
    set (bucket := {| revenue := _; orders := _; profit := _ |}).
    destruct (IH (Map_set grouped key bucket) (Map_set_NoDup grouped key bucket Hnd))
      as (grouped' & Hloop & Hnd' & Hkeys).
    exists grouped'. repeat split; try assumption.
    + intros Hin. apply Hkeys in Hin. destruct Hin as [Hin | Hin].
      * apply Map_set_In in Hin. destruct Hin as [-> | Hin]; [| left; exact Hin].
        right. unfold record_keys. cbn [flat_map]. unfold record_key. rewrite Hf.
        cbn [createdAt_toDate]. left. reflexivity.
      * right. unfold record_keys in *. cbn [flat_map]. apply in_or_app. right. exact Hin.
    + intros Hin. apply Hkeys. destruct Hin as [Hin | Hin].
      * left. apply Map_set_In. right. exact Hin.
      * unfold record_keys in Hin. cbn [flat_map] in Hin. apply in_app_or in Hin.
        destruct Hin as [Hin | Hin]; [| right; exact Hin].
        unfold record_key in Hin. rewrite Hf in Hin. cbn [createdAt_toDate] in Hin.
        destruct Hin as [<- | []]. left. apply Map_set_In. left. reflexivity.
Qed.

End Grouping.

Lemma sorted_le_NoDup_lt {A} (key : A -> Z) l :
  StronglySorted (fun a b => key a <= key b) l ->
  List.NoDup (map key l) ->
  StronglySorted (fun a b => key a < key b) l.
Proof.
  induction 1 as [| x rest Hrest IH Hx]; intros Hnd; [constructor |].
  cbn [map] in Hnd. apply List.NoDup_cons_iff in Hnd as [Hnotin Hnd].
  constructor; [apply IH; exact Hnd |].
  rewrite List.Forall_forall in *. intros y Hy.
  specialize (Hx y Hy).
  assert (key x <> key y) as Hne.
  { intros Heq. apply Hnotin. rewrite Heq. apply in_map. exact Hy. }
  lia.
Qed.

Section Points.
Context `{Platform}.

Lemma bucket_start_bounds period t :
  t - 32 * msPerDay <= bucket_start period t <= t.
Proof.
  pose proof (Day_decompose (LocalTime t)) as Hdec.
  assert (0 <= TimeWithinDay (LocalTime t) < msPerDay) as Htwd.
  { unfold TimeWithinDay, msPerDay. apply Z.mod_pos_bound. lia. }
  unfold bucket_start.
  destruct (String.eqb period "today").
  - unfold UTC, MakeDate, MakeTime, HourFromTime.
    unfold Day, TimeWithinDay, LocalTime, msPerDay, msPerHour in *.
    Z.div_mod_to_equations. lia.
  - destruct (String.eqb period "year").
    + pose proof (MakeDay_of_time (LocalTime t)) as Hmd.
      pose proof (MakeDay_date (YearFromTime (LocalTime t)) (MonthFromTime (LocalTime t))
                    (DateFromTime (LocalTime t)) (1 - DateFromTime (LocalTime t))) as Hshift.
      replace (DateFromTime (LocalTime t) + (1 - DateFromTime (LocalTime t))) with 1 in Hshift by lia.
      pose proof (DateFromTime_range (LocalTime t)).
      unfold UTC, MakeDate. rewrite Hshift, Hmd. unfold LocalTime, msPerDay in *. lia.
    + unfold UTC, MakeDate. unfold LocalTime, msPerDay in *. lia.
Qed.

Lemma by_date_key a b :
  valid_date (date a) -> valid_date (date b) ->
  by_date a b = Some (time_of (date a) - time_of (date b)).
Proof.
  intros [x Hx] [y Hy]. unfold by_date. rewrite Hx, Hy. reflexivity.
Qed.

Lemma sorted_valid_date_before l :
  StronglySorted (fun a b => time_of (date a) < time_of (date b)) l ->
  Forall (fun pt => valid_date (date pt)) l ->
  StronglySorted date_before l.
Proof.
  induction 1 as [| x rest Hrest IH Hx]; intros Hv; [constructor |].
  apply Forall_cons_iff in Hv as [Hvx Hvrest].
  constructor; [apply IH; exact Hvrest |].
  rewrite List.Forall_forall in *. intros y Hy.
  specialize (Hx y Hy). destruct Hvx as [tx Htx]. destruct (Hvrest y Hy) as [ty Hty].
  exists tx, ty. rewrite Htx, Hty in *. cbn [time_of] in Hx. repeat split; assumption.
Qed.

End Points.

Lemma sample_orders_well_formed :
  Forall createdAt_well_formed
    (collection (store_of [order_march_12; order_zero_cost; order_march_2] [] []) "orders").
Proof.
  change (collection (store_of [order_march_12; order_zero_cost; order_march_2] [] []) "orders")
    with [order_march_12; order_zero_cost; order_march_2].
  repeat (apply List.Forall_cons; [intros s n Hf; vm_compute in Hf; injection Hf as <- <-; lia |]).
  apply List.Forall_nil.
Qed.


(** The three orders above, held latest first, come out as the buckets of
    2, 9 and 12 March. *)
Example revenue_trend_of_march :
  map date (@getRevenueTrend utc_platform
              (store_of [order_march_12; order_zero_cost; order_march_2] [] [])
              sample_now "month")
  = [DateOf 1709337600000; DateOf 1709942400000; DateOf 1710201600000].
Proof. vm_compute. reflexivity. Qed.

(** ** Period resolver: the shape of each period *)

Lemma YearFromDay_unique y d :
  DayFromYear y <= d < DayFromYear (y + 1) -> YearFromDay d = y.
Proof.
  intros Hd. pose proof (YearFromDay_spec d) as Hs.
  destruct (Z.lt_trichotomy (YearFromDay d) y) as [Hlt | [Heq | Hgt]]; [| exact Heq |].
  - pose proof (DayFromYear_le (YearFromDay d + 1) y). lia.
  - pose proof (DayFromYear_le (y + 1) (YearFromDay d)). lia.
Qed.

Lemma Day_of_days d : Day (d * msPerDay) = d.
Proof. unfold Day, msPerDay. apply Z.div_mul. lia. Qed.

Lemma TimeWithinDay_of_days d : TimeWithinDay (d * msPerDay) = 0.
Proof. unfold TimeWithinDay, msPerDay. apply Z.mod_mul. lia. Qed.

(** The first of a month, read back through the getters' arithmetic. *)
Lemma fields_of_month_start y m :
  0 <= m <= 11 ->
  YearFromTime (MakeDay y m 1 * msPerDay) = y
  /\ MonthFromTime (MakeDay y m 1 * msPerDay) = m
  /\ DateFromTime (MakeDay y m 1 * msPerDay) = 1.
Proof.
  intros Hm.
  pose proof (monthStart_range (leapDay y) m (leapDay_range y) Hm) as Hms.
  pose proof (leapDay_range y) as Hl.
  assert (YearFromTime (MakeDay y m 1 * msPerDay) = y) as Hy.
  { unfold YearFromTime. rewrite Day_of_days. apply YearFromDay_unique.
    rewrite MakeDay_first, DayFromYear_succ by exact Hm.
    assert (monthStart (leapDay y) m <= 334 + leapDay y) by (month_cases m; cbn [monthStart]; lia).
    lia. }
  assert (DayWithinYear (MakeDay y m 1 * msPerDay) = monthStart (leapDay y) m) as Hd.
  { unfold DayWithinYear. rewrite Hy, Day_of_days, MakeDay_first by exact Hm. lia. }
  assert (InLeapYear (MakeDay y m 1 * msPerDay) = leapDay y) as Hleap.
  { unfold InLeapYear. rewrite Hy. reflexivity. }
  assert (MonthFromTime (MakeDay y m 1 * msPerDay) = m) as Hmonth.
  { unfold MonthFromTime. rewrite Hd, Hleap. unfold leapDay.
    destruct (isLeapYear y); month_cases m; reflexivity. }
  repeat split; try assumption.
  unfold DateFromTime. rewrite Hmonth, Hd, Hleap. lia.
Qed.

Lemma MakeDay_december y d : MakeDay y (-1) d = MakeDay (y - 1) 11 d.
Proof.
  unfold MakeDay. change (-1 / 12) with (-1). change (-1 mod 12) with 11.
  change (11 / 12) with 0. change (11 mod 12) with 11.
  replace (y + -1) with (y - 1) by lia. replace (y - 1 + 0) with (y - 1) by lia. reflexivity.
Qed.

Section PeriodShapes.
Context `{Platform}.

Lemma LocalTime_local_midnight t : LocalTime (local_midnight t) = Day (LocalTime t) * msPerDay.
Proof. unfold local_midnight, LocalTime. lia. Qed.

Lemma LocalTime_month_start y m : LocalTime (month_start y m) = MakeDay y m 1 * msPerDay.
Proof. unfold month_start, LocalTime. lia. Qed.

Lemma getters_of_month_start y m :
  0 <= m <= 11 ->
  getFullYear (month_start y m) = y /\ getMonth (month_start y m) = m
  /\ getDate (month_start y m) = 1 /\ getHours (month_start y m) = 0
  /\ TimeWithinDay (LocalTime (month_start y m)) = 0.
Proof.
  intros Hm. unfold getFullYear, getMonth, getDate, getHours.
  rewrite LocalTime_month_start.
  destruct (fields_of_month_start y m Hm) as (Hy & Hmo & Hd).
  repeat split; try assumption.
  - unfold HourFromTime, msPerDay, msPerHour.
    replace (MakeDay y m 1 * 86400000) with (MakeDay y m 1 * 24 * 3600000) by lia.
    rewrite Z.div_mul by lia. apply Z.mod_mul. lia.
  - apply TimeWithinDay_of_days.
Qed.

(** The first of the month of [t], at local midnight. *)
Lemma setDate_first_of_midnight t :
  setDate (local_midnight t) 1 = month_start (getFullYear t) (getMonth t).
Proof.
  unfold setDate, month_start, UTC, MakeDate.
  rewrite LocalTime_local_midnight, TimeWithinDay_of_days.
  assert (Day (LocalTime (local_midnight t)) = Day (LocalTime t)) as Hday.
  { rewrite LocalTime_local_midnight. apply Day_of_days. }
  destruct (same_day_same_fields (local_midnight t) t Hday) as (Hy & Hm & _).
  unfold getFullYear, getMonth in *. rewrite LocalTime_local_midnight in Hy, Hm.
  rewrite Hy, Hm. lia.
Qed.

Lemma setMonth2_january_of_midnight t :
  setMonth2 (local_midnight t) 0 1 = month_start (getFullYear t) 0.
Proof.
  unfold setMonth2, month_start, UTC, MakeDate.
  rewrite LocalTime_local_midnight, TimeWithinDay_of_days.
  assert (Day (LocalTime (local_midnight t)) = Day (LocalTime t)) as Hday.
  { rewrite LocalTime_local_midnight. apply Day_of_days. }
  destruct (same_day_same_fields (local_midnight t) t Hday) as (Hy & _ & _).
  unfold getFullYear in *. rewrite LocalTime_local_midnight in Hy.
  rewrite Hy. lia.
Qed.

Lemma setMonth_previous_of_month_start y m :
  0 <= m <= 11 ->
  setMonth (month_start y m) (getMonth (month_start y m) - 1)
  = if m =? 0 then month_start (y - 1) 11 else month_start y (m - 1).
Proof.
  intros Hm. destruct (getters_of_month_start y m Hm) as (Hy & Hmo & Hd & _ & Htwd).
  unfold setMonth. unfold getFullYear, getMonth, getDate in *.
  rewrite Hy, Hmo, Hd, Htwd. unfold month_start, UTC, MakeDate.
  destruct (Z.eqb_spec m 0) as [-> | Hne].
  - change (0 - 1) with (-1). rewrite MakeDay_december. lia.
  - lia.
Qed.

Lemma setFullYear_previous_of_year_start y :
  setFullYear (month_start y 0) (getFullYear (month_start y 0) - 1) = month_start (y - 1) 0.
Proof.
  destruct (getters_of_month_start y 0) as (Hy & Hmo & Hd & _ & Htwd); [lia |].
  unfold setFullYear. unfold getFullYear, getMonth, getDate in *.
  rewrite Hy, Hmo, Hd, Htwd. unfold month_start, UTC, MakeDate. lia.
Qed.

(** X1: the "week" period runs from local midnight six days before today
    to the clock reading, and is compared with the seven days right before
    it. *)
Theorem week_bounds (now : Z) :
  range_start (current (getPeriodBounds "week" now)) = local_midnight now - 6 * msPerDay
  /\ range_end (current (getPeriodBounds "week" now)) = now
  /\ range_start (previous (getPeriodBounds "week" now)) = local_midnight now - 13 * msPerDay
  /\ range_end (previous (getPeriodBounds "week" now)) = local_midnight now - 6 * msPerDay.
Proof.
  keep_setters. rewrite !setDate_back, setHours_midnight.
  unfold local_midnight. repeat split; lia.
Qed.

(** X2: the "month" period starts at local midnight on the first day of
    the current month and is compared with the whole month before it,
    which is December of the year before when the current month is
    January. *)
Theorem month_bounds (now : Z) :
  range_start (current (getPeriodBounds "month" now))
  = month_start (getFullYear now) (getMonth now)
  /\ range_end (current (getPeriodBounds "month" now)) = now
  /\ range_start (previous (getPeriodBounds "month" now))
     = (if getMonth now =? 0 then month_start (getFullYear now - 1) 11
        else month_start (getFullYear now) (getMonth now - 1))
  /\ range_end (previous (getPeriodBounds "month" now))
     = range_start (current (getPeriodBounds "month" now))
  /\ getFullYear (range_start (current (getPeriodBounds "month" now))) = getFullYear now
  /\ getMonth (range_start (current (getPeriodBounds "month" now))) = getMonth now
  /\ getDate (range_start (current (getPeriodBounds "month" now))) = 1
  /\ getHours (range_start (current (getPeriodBounds "month" now))) = 0
  /\ getFullYear (range_start (previous (getPeriodBounds "month" now)))
     = (if getMonth now =? 0 then getFullYear now - 1 else getFullYear now)
  /\ getMonth (range_start (previous (getPeriodBounds "month" now)))
     = (if getMonth now =? 0 then 11 else getMonth now - 1)
  /\ getDate (range_start (previous (getPeriodBounds "month" now))) = 1
  /\ getHours (range_start (previous (getPeriodBounds "month" now))) = 0.
Proof.
  pose proof (MonthFromTime_range (LocalTime now)) as Hm. fold (getMonth now) in Hm.
  keep_setters. rewrite setHours_midnight. fold (local_midnight now).
  rewrite setDate_first_of_midnight, setMonth_previous_of_month_start by exact Hm.
  destruct (getters_of_month_start (getFullYear now) (getMonth now) Hm)
    as (Hy & Hmo & Hd & Hh & _).
  assert (let ps := if getMonth now =? 0 then month_start (getFullYear now - 1) 11
                    else month_start (getFullYear now) (getMonth now - 1) in
          getFullYear ps = (if getMonth now =? 0 then getFullYear now - 1 else getFullYear now)
          /\ getMonth ps = (if getMonth now =? 0 then 11 else getMonth now - 1)
          /\ getDate ps = 1 /\ getHours ps = 0) as (Hpy & Hpm & Hpd & Hph).
  { destruct (Z.eqb_spec (getMonth now) 0); cbv zeta.
    - destruct (getters_of_month_start (getFullYear now - 1) 11) as (? & ? & ? & ? & _);
        [lia | repeat split; assumption].
    - destruct (getters_of_month_start (getFullYear now) (getMonth now - 1)) as (? & ? & ? & ? & _);
        [lia | repeat split; assumption]. }
  repeat split; assumption.
Qed.

(** X3: the "year" period starts at local midnight on 1 January of the
    current year and is compared with the whole year before it. *)
Theorem year_bounds (now : Z) :
  range_start (current (getPeriodBounds "year" now)) = month_start (getFullYear now) 0
  /\ range_end (current (getPeriodBounds "year" now)) = now
  /\ range_start (previous (getPeriodBounds "year" now)) = month_start (getFullYear now - 1) 0
  /\ range_end (previous (getPeriodBounds "year" now))
     = range_start (current (getPeriodBounds "year" now))
  /\ getFullYear (range_start (current (getPeriodBounds "year" now))) = getFullYear now
  /\ getMonth (range_start (current (getPeriodBounds "year" now))) = 0
  /\ getDate (range_start (current (getPeriodBounds "year" now))) = 1
  /\ getHours (range_start (current (getPeriodBounds "year" now))) = 0
  /\ getFullYear (range_start (previous (getPeriodBounds "year" now))) = getFullYear now - 1
  /\ getMonth (range_start (previous (getPeriodBounds "year" now))) = 0
  /\ getDate (range_start (previous (getPeriodBounds "year" now))) = 1
  /\ getHours (range_start (previous (getPeriodBounds "year" now))) = 0.
Proof.
  keep_setters. rewrite setHours_midnight. fold (local_midnight now).
  rewrite setMonth2_january_of_midnight, setFullYear_previous_of_year_start.
  destruct (getters_of_month_start (getFullYear now) 0) as (Hy & Hmo & Hd & Hh & _); [lia |].
  destruct (getters_of_month_start (getFullYear now - 1) 0) as (Hpy & Hpm & Hpd & Hph & _);
    [lia |].
  repeat split; assumption.
Qed.

End PeriodShapes.

(** ** Bucket keys: reading back what was written *)

Section KeyRoundTrip.
Context `{Platform}.

Lemma bucket_start_idempotent period t :
  bucket_start period (bucket_start period t) = bucket_start period t.
Proof.
  unfold bucket_start.
  destruct (String.eqb period "today").
  - pose proof (HourFromTime_range (LocalTime t)) as Hh.
    set (d := Day (LocalTime t)) in *. set (h := HourFromTime (LocalTime t)) in *.
    assert (LocalTime (UTC (MakeDate d (MakeTime h 0 0 0))) = d * msPerDay + h * msPerHour) as ->.
    { unfold LocalTime, UTC, MakeDate, MakeTime. lia. }
    assert (Day (d * msPerDay + h * msPerHour) = d) as ->.
    { unfold Day, msPerDay, msPerHour. Z.div_mod_to_equations. lia. }
    assert (HourFromTime (d * msPerDay + h * msPerHour) = h) as ->.
    { unfold HourFromTime, msPerDay, msPerHour.
      replace (d * 86400000 + h * 3600000) with ((d * 24 + h) * 3600000) by lia.
      rewrite Z.div_mul by lia. Z.div_mod_to_equations. lia. }
    reflexivity.
  - destruct (String.eqb period "year").
    + pose proof (MonthFromTime_range (LocalTime t)) as Hm.
      set (y := YearFromTime (LocalTime t)) in *. set (m := MonthFromTime (LocalTime t)) in *.
      assert (LocalTime (UTC (MakeDate (MakeDay y m 1) 0)) = MakeDay y m 1 * msPerDay) as ->.
      { unfold LocalTime, UTC, MakeDate. lia. }
      destruct (fields_of_month_start y m Hm) as (-> & -> & _). reflexivity.
    + assert (LocalTime (UTC (MakeDate (Day (LocalTime t)) 0)) = Day (LocalTime t) * msPerDay) as ->.
      { unfold LocalTime, UTC, MakeDate. lia. }
      rewrite Day_of_days. reflexivity.
Qed.

(** X4: a bucket key written by [getDateKey] is read back by
    [parseDateKey] as the first instant of the local hour ("today"), month
    ("year") or day (any other tag) that the date falls in; that instant is
    not later than the date and carries the same key.  Dates are taken
    from year 100 on, since [new Date(year, ...)] reads a year below 100
    as 1900 + year. *)
Theorem date_key_round_trip (period : string) (t : Z) :
  100 <= getFullYear t ->
  - 8640000000000000 + 32 * msPerDay <= t <= 8640000000000000 ->
  parseDateKey (getDateKey (DateOf t) period) period = DateOf (bucket_start period t)
  /\ bucket_start period t <= t
  /\ getDateKey (DateOf (bucket_start period t)) period = getDateKey (DateOf t) period.
Proof.
  intros Hyear Ht. pose proof (bucket_start_bounds period t) as Hb.
  split; [| split; [lia |]].
  - rewrite parseDateKey_getDateKey by exact Hyear. unfold TimeClip.
    destruct (Z.leb_spec (Z.abs (bucket_start period t)) 8640000000000000); [reflexivity |].
    unfold msPerDay in *. lia.
  - apply bucket_start_key. apply bucket_start_idempotent.
Qed.

(** The numbers a key is made of, as [parseDateKey] reads them. *)
Lemma getDateKey_fields period t :
  0 <= getFullYear t ->
  map parseInt (split_on is_key_delimiter (getDateKey (DateOf t) period))
  = if String.eqb period "today" then
      [Some (getFullYear t); Some (getMonth t + 1); Some (getDate t); Some (getHours t); Some 0]
    else if String.eqb period "week" || String.eqb period "month" then
      [Some (getFullYear t); Some (getMonth t + 1); Some (getDate t)]
    else if String.eqb period "year" then
      [Some (getFullYear t); Some (getMonth t + 1)]
    else
      [Some (getFullYear t); Some (getMonth t + 1); Some (getDate t)].
Proof.
  intros Hyear.
  pose proof (MonthFromTime_range (LocalTime t)) as Hm.
  pose proof (DateFromTime_range (LocalTime t)) as Hd.
  pose proof (HourFromTime_range (LocalTime t)) as Hh.
  destruct (digits_spec (getFullYear t)) as (Yne & Yall & _); [lia |].
  pose proof (parseInt_digits_of (getFullYear t) Hyear) as Yval.
  destruct (pad2_spec (getMonth t + 1)) as (Mne & Mall & Mval); [unfold getMonth; lia |].
  destruct (pad2_spec (getDate t)) as (Dne & Dall & Dval); [unfold getDate; lia |].
  destruct (pad2_spec (getHours t)) as (Hne & Hall & Hval); [unfold getHours; lia |].
  unfold getDateKey. rewrite string_of_Z_nonneg by lia.
  destruct (String.eqb period "today").
  - rewrite key_parts_hour by assumption. cbn [map]. rewrite Yval, Mval, Dval, Hval. reflexivity.
  - destruct (String.eqb period "week" || String.eqb period "month").
    + rewrite key_parts_day by assumption. cbn [map]. rewrite Yval, Mval, Dval. reflexivity.
    + destruct (String.eqb period "year").
      * rewrite key_parts_month by assumption. cbn [map]. rewrite Yval, Mval. reflexivity.
      * rewrite key_parts_day by assumption. cbn [map]. rewrite Yval, Mval, Dval. reflexivity.
Qed.

Lemma Day_of_getters t : Day (LocalTime t) = MakeDay (getFullYear t) (getMonth t) (getDate t).
Proof. unfold getFullYear, getMonth, getDate. rewrite MakeDay_of_time. reflexivity. Qed.

(** X5: two dates (of years from 0 on) get the same bucket key exactly
    when they fall in the same local hour ("today"), month ("year") or day
    (any other tag). *)
Theorem date_key_same_bucket (period : string) (t1 t2 : Z) :
  0 <= getFullYear t1 -> 0 <= getFullYear t2 ->
  getDateKey (DateOf t1) period = getDateKey (DateOf t2) period
  <-> bucket_start period t1 = bucket_start period t2.
Proof.
  intros H1 H2. split; [| apply bucket_start_key].
  intros Hkey.
  pose proof (getDateKey_fields period t1 H1) as F1.
  pose proof (getDateKey_fields period t2 H2) as F2.
  rewrite Hkey, F2 in F1. clear F2 Hkey.
  unfold bucket_start. rewrite !Day_of_getters.
  fold (getFullYear t1) (getFullYear t2) (getMonth t1) (getMonth t2)
       (getHours t1) (getHours t2).
  destruct (String.eqb period "today").
  - injection F1 as Hy Hm Hd Hh. replace (getMonth t2) with (getMonth t1) by lia.
    rewrite Hy, Hd, Hh. reflexivity.
  - destruct (String.eqb period "year").
    + assert (getFullYear t2 = getFullYear t1 /\ getMonth t2 + 1 = getMonth t1 + 1) as [Hy Hm].
      { destruct (String.eqb period "week" || String.eqb period "month");
          injection F1; intros; split; assumption. }
      replace (getMonth t2) with (getMonth t1) by lia. rewrite Hy. reflexivity.
    + assert (getFullYear t2 = getFullYear t1 /\ getMonth t2 + 1 = getMonth t1 + 1
              /\ getDate t2 = getDate t1) as (Hy & Hm & Hd).
      { destruct (String.eqb period "week" || String.eqb period "month");
          injection F1; intros; repeat split; assumption. }
      replace (getMonth t2) with (getMonth t1) by lia. rewrite Hy, Hd. reflexivity.
Qed.

End KeyRoundTrip.

(** ** Resilient aggregator: ranges *)

Lemma in_range_split timestamp a b c :
  a <= b <= c ->
  in_range timestamp {| range_start := a; range_end := c |}
  = in_range timestamp {| range_start := a; range_end := b |}
    || in_range timestamp {| range_start := b; range_end := c |}.
Proof.
  intros Habc. destruct timestamp as [| t]; [reflexivity |].
  cbn [in_range range_start range_end].
  destruct (Z.leb_spec a t), (Z.ltb_spec t c), (Z.leb_spec b t), (Z.ltb_spec t b);
    cbn [andb orb]; try reflexivity; lia.
Qed.

Lemma in_range_disjoint timestamp a b c :
  in_range timestamp {| range_start := a; range_end := b |}
  && in_range timestamp {| range_start := b; range_end := c |} = false.
Proof.
  destruct timestamp as [| t]; [reflexivity |].
  cbn [in_range range_start range_end].
  destruct (Z.leb_spec a t), (Z.ltb_spec t c), (Z.leb_spec b t), (Z.ltb_spec t b);
    cbn [andb orb]; try reflexivity; lia.
Qed.

Lemma in_range_empty timestamp range :
  range_end range <= range_start range -> in_range timestamp range = false.
Proof.
  intros Hr. destruct timestamp as [| t]; [reflexivity |].
  cbn [in_range].
  destruct (Z.leb_spec (range_start range) t), (Z.ltb_spec t (range_end range));
    cbn [andb]; try reflexivity; lia.
Qed.

Section Ranges.
Context `{Platform}.

Lemma countDocuments_loop_split timestampField options clock a b c records :
  a <= b <= c ->
  forall i n1 n2,
    countDocuments_loop timestampField {| range_start := a; range_end := c |}
      options clock i records (n1 + n2)
    = countDocuments_loop timestampField {| range_start := a; range_end := b |}
        options clock i records n1
      + countDocuments_loop timestampField {| range_start := b; range_end := c |}
          options clock i records n2.
Proof.
  intros Habc. induction records as [| d rest IH]; intros i n1 n2; [reflexivity |].
  cbn [countDocuments_loop]. unfold countDocuments_step.
  destruct (match filterPredicate options with
            | Some p => negb (p (doc_data d))
            | None => false
            end); [apply IH |].
  set (timestamp := extractTimestamp _ _).
  rewrite (in_range_split timestamp a b c Habc).
  pose proof (in_range_disjoint timestamp a b c) as Hdis.
  destruct (in_range timestamp {| range_start := a; range_end := b |}),
           (in_range timestamp {| range_start := b; range_end := c |});
    cbn [orb]; try discriminate Hdis.
  - replace (n1 + n2 + 1) with ((n1 + 1) + n2) by lia. apply IH.
  - replace (n1 + n2 + 1) with (n1 + (n2 + 1)) by lia. apply IH.
  - apply IH.
Qed.

Lemma aggregateOrders_loop_split clock a b c records :
  a <= b <= c ->
  forall i n1 n2 r r1 r2,
    fst (aggregateOrders_loop {| range_start := a; range_end := c |} clock i records
           (n1 + n2, r))
    = fst (aggregateOrders_loop {| range_start := a; range_end := b |} clock i records (n1, r1))
      + fst (aggregateOrders_loop {| range_start := b; range_end := c |} clock i records
               (n2, r2)).
Proof.
  intros Habc. induction records as [| d rest IH]; intros i n1 n2 r r1 r2; [reflexivity |].
  cbn [aggregateOrders_loop]. unfold aggregateOrders_step.
  set (timestamp := extractTimestamp _ _).
  rewrite (in_range_split timestamp a b c Habc).
  pose proof (in_range_disjoint timestamp a b c) as Hdis.
  destruct (in_range timestamp {| range_start := a; range_end := b |}),
           (in_range timestamp {| range_start := b; range_end := c |});
    cbn [orb]; try discriminate Hdis.
  - replace (n1 + n2 + 1) with ((n1 + 1) + n2) by lia. apply IH.
  - replace (n1 + n2 + 1) with (n1 + (n2 + 1)) by lia. apply IH.
  - apply IH.
Qed.

Lemma agg_count_scan clock records range :
  agg_count (aggregateOrders_scan clock records range)
  = fst (aggregateOrders_loop range clock 0 records (0, 0%float)).
Proof.
  unfold aggregateOrders_scan.
  destruct (aggregateOrders_loop range clock 0 records (0, 0%float)). reflexivity.
Qed.

(** X6: the fallback scans never count a record twice across adjacent
    ranges: over the same records, read at the same clock readings, the
    count for [a, c) is the count for [a, b) plus the count for [b, c). *)
Theorem scan_counts_split (clock : nat -> Z) (records : list Document) (a b c : Z) :
  a <= b <= c ->
  (forall timestampField options,
      countDocuments_scan clock records timestampField
        {| range_start := a; range_end := c |} options
      = countDocuments_scan clock records timestampField
          {| range_start := a; range_end := b |} options
        + countDocuments_scan clock records timestampField
            {| range_start := b; range_end := c |} options)
  /\ agg_count (aggregateOrders_scan clock records {| range_start := a; range_end := c |})
     = agg_count (aggregateOrders_scan clock records {| range_start := a; range_end := b |})
       + agg_count (aggregateOrders_scan clock records {| range_start := b; range_end := c |}).
Proof.
  intros Habc. split.
  - intros timestampField options. unfold countDocuments_scan.
    apply (countDocuments_loop_split timestampField options clock a b c records Habc 0%nat 0 0).
  - rewrite !agg_count_scan.
    apply (aggregateOrders_loop_split clock a b c records Habc 0%nat 0 0).
Qed.

(** No stored value lies at or after the start of a range and before an
    end that is not later than the start. *)
Lemma range_constraints_empty range f (d : Document) :
  range_end range <= range_start range ->
  matches_all (buildRangeConstraints range f) d = false.
Proof.
  intros Hr. unfold buildRangeConstraints, matches_all. cbn [forallb matches].
  rewrite andb_true_r. unfold matches_where, Timestamp_fromDate.
  destruct (field (doc_data d) f) as [| | bb | x | str | s n | fields | items |];
    try reflexivity.
  cbn [comparable value_rank value_compare andb]. rewrite Z.eqb_refl. cbn [andb].
  set (e := range_end range) in *. set (st := range_start range) in *.
  destruct (Z.compare_spec s (st / 1000)) as [He | Hl | Hg];
    destruct (Z.compare_spec s (e / 1000)) as [He' | Hl' | Hg'];
    repeat match goal with
           | |- context [?x ?= ?y] => destruct (Z.compare_spec x y)
           end; try reflexivity; exfalso; Z.div_mod_to_equations; lia.
Qed.

Lemma matching_docs_empty_range range f extra docs :
  range_end range <= range_start range ->
  matching_docs docs (buildRangeConstraints range f ++ extra)%list = [].
Proof.
  intros Hr. unfold matching_docs. induction docs as [| d rest IH]; [reflexivity |].
  cbn [List.filter]. unfold matches_all at 1. rewrite forallb_app.
  fold (matches_all (buildRangeConstraints range f) d).
  rewrite (range_constraints_empty range f d Hr). exact IH.
Qed.

Lemma countDocuments_loop_empty timestampField range options clock records :
  range_end range <= range_start range ->
  forall i n, countDocuments_loop timestampField range options clock i records n = n.
Proof.
  intros Hr. induction records as [| d rest IH]; intros i n; [reflexivity |].
  cbn [countDocuments_loop]. unfold countDocuments_step.
  rewrite (in_range_empty _ range Hr).
  destruct (match filterPredicate options with
            | Some p => negb (p (doc_data d))
            | None => false
            end); apply IH.
Qed.

Lemma aggregateOrders_loop_empty range clock records :
  range_end range <= range_start range ->
  forall i acc, aggregateOrders_loop range clock i records acc = acc.
Proof.
  intros Hr. induction records as [| d rest IH]; intros i [n r]; [reflexivity |].
  cbn [aggregateOrders_loop]. unfold aggregateOrders_step.
  rewrite (in_range_empty _ range Hr). apply IH.
Qed.

Lemma aggregateOrders_empty_range (fs : Firestore) clock range aggregate :
  range_end range <= range_start range ->
  aggregateOrders fs clock range = Fulfilled aggregate ->
  aggregate = {| agg_count := 0; agg_revenue := 0%float; agg_average := 0%float |}.
Proof.
  intros Hr. unfold aggregateOrders, getAggregateFromServer, getDocs.
  destruct (rejects fs (req_aggregate _ _)).
  - destruct (rejects fs (req_getDocs _)); [discriminate |].
    intros Hagg. injection Hagg as <-. unfold aggregateOrders_scan.
    rewrite (aggregateOrders_loop_empty range clock _ Hr). reflexivity.
  - intros Hagg. injection Hagg as <-.
    cbn [q_constraints query q_path].
    rewrite <- (app_nil_r (buildRangeConstraints range "createdAt")).
    rewrite (matching_docs_empty_range range "createdAt" [] _ Hr). reflexivity.
Qed.

Lemma countDocumentsInRange_empty_range (fs : Firestore) clock collectionPath timestampField
    range options n :
  range_end range <= range_start range ->
  countDocumentsInRange fs clock collectionPath timestampField range options = Fulfilled n ->
  n = 0.
Proof.
  intros Hr. unfold countDocumentsInRange, getCountFromServer, getDocs.
  destruct (rejects fs (req_count _)).
  - destruct (rejects fs (req_getDocs _)); [discriminate |].
    intros Hn. injection Hn as <-. unfold countDocuments_scan.
    apply (countDocuments_loop_empty timestampField range options clock _ Hr).
  - intros Hn. injection Hn as <-. cbn [q_constraints query q_path].
    unfold countDocuments_constraints.
    rewrite (matching_docs_empty_range range timestampField _ _ Hr). reflexivity.
Qed.

(** X7: over a range whose end is not after its start (such as the
    previous range of an unknown period tag), both paths of
    [aggregateOrders] give count 0, revenue 0 and average 0, and both
    paths of [countDocumentsInRange] give 0, whatever the collection
    holds. *)
Theorem empty_range_aggregates (fs : Firestore) (clock : nat -> Z) (range : DateRange) :
  range_end range <= range_start range ->
  (forall aggregate,
      aggregateOrders fs clock range = Fulfilled aggregate ->
      aggregate = {| agg_count := 0; agg_revenue := 0%float; agg_average := 0%float |})
  /\ (forall collectionPath timestampField options n,
        countDocumentsInRange fs clock collectionPath timestampField range options
        = Fulfilled n ->
        n = 0).
Proof.
  intros Hr. split.
  - intros aggregate. apply aggregateOrders_empty_range. exact Hr.
  - intros collectionPath timestampField options n.
    apply countDocumentsInRange_empty_range. exact Hr.
Qed.

End Ranges.

(** ** Sums over a [Map] *)

Lemma total_of_app {A} (f : A -> Z) l1 l2 :
  total_of f (l1 ++ l2) = total_of f l1 + total_of f l2.
Proof.
  induction l1 as [| x l1 IH]; cbn [app total_of fold_right]; [reflexivity |].
  fold (total_of f (l1 ++ l2)). fold (total_of f l1). lia.
Qed.

Lemma total_of_cons {A} (f : A -> Z) x l : total_of f (x :: l) = f x + total_of f l.
Proof. reflexivity. Qed.

Lemma total_of_Permutation {A} (f : A -> Z) l1 l2 :
  Permutation l1 l2 -> total_of f l1 = total_of f l2.
Proof.
  induction 1 as [| x l1 l2 _ IH | x y l | l1 l2 l3 _ IH1 _ IH2];
    rewrite ?total_of_cons; lia.
Qed.

Lemma total_of_map {A B} (g : A -> B) (f : B -> Z) l :
  total_of f (map g l) = total_of (fun x => f (g x)) l.
Proof.
  induction l as [| x l IH]; [reflexivity |].
  cbn [map]. rewrite !total_of_cons, IH. reflexivity.
Qed.

Lemma total_of_ext {A} (f g : A -> Z) l :
  (forall x, f x = g x) -> total_of f l = total_of g l.
Proof.
  intros Hfg. induction l as [| x l IH]; [reflexivity |].
  rewrite !total_of_cons, IH, Hfg. reflexivity.
Qed.

(** Replacing or adding an entry changes a sum by the difference between
    the new value and the one it replaces. *)
Lemma Map_set_total {V} (f : V -> Z) (m : JSMap V) k v :
  total_of (fun kv => f (snd kv)) (Map_set m k v)
  = total_of (fun kv => f (snd kv)) m + f v
    - match Map_get m k with Some v0 => f v0 | None => 0 end.
Proof.
  induction m as [| [k' v'] rest IH]; cbn [Map_set Map_get].
  - rewrite total_of_cons. cbn [total_of fold_right snd]. lia.
  - destruct (String.eqb k' k).
    + rewrite !total_of_cons. cbn [snd]. lia.
    + rewrite !total_of_cons, IH. cbn [snd]. lia.
Qed.

Lemma In_Map_set {V} (m : JSMap V) k v k' v' :
  In (k', v') (Map_set m k v) -> (k' = k /\ v' = v) \/ In (k', v') m.
Proof.
  induction m as [| [k0 v0] rest IH]; cbn [Map_set].
  - intros [Heq | []]. injection Heq as <- <-. left. split; reflexivity.
  - destruct (String.eqb k0 k).
    + intros [Heq | Hin]; [injection Heq as <- <-; left; split; reflexivity |].
      right. right. exact Hin.
    + intros [Heq | Hin]; [right; left; exact Heq |].
      destruct (IH Hin) as [Hnew | Hold]; [left; exact Hnew | right; right; exact Hold].
Qed.

Lemma Map_get_In {V} (m : JSMap V) k v : Map_get m k = Some v -> In (k, v) m.
Proof.
  induction m as [| [k0 v0] rest IH]; cbn [Map_get]; [discriminate |].
  destruct (String.eqb k0 k) eqn:E.
  - apply String.eqb_eq in E. subst k0. intros Hv. injection Hv as <-. left. reflexivity.
  - intros Hv. right. apply IH. exact Hv.
Qed.

(** ** Trend bucketizer: every order lands in one bucket *)

Section TrendTotals.
Context `{Platform}.

Lemma trend_loop_total period docs :
  Forall has_date docs ->
  forall grouped,
    Forall (fun kv => 1 <= orders (snd kv)) grouped ->
    exists grouped',
      trend_loop period docs grouped = Fulfilled grouped'
      /\ Forall (fun kv => 1 <= orders (snd kv)) grouped'
      /\ total_of (fun kv => orders (snd kv)) grouped'
         = total_of (fun kv => orders (snd kv)) grouped + Z.of_nat (List.length docs).
Proof.
  induction 1 as [| d rest (s & n & Hf) _ IH]; intros grouped Hpos.
  - exists grouped. split; [reflexivity |]. split; [exact Hpos |].
    cbn [List.length Z.of_nat]. lia.
  - cbn [trend_loop]. unfold trend_step. rewrite Hf. cbn [createdAt_toDate].
    set (key := getDateKey (Timestamp_toDate s n) period).
    set (bucket := {| revenue := _; orders := _; profit := _ |}).
    assert (1 <= orders bucket) as Hbucket.
    { subst bucket. cbn [orders]. unfold option_or.
      destruct (Map_get grouped key) as [cur |] eqn:Hget.
      - apply Map_get_In in Hget. rewrite List.Forall_forall in Hpos.
        specialize (Hpos _ Hget). cbn [snd] in Hpos. lia.
      - cbn [orders empty_bucket]. lia. }
    destruct (IH (Map_set grouped key bucket)) as (grouped' & Hloop & Hpos' & Htotal).
    { apply List.Forall_forall. intros [k v] Hin.
      apply In_Map_set in Hin as [[_ ->] | Hin]; [exact Hbucket |].
      rewrite List.Forall_forall in Hpos. apply (Hpos _ Hin). }
    exists grouped'. split; [exact Hloop |]. split; [exact Hpos' |].
    rewrite Htotal, (Map_set_total orders grouped key bucket).
    subst bucket. cbn [orders]. unfold option_or.
    destruct (Map_get grouped key); cbn [orders empty_bucket List.length]; lia.
Qed.

Lemma trend_snapshot_has_date (fs : Firestore) range snapshot :
  getDocs fs (trend_query range) = Fulfilled snapshot -> Forall has_date snapshot.
Proof.
  unfold getDocs. destruct (rejects fs _); [discriminate |].
  intros Hs. injection Hs as <-. apply List.Forall_forall. intros d Hin.
  apply run_query_sound in Hin as [_ Hm].
  apply trend_match_timestamp in Hm as (s & n & Hf & _). exists s, n. exact Hf.
Qed.

(** X8: every order returned by the trend query is counted in exactly one
    point of the series: the [orders] of the points add up to the number of
    orders returned (and the series is empty when the query is rejected),
    and no point is without an order.  The [toDate] call cannot fail on
    such an order, since the range filter only lets timestamps through. *)
Theorem trend_counts_every_order (fs : Firestore) (now : Z) (period : string) :
  total_of (fun pt => orders (point pt)) (getRevenueTrend fs now period)
  = match getDocs fs (trend_query (current (getPeriodBounds period now))) with
    | Fulfilled snapshot => Z.of_nat (List.length snapshot)
    | Rejected => 0
    end
  /\ Forall (fun pt => 1 <= orders (point pt)) (getRevenueTrend fs now period).
Proof.
  unfold getRevenueTrend.
  destruct (getDocs fs (trend_query (current (getPeriodBounds period now))))
    as [snapshot |] eqn:Hdocs; [| split; [reflexivity | constructor]].
  destruct (trend_loop_total period snapshot (trend_snapshot_has_date fs _ _ Hdocs) []
              (List.Forall_nil _)) as (grouped & Hloop & Hpos & Htotal).
  rewrite Hloop. unfold trend_points.
  pose proof (Array_sort_Permutation by_date
                (map (fun '(key, v) => {| date := parseDateKey key period; point := v |})
                   grouped)) as Hperm.
  split.
  - rewrite (total_of_Permutation _ _ _ Hperm), total_of_map.
    rewrite (total_of_ext _ (fun kv => orders (snd kv))) by (intros [k v]; reflexivity).
    rewrite Htotal. reflexivity.
  - eapply Permutation_Forall; [symmetry; exact Hperm |].
    apply List.Forall_forall. intros pt Hpt. apply in_map_iff in Hpt as ([k v] & <- & Hin).
    rewrite List.Forall_forall in Hpos. apply (Hpos _ Hin).
Qed.

End TrendTotals.

(** ** Geographic breakdown: shape and totals *)

Lemma NoDup_map_filter {A B} (f : A -> B) (p : A -> bool) l :
  List.NoDup (map f l) -> List.NoDup (map f (List.filter p l)).
Proof.
  induction l as [| x l IH]; cbn [map List.filter]; [intros; constructor |].
  intros Hnd. apply List.NoDup_cons_iff in Hnd as [Hnotin Hnd].
  destruct (p x); [| apply IH; exact Hnd].
  cbn [map]. constructor; [| apply IH; exact Hnd].
  intros Hin. apply Hnotin. apply in_map_iff in Hin as (y & Hy & Hin).
  apply filter_In in Hin as [Hin _]. apply in_map_iff. exists y. split; assumption.
Qed.

Lemma total_of_filter_positive {A} (f : A -> Z) (p : A -> bool) l :
  Forall (fun x => 0 <= f x) l ->
  (forall x, p x = false -> f x <= 0) ->
  total_of f (List.filter p l) = total_of f l.
Proof.
  intros Hpos Hp. induction Hpos as [| x l Hx _ IH]; [reflexivity |].
  cbn [List.filter]. destruct (p x) eqn:E; rewrite !total_of_cons.
  - rewrite IH. reflexivity.
  - rewrite IH. specialize (Hp x E). lia.
Qed.

Section GeoShape.
Context `{Platform}.

Lemma extractCountryCode_upper (data : gmap string value) :
  toUpperCase (extractCountryCode data) = extractCountryCode data.
Proof.
  unfold extractCountryCode.
  match goal with |- context [match ?c with VStr _ => _ | _ => _ end] => destruct c end;
    try (match goal with |- context [if truthy ?c then _ else _] => destruct (truthy c) end;
         [apply toUpperCase_idempotent | reflexivity]).
  destruct (2 <? String.length s)%nat.
  - destruct (convertCountryNameToCode s) as [c | key].
    + destruct (String.eqb c ""); [reflexivity | apply toUpperCase_idempotent].
    + apply toUpperCase_idempotent.
  - destruct (truthy (VStr s)); [apply toUpperCase_idempotent | reflexivity].
Qed.

Lemma geo_entry_ok m code :
  code <> "" -> toUpperCase code = code -> geo_map_ok m ->
  geo_map_ok (geo_entry m code)
  /\ exists cur, Map_get (geo_entry m code) code = Some cur /\ geo_point_ok code cur
     /\ forall f : GeoDataPoint -> Z,
          f {| country := getCountryName code; countryCode := code; region := getRegion code;
               quotes := 0; conversions := 0; geo_revenue := VNum 0%float |} = 0 ->
          total_of (fun kv => f (snd kv)) (geo_entry m code)
          = total_of (fun kv => f (snd kv)) m.
Proof.
  intros Hcode Hupper [Hnd Hok]. unfold geo_entry.
  destruct (Map_has m code) eqn:Hhas; cbn [negb].
  - split; [split; assumption |].
    unfold Map_has in Hhas. destruct (Map_get m code) as [cur |] eqn:Hget; [| discriminate].
    exists cur. split; [reflexivity |]. split; [| reflexivity].
    apply Hok. apply Map_get_In. exact Hget.
  - set (fresh := {| country := _; countryCode := _; region := _; quotes := _;
                     conversions := _; geo_revenue := _ |}).
    assert (geo_point_ok code fresh) as Hfresh.
    { repeat split; try reflexivity; try assumption; cbn; lia. }
    split; [split |].
    + apply Map_set_NoDup. exact Hnd.
    + intros k p Hin. apply In_Map_set in Hin as [[-> ->] | Hin]; [exact Hfresh | auto].
    + exists fresh. split; [apply Map_get_set |]. split; [exact Hfresh |].
      intros f Hf. rewrite (Map_set_total f m code fresh), Hf.
      unfold Map_has in Hhas. destruct (Map_get m code); [discriminate | lia].
Qed.

(** Updating the counters of the entry of [code], as both loops do. *)
Lemma geo_update_ok m code (upd : GeoDataPoint -> GeoDataPoint) :
  code <> "" -> toUpperCase code = code -> geo_map_ok m ->
  (forall cur, countryCode (upd cur) = countryCode cur /\ country (upd cur) = country cur
               /\ region (upd cur) = region cur
               /\ quotes cur <= quotes (upd cur) /\ conversions cur <= conversions (upd cur)) ->
  let m' := geo_entry m code in
  let cur := option_or (Map_get m' code) blank_point in
  geo_map_ok (Map_set m' code (upd cur))
  /\ forall f : GeoDataPoint -> Z,
       f {| country := getCountryName code; countryCode := code; region := getRegion code;
            quotes := 0; conversions := 0; geo_revenue := VNum 0%float |} = 0 ->
       total_of (fun kv => f (snd kv)) (Map_set m' code (upd cur))
       = total_of (fun kv => f (snd kv)) m + f (upd cur) - f cur.
Proof.
  intros Hcode Hupper Hm Hupd. cbv zeta.
  destruct (geo_entry_ok m code Hcode Hupper Hm) as ([Hnd Hok] & cur & Hget & Hcur & Htotal).
  rewrite Hget. cbn [option_or]. split; [split |].
  - apply Map_set_NoDup. exact Hnd.
  - intros k p Hin. apply In_Map_set in Hin as [[-> ->] | Hin]; [| auto].
    destruct Hcur as (Hk & Hu & Hc & Hn & Hr & Hq & Hv).
    destruct (Hupd cur) as (Uc & Un & Ur & Uq & Uv).
    repeat split; try assumption; try congruence; lia.
  - intros f Hf. rewrite (Map_set_total f _ code (upd cur)), Hget, (Htotal f Hf). reflexivity.
Qed.

Lemma geo_quote_step_facts m d :
  geo_map_ok m ->
  geo_map_ok (geo_quote_step m d)
  /\ geo_quotes_total (geo_quote_step m d)
     = geo_quotes_total m + (if located d then 1 else 0)
  /\ geo_conversions_total (geo_quote_step m d) = geo_conversions_total m.
Proof.
  intros Hm. unfold geo_quote_step, located.
  destruct (String.eqb (extractCountryCode (doc_data d)) "") eqn:E; cbn [negb].
  - split; [exact Hm | split; lia].
  - apply String.eqb_neq in E.
    destruct (geo_update_ok m _
                (fun cur => {| country := country cur; countryCode := countryCode cur;
                               region := region cur; quotes := quotes cur + 1;
                               conversions := conversions cur;
                               geo_revenue := geo_revenue cur |}) E (extractCountryCode_upper _) Hm)
      as [Hok Htotal].
    { intros cur. cbn. repeat split; lia. }
    cbv zeta in Hok, Htotal. split; [exact Hok |].
    unfold geo_quotes_total, geo_conversions_total.
    rewrite (Htotal quotes eq_refl), (Htotal conversions eq_refl). cbn [quotes conversions].
    split; lia.
Qed.

Lemma geo_order_step_facts noQuotes m d :
  geo_map_ok m ->
  geo_map_ok (geo_order_step noQuotes m d)
  /\ geo_quotes_total (geo_order_step noQuotes m d)
     = geo_quotes_total m + (if noQuotes && located d then 1 else 0)
  /\ geo_conversions_total (geo_order_step noQuotes m d)
     = geo_conversions_total m + (if located d && converted d then 1 else 0).
Proof.
  intros Hm. unfold geo_order_step, located, converted.
  destruct (String.eqb (extractCountryCode (doc_data d)) "") eqn:E; cbn [negb].
  - rewrite andb_false_r. cbn [andb]. split; [exact Hm | split; lia].
  - apply String.eqb_neq in E. rewrite andb_true_r. cbn [andb].
    set (status := toLowerCase _).
    set (fulfilled := String.eqb status "completed" || String.eqb status "delivered"
                      || String.eqb status "shipped").
    destruct (geo_update_ok m _
                (fun cur => {| country := country cur; countryCode := countryCode cur;
                               region := region cur;
                               quotes := if noQuotes then quotes cur + 1 else quotes cur;
                               conversions :=
                                 if fulfilled then conversions cur + 1 else conversions cur;
                               geo_revenue :=
                                 if fulfilled then
                                   js_plus (geo_revenue cur)
                                     (js_or (js_or (field (doc_data d) "total")
                                               (field (doc_data d) "totalAmount"))
                                        (VNum 0%float))
                                 else geo_revenue cur |}) E (extractCountryCode_upper _) Hm)
      as [Hok Htotal].
    { intros cur. cbn. destruct noQuotes, fulfilled; repeat split; lia. }
    cbv zeta in Hok, Htotal. split; [exact Hok |].
    unfold geo_quotes_total, geo_conversions_total.
    rewrite (Htotal quotes eq_refl), (Htotal conversions eq_refl). cbn [quotes conversions].
    destruct noQuotes, fulfilled; split; lia.
Qed.

Lemma geo_quotes_fold docs : forall m,
  geo_map_ok m ->
  geo_map_ok (fold_left geo_quote_step docs m)
  /\ geo_quotes_total (fold_left geo_quote_step docs m)
     = geo_quotes_total m + count_if located docs
  /\ geo_conversions_total (fold_left geo_quote_step docs m) = geo_conversions_total m.
Proof.
  induction docs as [| d rest IH]; intros m Hm.
  - cbn [fold_left]. unfold count_if. cbn [List.filter List.length Z.of_nat].
    split; [exact Hm | split; lia].
  - cbn [fold_left].
    destruct (geo_quote_step_facts m d Hm) as (Hok & Hq & Hc).
    destruct (IH _ Hok) as (Hok' & Hq' & Hc').
    split; [exact Hok' |]. rewrite Hq', Hc', Hq, Hc.
    unfold count_if. cbn [List.filter]. destruct (located d); cbn [List.length]; split; lia.
Qed.

Lemma geo_orders_fold noQuotes docs : forall m,
  geo_map_ok m ->
  geo_map_ok (fold_left (geo_order_step noQuotes) docs m)
  /\ geo_quotes_total (fold_left (geo_order_step noQuotes) docs m)
     = geo_quotes_total m + (if noQuotes then count_if located docs else 0)
  /\ geo_conversions_total (fold_left (geo_order_step noQuotes) docs m)
     = geo_conversions_total m + count_if (fun d => located d && converted d) docs.
Proof.
  induction docs as [| d rest IH]; intros m Hm.
  - cbn [fold_left]. unfold count_if. cbn [List.filter List.length Z.of_nat].
    split; [exact Hm | destruct noQuotes; split; lia].
  - cbn [fold_left].
    destruct (geo_order_step_facts noQuotes m d Hm) as (Hok & Hq & Hc).
    destruct (IH _ Hok) as (Hok' & Hq' & Hc').
    split; [exact Hok' |]. rewrite Hq', Hc', Hq, Hc.
    unfold count_if. cbn [List.filter].
    destruct noQuotes, (located d), (converted d); cbn [andb List.length]; split; lia.
Qed.

Lemma geo_map_empty_ok : geo_map_ok [].
Proof. split; [constructor | intros k p []]. Qed.

Lemma geo_points_facts m :
  geo_map_ok m ->
  List.NoDup (map countryCode (geo_points m))
  /\ StronglySorted (fun a b => quotes b <= quotes a) (geo_points m)
  /\ Forall (fun p => countryCode p <> ""
                      /\ toUpperCase (countryCode p) = countryCode p
                      /\ country p = getCountryName (countryCode p)
                      /\ region p = getRegion (countryCode p)
                      /\ 0 <= quotes p /\ 0 <= conversions p
                      /\ (0 < quotes p \/ 0 < conversions p)) (geo_points m)
  /\ total_of quotes (geo_points m) = geo_quotes_total m
  /\ total_of conversions (geo_points m) = geo_conversions_total m.
Proof.
  intros [Hnd Hok]. unfold geo_points.
  set (keep := fun item => (0 <? quotes item) || (0 <? conversions item)).
  pose proof (Array_sort_Permutation by_quotes_desc (List.filter keep (map snd m))) as Hperm.
  assert (map countryCode (map snd m) = map fst m) as Hcodes.
  { rewrite map_map. apply map_ext_in. intros [k p] Hin. cbn [fst snd].
    apply (Hok k p Hin). }
  assert (Forall (fun p => 0 <= quotes p /\ 0 <= conversions p) (map snd m)) as Hpos.
  { apply List.Forall_forall. intros p Hin. apply in_map_iff in Hin as ([k p'] & <- & Hin).
    destruct (Hok k p' Hin) as (_ & _ & _ & _ & _ & Hq & Hc). split; assumption. }
  assert (forall p, In p (Array_sort by_quotes_desc (List.filter keep (map snd m))) ->
                    exists k, In (k, p) m /\ keep p = true) as Hin.
  { intros p Hp. apply (Permutation_in _ Hperm) in Hp. apply filter_In in Hp as [Hp Hkeep].
    apply in_map_iff in Hp as ([k p'] & <- & Hp). exists k. split; assumption. }
  split; [| split; [| split; [| split]]].
  - eapply Permutation_NoDup; [apply Permutation_map; symmetry; exact Hperm |].
    apply NoDup_map_filter. rewrite Hcodes. exact Hnd.
  - assert (forall a b : GeoDataPoint, True -> True ->
              by_quotes_desc a b = Some (- quotes a - - quotes b)) as Hkey.
    { intros a b _ _. unfold by_quotes_desc. f_equal. lia. }
    pose proof (Array_sort_sorted by_quotes_desc (fun p => - quotes p) (fun _ => True) Hkey
                  (List.filter keep (map snd m))) as Hs.
    assert (StronglySorted (fun a b : GeoDataPoint => - quotes a <= - quotes b)
              (Array_sort by_quotes_desc (List.filter keep (map snd m)))) as Hsorted.
    { apply Hs. apply List.Forall_forall. intros; exact I. }
    clear Hs Hin Hperm. induction Hsorted as [| x rest Hrest IH Hx]; constructor; [exact IH |].
    eapply List.Forall_impl; [| exact Hx]. cbn. intros y Hy. lia.
  - apply List.Forall_forall. intros p Hp. destruct (Hin p Hp) as (k & Hk & Hkeep).
    destruct (Hok k p Hk) as (Hne & Hu & Hc & Hn & Hr & Hq & Hv).
    rewrite Hc. repeat split; try assumption.
    unfold keep in Hkeep. apply orb_prop in Hkeep as [Hpos' | Hpos'];
      apply Z.ltb_lt in Hpos'; [left | right]; exact Hpos'.
  - rewrite (total_of_Permutation _ _ _ Hperm).
    rewrite total_of_filter_positive.
    + unfold geo_quotes_total. rewrite total_of_map. reflexivity.
    + eapply List.Forall_impl; [| exact Hpos]. cbn. intros p [Hq _]. exact Hq.
    + intros p Hkeep. unfold keep in Hkeep. apply orb_false_elim in Hkeep as [Hq _].
      apply Z.ltb_ge in Hq. exact Hq.
  - rewrite (total_of_Permutation _ _ _ Hperm).
    rewrite total_of_filter_positive.
    + unfold geo_conversions_total. rewrite total_of_map. reflexivity.
    + eapply List.Forall_impl; [| exact Hpos]. cbn. intros p [_ Hc]. exact Hc.
    + intros p Hkeep. unfold keep in Hkeep. apply orb_false_elim in Hkeep as [_ Hc].
      apply Z.ltb_ge in Hc. exact Hc.
Qed.

Lemma geographic_map (fs : Firestore) now period ordersSnapshot :
  getDocs fs (geo_range_query "orders" (current (getPeriodBounds period now)))
  = Fulfilled ordersSnapshot ->
  getGeographicData fs now period
  = geo_points
      (fold_left (geo_order_step (List.length (quotes_in_range fs now period) =? 0)%nat)
         ordersSnapshot (fold_left geo_quote_step (quotes_in_range fs now period) [])).
Proof. intros Ho. unfold getGeographicData. rewrite Ho. reflexivity. Qed.

(** X9: the points of [getGeographicData] name each country code once;
    a code is never empty and is in upper case; each point carries the
    name and the region the service gives its code, has counters that are
    not negative and not both zero; and the points come in descending
    order of [quotes]. *)
Theorem geographic_points_well_formed (fs : Firestore) (now : Z) (period : string) :
  List.NoDup (map countryCode (getGeographicData fs now period))
  /\ StronglySorted (fun a b => quotes b <= quotes a) (getGeographicData fs now period)
  /\ Forall (fun p => countryCode p <> ""
                      /\ toUpperCase (countryCode p) = countryCode p
                      /\ country p = getCountryName (countryCode p)
                      /\ region p = getRegion (countryCode p)
                      /\ 0 <= quotes p /\ 0 <= conversions p
                      /\ (0 < quotes p \/ 0 < conversions p))
       (getGeographicData fs now period).
Proof.
  destruct (getDocs fs (geo_range_query "orders" (current (getPeriodBounds period now))))
    as [ordersSnapshot |] eqn:Ho.
  - rewrite (geographic_map fs now period ordersSnapshot Ho).
    destruct (geo_quotes_fold (quotes_in_range fs now period) [] geo_map_empty_ok) as (Hq & _).
    destruct (geo_orders_fold (List.length (quotes_in_range fs now period) =? 0)%nat
                ordersSnapshot _ Hq) as (Hm & _).
    destruct (geo_points_facts _ Hm) as (Hnd & Hs & Hf & _).
    repeat split; assumption.
  - unfold getGeographicData. rewrite Ho.
    repeat split; constructor.
Qed.

(** X10: [getGeographicData] counts every record once.  The [quotes] of
    its points add up to the number of quote records that name a country,
    plus, only when the quotes query gave no record at all, the number of
    orders that name a country; the [conversions] add up to the number of
    orders that name a country and whose status is completed, delivered or
    shipped.  A rejected orders query gives no point. *)
Theorem geographic_totals (fs : Firestore) (now : Z) (period : string) :
  match getDocs fs (geo_range_query "orders" (current (getPeriodBounds period now))) with
  | Rejected => getGeographicData fs now period = []
  | Fulfilled ordersSnapshot =>
      total_of quotes (getGeographicData fs now period)
      = count_if located (quotes_in_range fs now period)
        + (if (List.length (quotes_in_range fs now period) =? 0)%nat
           then count_if located ordersSnapshot else 0)
      /\ total_of conversions (getGeographicData fs now period)
         = count_if (fun d => located d && converted d) ordersSnapshot
  end.
Proof.
  destruct (getDocs fs (geo_range_query "orders" (current (getPeriodBounds period now))))
    as [ordersSnapshot |] eqn:Ho.
  - rewrite (geographic_map fs now period ordersSnapshot Ho).
    destruct (geo_quotes_fold (quotes_in_range fs now period) [] geo_map_empty_ok)
      as (Hq & Hqt & Hqc).
    destruct (geo_orders_fold (List.length (quotes_in_range fs now period) =? 0)%nat
                ordersSnapshot _ Hq) as (Hm & Hot & Hoc).
    destruct (geo_points_facts _ Hm) as (_ & _ & _ & Htq & Htc).
    rewrite Htq, Htc, Hot, Hoc, Hqt, Hqc.
    unfold geo_quotes_total, geo_conversions_total. cbn [total_of fold_right]. split; lia.
  - unfold getGeographicData. rewrite Ho. reflexivity.
Qed.

End GeoShape.

(** ** Queries: equality filters and limits *)

Lemma string_compare_refl s : String.compare s s = Eq.
Proof.
  pose proof (String.compare_antisym s s) as Ha.
  destruct (String.compare s s); [reflexivity | discriminate Ha | discriminate Ha].
Qed.

Lemma matches_where_eq_str (data : gmap string value) f s :
  matches_where data f op_eq (VStr s) = strict_eq_str (field data f) s.
Proof.
  unfold matches_where, strict_eq_str.
  destruct (field data f) as [| | b | x | s' | sec n | fields | items |]; try reflexivity.
  cbn [comparable value_rank value_compare andb]. rewrite Z.eqb_refl. cbn [andb].
  destruct (String.eqb_spec s' s) as [-> | Hne].
  - rewrite string_compare_refl. reflexivity.
  - destruct (String.compare s' s) eqn:Hc; try reflexivity.
    apply String.compare_eq_iff in Hc. contradiction.
Qed.

Lemma order_by_length f desc docs : (List.length (order_by f desc docs) <= List.length docs)%nat.
Proof.
  unfold order_by.
  assert (List.length (Array_sort
             (fun a b => compare_number
                           (value_compare (field (doc_data a) f) (field (doc_data b) f)))
             (List.filter (has_field f) docs)) <= List.length docs)%nat as Hlen.
  { rewrite (Permutation_length (Array_sort_Permutation _ _)). apply filter_length_le. }
  destruct desc; [rewrite length_rev |]; exact Hlen.
Qed.

Lemma run_query_limit docs cs n :
  first_limit cs = Some n -> (List.length (run_query docs cs) <= n)%nat.
Proof. intros Hl. unfold run_query. rewrite Hl. apply firstn_le_length. Qed.

Lemma run_query_length docs cs : (List.length (run_query docs cs) <= List.length docs)%nat.
Proof.
  unfold run_query.
  assert (List.length (matching_docs docs cs) <= List.length docs)%nat as Hm
    by apply filter_length_le.
  set (ordered := match first_orderBy cs with
                  | Some (f, desc) => order_by f desc (matching_docs docs cs)
                  | None => match first_inequality cs with
                            | Some f => order_by f false (matching_docs docs cs)
                            | None => matching_docs docs cs
                            end
                  end).
  assert (List.length ordered <= List.length docs)%nat as Ho.
  { subst ordered. destruct (first_orderBy cs) as [[f desc] |].
    - pose proof (order_by_length f desc (matching_docs docs cs)). lia.
    - destruct (first_inequality cs).
      + pose proof (order_by_length s false (matching_docs docs cs)). lia.
      + exact Hm. }
  destruct (first_limit cs) as [n |]; [| exact Ho].
  pose proof (firstn_le_length n ordered). rewrite length_firstn. lia.
Qed.

Lemma mapi_length {A B} (f : nat -> A -> B) l : forall i, List.length (mapi f i l) = List.length l.
Proof.
  induction l as [| x l IH]; intros i; cbn [mapi List.length]; [reflexivity |].
  rewrite IH. reflexivity.
Qed.

Lemma In_mapi {A B} (f : nat -> A -> B) l y : forall i,
  In y (mapi f i l) -> exists j x, In x l /\ y = f j x.
Proof.
  induction l as [| x l IH]; intros i; cbn [mapi]; [intros [] |].
  intros [<- | Hin].
  - exists i, x. split; [left; reflexivity | reflexivity].
  - destruct (IH _ Hin) as (j & x' & Hx' & ->). exists j, x'. split; [right; exact Hx' | reflexivity].
Qed.

Section FeedSources.
Context `{Platform}.

Lemma safeQuery_limit (fs : Firestore) path constraints fallbackOrderField limitCount snapshot :
  first_limit constraints = Some limitCount ->
  safeQuery fs path constraints fallbackOrderField limitCount = Fulfilled snapshot ->
  (List.length snapshot <= limitCount)%nat
  /\ forall d, In d snapshot -> In d (collection fs path).
Proof.
  intros Hl. unfold safeQuery, getDocs.
  destruct (rejects fs (req_getDocs (query path constraints))).
  - destruct (rejects fs _); [discriminate |]. intros Hs. injection Hs as <-.
    cbn [q_path q_constraints query]. split.
    + apply run_query_limit. reflexivity.
    + intros d Hin. apply run_query_sound in Hin. tauto.
  - intros Hs. injection Hs as <-. cbn [q_path q_constraints query]. split.
    + apply run_query_limit. exact Hl.
    + intros d Hin. apply run_query_sound in Hin. tauto.
Qed.

(** X11: each of the four sources of the feed hands out at most
    [limitCount] items, one per document of its collection, whichever of
    its two queries answers; and the gallery source only hands out media
    whose [relatedEntityType] is the string "gallery", on its filtered
    query as on its unfiltered one. *)
Theorem activity_sources_capped (fs : Firestore) (clock : nat -> Z) (limitCount : nat)
    (currencyCode : string) :
  (forall items,
      getRecentOrdersActivity fs clock limitCount currencyCode = Fulfilled items ->
      (List.length items <= limitCount)%nat
      /\ Forall (fun i => item_type i = order
                          /\ exists d, In d (collection fs "orders") /\ item_id i = doc_id d)
           items)
  /\ (forall items,
        getRecentProductsActivity fs clock limitCount = Fulfilled items ->
        (List.length items <= limitCount)%nat
        /\ Forall (fun i => item_type i = product
                            /\ exists d, In d (collection fs "products") /\ item_id i = doc_id d)
             items)
  /\ (forall items,
        getRecentGalleryActivity fs clock limitCount = Fulfilled items ->
        (List.length items <= limitCount)%nat
        /\ Forall (fun i => item_type i = gallery
                            /\ exists d, In d (collection fs "media")
                                         /\ field (doc_data d) "relatedEntityType" = VStr "gallery"
                                         /\ item_id i = doc_id d)
             items)
  /\ (forall items,
        getRecentUsersActivity fs clock limitCount = Fulfilled items ->
        (List.length items <= limitCount)%nat
        /\ Forall (fun i => item_type i = user
                            /\ exists d, In d (collection fs "users") /\ item_id i = doc_id d)
             items).
Proof.
  assert (forall d : Document, is_gallery d = true ->
            field (doc_data d) "relatedEntityType" = VStr "gallery") as Hgal.
  { intros d. unfold is_gallery, strict_eq_str.
    destruct (field (doc_data d) "relatedEntityType"); try discriminate.
    intros E. apply String.eqb_eq in E. subst. reflexivity. }
  split; [| split; [| split]].
  - intros items. unfold getRecentOrdersActivity.
    destruct (safeQuery fs "orders" _ "createdAt" limitCount) as [snapshot |] eqn:Hq;
      [| discriminate].
    destruct (NumberFormat_currency currencyCode) as [format |]; [| discriminate].
    intros Hi. injection Hi as <-.
    apply safeQuery_limit in Hq as [Hlen Hin]; [| reflexivity].
    split; [rewrite mapi_length; exact Hlen |].
    apply List.Forall_forall. intros i Hi. apply In_mapi in Hi as (j & d & Hd & ->).
    split; [reflexivity |]. exists d. split; [apply Hin; exact Hd | reflexivity].
  - intros items. unfold getRecentProductsActivity.
    destruct (safeQuery fs "products" _ "createdAt" limitCount) as [snapshot |] eqn:Hq;
      [| discriminate].
    intros Hi. injection Hi as <-.
    apply safeQuery_limit in Hq as [Hlen Hin]; [| reflexivity].
    split; [rewrite mapi_length; exact Hlen |].
    apply List.Forall_forall. intros i Hi. apply In_mapi in Hi as (j & d & Hd & ->).
    split; [reflexivity |]. exists d. split; [apply Hin; exact Hd | reflexivity].
  - intros items. unfold getRecentGalleryActivity, getDocs.
    destruct (rejects fs (req_getDocs (query "media" [where_ _ _ _; _; _]))).
    + destruct (rejects fs _); [discriminate |]. intros Hi. injection Hi as <-.
      cbn [q_path q_constraints query]. unfold slice0. split; [apply firstn_le_length |].
      apply List.Forall_forall. intros i Hi. apply In_firstn_In in Hi.
      apply in_map_iff in Hi as ([d i'] & <- & Hi). apply filter_In in Hi as [Hi Hg].
      apply In_mapi in Hi as (j & d' & Hd' & Heq). injection Heq as -> ->.
      split; [reflexivity |]. exists d'. split; [| split; [apply Hgal; exact Hg | reflexivity]].
      apply run_query_sound in Hd'. tauto.
    + intros Hi. injection Hi as <-. cbn [q_path q_constraints query].
      split; [rewrite mapi_length; apply run_query_limit; reflexivity |].
      apply List.Forall_forall. intros i Hi. apply In_mapi in Hi as (j & d & Hd & ->).
      apply run_query_sound in Hd as [Hd Hm].
      split; [reflexivity |]. exists d. split; [exact Hd | split; [| reflexivity]].
      unfold matches_all in Hm. cbn [forallb matches] in Hm.
      apply andb_prop in Hm as [Hm _]. rewrite matches_where_eq_str in Hm.
      apply Hgal. exact Hm.
  - intros items. unfold getRecentUsersActivity.
    destruct (safeQuery fs "users" _ "createdAt" limitCount) as [snapshot |] eqn:Hq;
      [| discriminate].
    intros Hi. injection Hi as <-.
    apply safeQuery_limit in Hq as [Hlen Hin]; [| reflexivity].
    split; [rewrite mapi_length; exact Hlen |].
    apply List.Forall_forall. intros i Hi. apply In_mapi in Hi as (j & d & Hd & ->).
    split; [reflexivity |]. exists d. split; [apply Hin; exact Hd | reflexivity].
Qed.

End FeedSources.

(** ** Dashboard totals: the two paths of each count *)

Lemma matching_docs_all docs : matching_docs docs [] = docs.
Proof.
  unfold matching_docs. induction docs as [| d rest IH]; [reflexivity |].
  cbn [List.filter matches_all forallb]. rewrite IH. reflexivity.
Qed.

Lemma run_query_all docs : run_query docs [] = docs.
Proof. unfold run_query. cbn [first_orderBy first_inequality first_limit]. apply matching_docs_all. Qed.

Lemma count_loop_count_if test snapshot :
  count_loop test snapshot = count_if (fun d => test (doc_data d)) snapshot.
Proof.
  unfold count_loop, count_if.
  assert (forall n,
            fold_left (fun count d => if test (doc_data d) then count + 1 else count) snapshot n
            = n + Z.of_nat (List.length (List.filter (fun d => test (doc_data d)) snapshot)))
    as Hgen.
  { induction snapshot as [| d rest IH]; intros n; cbn [fold_left List.filter].
    - cbn [List.length Z.of_nat]. lia.
    - rewrite IH. destruct (test (doc_data d)); cbn [List.length]; lia. }
  rewrite Hgen. lia.
Qed.

Lemma matching_docs_eq_str docs f s :
  matching_docs docs [where_ f op_eq (VStr s)]
  = List.filter (fun d => strict_eq_str (field (doc_data d) f) s) docs.
Proof.
  unfold matching_docs. apply filter_ext. intros d.
  unfold matches_all. cbn [forallb matches]. rewrite matches_where_eq_str.
  apply andb_true_r.
Qed.

Section DashboardPaths.
Context `{Platform}.

(** X12: [getCollectionCount] gives the number of documents of the
    collection on its server-side path as on its fallback path, and is
    rejected only when both requests are. *)
Theorem collection_count_is_size (fs : Firestore) (path : string) :
  getCollectionCount fs path
  = if rejects fs (req_count (query path [])) && rejects fs (req_getDocs (query path []))
    then Rejected
    else Fulfilled (Z.of_nat (List.length (collection fs path))).
Proof.
  unfold getCollectionCount, getCountFromServer, getDocs.
  cbn [q_path q_constraints query]. rewrite matching_docs_all, run_query_all.
  destruct (rejects fs (req_count _)), (rejects fs (req_getDocs _)); reflexivity.
Qed.

(** X13: the gallery count and the pending-reviews count are the number
    of documents whose field is exactly the string asked for, on the
    filtered server-side count as on the scan of the whole collection. *)
Theorem filtered_counts_agree (fs : Firestore) :
  getGalleryImagesCount fs
  = (if rejects fs (req_count (query "media"
                                 [where_ "relatedEntityType" op_eq (VStr "gallery")]))
        && rejects fs (req_getDocs (query "media" []))
     then Rejected
     else Fulfilled
            (count_if (fun d => strict_eq_str (field (doc_data d) "relatedEntityType") "gallery")
               (collection fs "media")))
  /\ getPendingReviewsCount fs
     = (if rejects fs (req_count (query "productReviews"
                                    [where_ "status" op_eq (VStr "pending")]))
           && rejects fs (req_getDocs (query "productReviews" []))
        then Rejected
        else Fulfilled
               (count_if (fun d => strict_eq_str (field (doc_data d) "status") "pending")
                  (collection fs "productReviews"))).
Proof.
  split.
  - unfold getGalleryImagesCount, getCountFromServer, getDocs.
    cbn [q_path q_constraints query].
    rewrite matching_docs_eq_str, run_query_all.
    destruct (rejects fs (req_count _)), (rejects fs (req_getDocs _));
      rewrite ?count_loop_count_if; reflexivity.
  - unfold getPendingReviewsCount, getCountFromServer, getDocs.
    cbn [q_path q_constraints query].
    rewrite matching_docs_eq_str, run_query_all.
    destruct (rejects fs (req_count _)), (rejects fs (req_getDocs _));
      rewrite ?count_loop_count_if; reflexivity.
Qed.

Lemma ordersSummary_loop_facts snapshot :
  forall pending (revenue_ : float),
    fst (fold_left ordersSummary_step snapshot (pending, revenue_))
    = pending
      + count_if (fun d => String.eqb
                             (toLowerCase (js_toString (js_or (field (doc_data d) "status")
                                                          (VStr "pending")))) "pending")
          snapshot.
Proof.
  unfold count_if. induction snapshot as [| d rest IH]; intros pending revenue_.
  - cbn [fold_left fst List.filter List.length Z.of_nat]. lia.
  - cbn [fold_left List.filter]. unfold ordersSummary_step at 2. cbv beta iota zeta.
    rewrite IH.
    destruct (String.eqb _ "pending"); cbn [List.length]; lia.
Qed.

Lemma pending_status_lower (d : Document) :
  strict_eq_str (field (doc_data d) "status") "pending" = true ->
  String.eqb (toLowerCase (js_toString (js_or (field (doc_data d) "status") (VStr "pending"))))
    "pending" = true.
Proof.
  unfold strict_eq_str. destruct (field (doc_data d) "status"); try discriminate.
  intros E. apply String.eqb_eq in E. subst. reflexivity.
Qed.

Lemma count_if_le {A} (p q : A -> bool) l :
  (forall x, p x = true -> q x = true) -> count_if p l <= count_if q l.
Proof.
  intros Hpq. unfold count_if. induction l as [| x l IH]; cbn [List.filter]; [lia |].
  destruct (p x) eqn:Ep.
  - rewrite (Hpq x Ep). cbn [List.length]. lia.
  - destruct (q x); cbn [List.length]; lia.
Qed.

Lemma count_if_bounds {A} (p : A -> bool) l : 0 <= count_if p l <= Z.of_nat (List.length l).
Proof. unfold count_if. pose proof (filter_length_le p l). lia. Qed.

Lemma count_if_ext_in {A} (p q : A -> bool) l :
  Forall (fun x => p x = q x) l -> count_if p l = count_if q l.
Proof.
  unfold count_if. induction 1 as [| x l Hx _ IH]; [reflexivity |].
  cbn [List.filter]. rewrite Hx. destruct (q x); cbn [List.length]; lia.
Qed.

(** X14: the two paths of [getOrdersSummary] agree on the total; the scan
    counts as pending every order the server-side count does, and also the
    orders without a status and those whose status reads "pending" in
    another letter case, so its pending count is at least the server's.
    The two counts coincide when every order has a non-empty lower-case
    string as status. *)
Theorem orders_summary_paths (orders_ : list Document) :
  summary_total (ordersSummary_server orders_) = Z.of_nat (List.length orders_)
  /\ summary_total (ordersSummary_scan orders_) = Z.of_nat (List.length orders_)
  /\ 0 <= summary_pending (ordersSummary_server orders_)
     <= summary_pending (ordersSummary_scan orders_)
  /\ summary_pending (ordersSummary_scan orders_) <= Z.of_nat (List.length orders_)
  /\ (Forall (fun d => exists s, field (doc_data d) "status" = VStr s
                                 /\ s <> "" /\ toLowerCase s = s) orders_ ->
      summary_pending (ordersSummary_scan orders_)
      = summary_pending (ordersSummary_server orders_)).
Proof.
  assert (summary_pending (ordersSummary_scan orders_)
          = count_if (fun d => String.eqb
                                 (toLowerCase (js_toString (js_or (field (doc_data d) "status")
                                                              (VStr "pending")))) "pending")
              orders_) as Hscan.
  { unfold ordersSummary_scan.
    pose proof (ordersSummary_loop_facts orders_ 0 0%float) as Hl.
    destruct (fold_left ordersSummary_step orders_ (0, 0%float)) as [pending revenue_].
    cbn [summary_pending fst] in *. rewrite Hl. reflexivity. }
  assert (summary_pending (ordersSummary_server orders_)
          = count_if (fun d => strict_eq_str (field (doc_data d) "status") "pending") orders_)
    as Hserver.
  { unfold ordersSummary_server. cbn [summary_pending].
    rewrite matching_docs_eq_str. reflexivity. }
  split; [| split; [| split; [| split]]].
  - unfold ordersSummary_server. cbn [summary_total]. rewrite matching_docs_all. reflexivity.
  - unfold ordersSummary_scan.
    destruct (fold_left ordersSummary_step orders_ (0, 0%float)). reflexivity.
  - rewrite Hscan, Hserver. split; [apply count_if_bounds |].
    apply count_if_le. intros d. apply pending_status_lower.
  - rewrite Hscan. apply count_if_bounds.
  - intros Hstatus. rewrite Hscan, Hserver. apply count_if_ext_in.
    eapply List.Forall_impl; [| exact Hstatus]. cbn. intros d (s & Hs & Hne & Hlow).
    rewrite Hs. unfold js_or. cbn [truthy strict_eq_str].
    destruct (String.eqb_spec s "") as [-> | _]; [contradiction |].
    cbn [negb js_toString]. rewrite Hlow. reflexivity.
Qed.

Lemma getOrdersSummary_paths (fs : Firestore) currencyCode summary :
  getOrdersSummary fs currencyCode = Fulfilled summary ->
  summary = ordersSummary_server (collection fs "orders")
  \/ summary = ordersSummary_scan (collection fs "orders").
Proof.
  unfold getOrdersSummary, getCountFromServer, getAggregateFromServer, getDocs.
  cbn [q_path q_constraints query]. rewrite run_query_all.
  destruct (rejects fs (req_count (query "orders" []))),
           (rejects fs (req_count (query "orders" [where_ "status" op_eq (VStr "pending")]))),
           (rejects fs (req_aggregate (query "orders" []) "total")),
           (rejects fs (req_getDocs (query "orders" [])));
    intros Hs; try discriminate Hs; injection Hs as <-;
    try (right; reflexivity); left; reflexivity.
Qed.

End DashboardPaths.

(** ** Snapshots: all or nothing *)

Ltac settle_outcomes :=
  repeat match goal with
         | |- context [match ?x with Fulfilled _ => _ | Rejected => _ end] => destruct x
         end.

Section Snapshots.
Context `{Platform}.

Lemma feed_needs_users (fs : Firestore) clock currencyCode maxItems :
  rejects fs (req_getDocs (query "users" [orderBy "createdAt" true; limit 10])) = true ->
  getRecentActivity fs clock currencyCode maxItems = Rejected.
Proof.
  intros Husers.
  assert (getRecentUsersActivity fs (clock user) 10 = Rejected) as Hu.
  { unfold getRecentUsersActivity, safeQuery, getDocs. rewrite Husers. reflexivity. }
  unfold getRecentActivity. rewrite Hu. settle_outcomes; reflexivity.
Qed.

Lemma feed_needs_formatter (fs : Firestore) clock currencyCode maxItems :
  NumberFormat_currency currencyCode = None ->
  getRecentActivity fs clock currencyCode maxItems = Rejected.
Proof.
  intros Hfmt.
  assert (getRecentOrdersActivity fs (clock order) 10 currencyCode = Rejected) as Ho.
  { unfold getRecentOrdersActivity. rewrite Hfmt. settle_outcomes; reflexivity. }
  unfold getRecentActivity. rewrite Ho. reflexivity.
Qed.

(** X15: the dashboard is all or nothing.  When one of its six fetches is
    rejected, [getDashboardStats] hands out the empty snapshot: every total
    is 0 and the currency is "USD", whatever the other fetches found and
    whatever currency was resolved.  This is so when the store turns down
    the query of the users' feed, and when the resolved currency code is one
    [Intl.NumberFormat] refuses. *)
Theorem dashboard_all_or_nothing (fs : Firestore) (clock : AdminActivityType -> nat -> Z)
    (currencyCode : string) :
  (getCollectionCount fs "products" = Rejected
   \/ getOrdersSummary fs currencyCode = Rejected
   \/ getGalleryImagesCount fs = Rejected
   \/ getCollectionCount fs "users" = Rejected
   \/ getPendingReviewsCount fs = Rejected
   \/ getRecentActivity fs clock currencyCode 8 = Rejected ->
   getDashboardStats fs clock currencyCode = empty_dashboard)
  /\ (rejects fs (req_getDocs (query "users" [orderBy "createdAt" true; limit 10])) = true ->
      getDashboardStats fs clock currencyCode = empty_dashboard)
  /\ (NumberFormat_currency currencyCode = None ->
      getDashboardStats fs clock currencyCode = empty_dashboard).
Proof.
  assert (getCollectionCount fs "products" = Rejected
          \/ getOrdersSummary fs currencyCode = Rejected
          \/ getGalleryImagesCount fs = Rejected
          \/ getCollectionCount fs "users" = Rejected
          \/ getPendingReviewsCount fs = Rejected
          \/ getRecentActivity fs clock currencyCode 8 = Rejected ->
          getDashboardStats fs clock currencyCode = empty_dashboard) as Hany.
  { unfold getDashboardStats.
    intros [-> | [-> | [-> | [-> | [-> | ->]]]]]; settle_outcomes; reflexivity. }
  split; [exact Hany | split].
  - intros Husers. apply Hany. do 5 right. apply feed_needs_users. exact Husers.
  - intros Hfmt. apply Hany. do 5 right. apply feed_needs_formatter. exact Hfmt.
Qed.

(** X16: [getAnalyticsSnapshot] is all or nothing too.  When its nine
    fetches are fulfilled it lists six metrics, in the order totalOrders,
    revenue, averageOrderValue, newCustomers, productsUpdated,
    galleryUploads, each with the change [calculateChange] computes from
    its two values; when one fetch is rejected (the users' feed query, for
    one) it lists no metric and no activity, and keeps the period and the
    resolved currency. *)
Theorem analytics_all_or_nothing (fs : Firestore) (clock : nat -> nat -> Z)
    (feedClock : AdminActivityType -> nat -> Z) (now : Z) (currencyCode period : string) :
  analytics_period (getAnalyticsSnapshot fs clock feedClock now currencyCode period) = period
  /\ analytics_currencyCode (getAnalyticsSnapshot fs clock feedClock now currencyCode period)
     = currencyCode
  /\ (map metric_key
        (analytics_metrics (getAnalyticsSnapshot fs clock feedClock now currencyCode period))
      = ["totalOrders"; "revenue"; "averageOrderValue"; "newCustomers"; "productsUpdated";
         "galleryUploads"]
      \/ analytics_metrics (getAnalyticsSnapshot fs clock feedClock now currencyCode period) = []
         /\ analytics_recentActivity
              (getAnalyticsSnapshot fs clock feedClock now currencyCode period) = [])
  /\ Forall (fun m => metric_changePercentage m
                      = calculateChange (metric_currentValue m) (metric_previousValue m))
       (analytics_metrics (getAnalyticsSnapshot fs clock feedClock now currencyCode period))
  /\ (getRecentActivity fs feedClock currencyCode 10 = Rejected ->
      analytics_metrics (getAnalyticsSnapshot fs clock feedClock now currencyCode period) = [])
  /\ (rejects fs (req_getDocs (query "users" [orderBy "createdAt" true; limit 10])) = true ->
      analytics_metrics (getAnalyticsSnapshot fs clock feedClock now currencyCode period) = []).
Proof.
  assert (getRecentActivity fs feedClock currencyCode 10 = Rejected ->
          analytics_metrics (getAnalyticsSnapshot fs clock feedClock now currencyCode period)
          = []) as Hfeed.
  { intros Hr. unfold getAnalyticsSnapshot. rewrite Hr. settle_outcomes; reflexivity. }
  split; [| split; [| split; [| split; [| split]]]].
  - unfold getAnalyticsSnapshot. settle_outcomes; reflexivity.
  - unfold getAnalyticsSnapshot. settle_outcomes; reflexivity.
  - unfold getAnalyticsSnapshot. settle_outcomes;
      first [left; reflexivity | right; split; reflexivity].
  - unfold getAnalyticsSnapshot. settle_outcomes; cbn [analytics_metrics];
      repeat constructor.
  - exact Hfeed.
  - intros Husers. apply Hfeed. apply feed_needs_users. exact Husers.
Qed.

(** X17: with a period tag outside the four known ones the previous
    range is empty, so every metric of [getAnalyticsSnapshot] is compared
    with 0: its change is 0 when its current value is 0 too, and [null]
    otherwise. *)
Theorem unknown_period_metrics (fs : Firestore) (clock : nat -> nat -> Z)
    (feedClock : AdminActivityType -> nat -> Z) (now : Z) (currencyCode period : string) :
  ~ known_period period ->
  Forall (fun m => metric_previousValue m = 0%float
                   /\ metric_changePercentage m
                      = if (metric_currentValue m =? 0)%float then Some 0%float else None)
    (analytics_metrics (getAnalyticsSnapshot fs clock feedClock now currencyCode period)).
Proof.
  intros Hn. destruct (unknown_period_eqb period Hn) as (H1 & H2 & H3 & H4).
  assert (range_end (previous (getPeriodBounds period now))
          <= range_start (previous (getPeriodBounds period now))) as Hempty.
  { unfold getPeriodBounds. rewrite H1, H2, H3, H4. cbn [previous range_start range_end]. lia. }
  unfold getAnalyticsSnapshot.
  set (bounds := getPeriodBounds period now) in *.
  destruct (aggregateOrders fs (clock 0%nat) (current bounds)) as [currentOrders |];
    [| constructor].
  destruct (aggregateOrders fs (clock 1%nat) (previous bounds)) as [previousOrders |] eqn:Hpo;
    [| constructor].
  apply (aggregateOrders_empty_range fs _ _ _ Hempty) in Hpo. subst previousOrders.
  destruct (countDocumentsInRange fs (clock 2%nat) "users" "createdAt" (current bounds) no_options)
    as [currentUsers |]; [| constructor].
  destruct (countDocumentsInRange fs (clock 3%nat) "users" "createdAt" (previous bounds)
              no_options) as [previousUsers |] eqn:Hpu; [| constructor].
  apply (countDocumentsInRange_empty_range fs _ _ _ _ _ _ Hempty) in Hpu. subst previousUsers.
  destruct (countDocumentsInRange fs (clock 4%nat) "products" "updatedAt" (current bounds)
              products_options) as [currentProducts |]; [| constructor].
  destruct (countDocumentsInRange fs (clock 5%nat) "products" "updatedAt" (previous bounds)
              products_options) as [previousProducts |] eqn:Hpp; [| constructor].
  apply (countDocumentsInRange_empty_range fs _ _ _ _ _ _ Hempty) in Hpp. subst previousProducts.
  destruct (countDocumentsInRange fs (clock 6%nat) "media" "uploadedAt" (current bounds)
              gallery_options) as [currentGallery |]; [| constructor].
  destruct (countDocumentsInRange fs (clock 7%nat) "media" "uploadedAt" (previous bounds)
              gallery_options) as [previousGallery |] eqn:Hpg; [| constructor].
  apply (countDocumentsInRange_empty_range fs _ _ _ _ _ _ Hempty) in Hpg. subst previousGallery.
  destruct (getRecentActivity fs feedClock currencyCode 10) as [recentActivity |];
    [| constructor].
  cbn [analytics_metrics agg_count agg_revenue agg_average].
  assert (forall key labelKey format x,
            metric_previousValue (make_metric key labelKey format x 0%float) = 0%float
            /\ metric_changePercentage (make_metric key labelKey format x 0%float)
               = if (x =? 0)%float then Some 0%float else None) as Hmetric.
  { intros key labelKey format x. split; reflexivity. }
  change (number_of_Z 0) with 0%float.
  repeat (apply List.Forall_cons; [apply Hmetric |]). apply List.Forall_nil.
Qed.

End Snapshots.

(** With every request on the users collection turned down, the one
    product of the store is not reported: the dashboard is empty. *)
Example dashboard_empty_without_users :
  getCollectionCount (activity_store ["users"]) "products" = Fulfilled 1
  /\ @getDashboardStats utc_platform (activity_store ["users"]) (fun _ _ => sample_now) "EUR"
     = empty_dashboard.
Proof. split; vm_compute; reflexivity. Qed.

(** ** Top products *)

Lemma pairwise_Permutation {A} (R : A -> A -> Prop) l1 l2 :
  (forall a b, R a b -> R b a) ->
  Permutation l1 l2 -> pairwise R l1 -> pairwise R l2.
Proof.
  intros Hsym. induction 1 as [| x l1 l2 Hp IH | x y l | l1 l2 l3 _ IH1 _ IH2].
  - intros _. exact I.
  - cbn [pairwise]. intros [Hx Hl]. split; [| apply IH; exact Hl].
    eapply Permutation_Forall; [exact Hp | exact Hx].
  - cbn [pairwise]. intros (Hy & Hx & Hl).
    apply Forall_cons_iff in Hy as [Hyx Hy].
    repeat split; try assumption. constructor; [apply Hsym; exact Hyx | exact Hx].
  - intros H1. apply IH2, IH1, H1.
Qed.

Lemma pairwise_firstn {A} (R : A -> A -> Prop) n : forall l,
  pairwise R l -> pairwise R (firstn n l).
Proof.
  induction n as [| n IH]; intros [| x l]; cbn [firstn pairwise]; try tauto.
  intros [Hx Hl]. split; [| apply IH; exact Hl].
  apply List.Forall_forall. intros y Hy. rewrite List.Forall_forall in Hx.
  apply Hx. eapply In_firstn_In. exact Hy.
Qed.

Lemma pairwise_app_single {A} (R : A -> A -> Prop) l x :
  pairwise R l -> Forall (fun y => R y x) l -> pairwise R (l ++ [x]).
Proof.
  induction l as [| y l IH]; cbn [app pairwise].
  - intros _ _. split; [constructor | exact I].
  - intros [Hy Hl] Hx. apply Forall_cons_iff in Hx as [Hyx Hx].
    split; [| apply IH; assumption].
    apply Forall_app. split; [exact Hy | constructor; [exact Hyx | constructor]].
Qed.

Lemma SFeqb_sym a b : SFeqb a b = SFeqb b a.
Proof.
  unfold SFeqb, SFcompare.
  destruct a as [sa | sa | | sa ma ea], b as [sb | sb | | sb mb eb];
    try reflexivity; try (destruct sa; reflexivity); try (destruct sb; reflexivity);
    try (destruct sa, sb; reflexivity).
  rewrite (Z.compare_antisym ea eb).
  pose proof (Pos.compare_cont_antisym mb ma Eq) as Hp. cbn [CompOpp] in Hp.
  rewrite <- Hp.
  destruct sa, sb; try reflexivity;
    destruct (ea ?= eb); cbn [CompOpp]; try reflexivity;
    destruct (Pos.compare_cont Eq mb ma); reflexivity.
Qed.

Lemma same_value_zero_sym a b : same_value_zero a b = same_value_zero b a.
Proof.
  destruct a, b; cbn [same_value_zero]; try reflexivity.
  - destruct b, b0; reflexivity.
  - rewrite (andb_comm (PrimFloat.is_nan x)). f_equal.
    rewrite !FloatAxioms.eqb_spec. apply SFeqb_sym.
  - apply String.eqb_sym.
Qed.

Lemma ValueMap_set_keys {V} (m : ValueMap V) k v :
  map fst (ValueMap_set m k v)
  = match ValueMap_get m k with
    | Some _ => map fst m
    | None => (map fst m ++ [k])%list
    end.
Proof.
  induction m as [| [k' v'] rest IH]; cbn [ValueMap_set ValueMap_get map fst app];
    [reflexivity |].
  destruct (same_value_zero k' k); [reflexivity |].
  cbn [map fst]. rewrite IH. destruct (ValueMap_get rest k); reflexivity.
Qed.

Lemma ValueMap_get_None {V} (m : ValueMap V) k :
  ValueMap_get m k = None -> Forall (fun k' => other_product k' k) (map fst m).
Proof.
  induction m as [| [k' v'] rest IH]; cbn [ValueMap_get map fst]; [constructor |].
  destruct (same_value_zero k' k) eqn:E; [discriminate |].
  intros Hn. constructor; [exact E | apply IH; exact Hn].
Qed.

Lemma ValueMap_get_In {V} (m : ValueMap V) k v :
  ValueMap_get m k = Some v -> exists k', In (k', v) m.
Proof.
  induction m as [| [k' v'] rest IH]; cbn [ValueMap_get]; [discriminate |].
  destruct (same_value_zero k' k).
  - intros Hv. injection Hv as <-. exists k'. left. reflexivity.
  - intros Hv. destruct (IH Hv) as (k0 & Hin). exists k0. right. exact Hin.
Qed.

Lemma In_ValueMap_set {V} (m : ValueMap V) k v k' v' :
  In (k', v') (ValueMap_set m k v) -> v' = v \/ In (k', v') m.
Proof.
  induction m as [| [k0 v0] rest IH]; cbn [ValueMap_set].
  - intros [Heq | []]. injection Heq as <- <-. left. reflexivity.
  - destruct (same_value_zero k0 k).
    + intros [Heq | Hin]; [injection Heq as <- <-; left; reflexivity | right; right; exact Hin].
    + intros [Heq | Hin]; [right; left; exact Heq |].
      destruct (IH Hin) as [Hnew | Hold]; [left; exact Hnew | right; right; exact Hold].
Qed.

Section TopProductsFacts.
Context `{Platform}.

(** What the loops keep: keys that [Map] tells apart, and entries without
    views and with at least one item. *)
Lemma top_item_step_ok productStats item productStats' :
  pairwise other_product (map fst productStats) ->
  Forall (fun entry => stats_ok (snd entry)) productStats ->
  top_item_step productStats item = Fulfilled productStats' ->
  pairwise other_product (map fst productStats')
  /\ Forall (fun entry => stats_ok (snd entry)) productStats'.
Proof.
  intros Hkeys Hok Hstep.
  assert (forall id fresh,
            stats_views fresh = 0 -> stats_orders fresh = 0 ->
            let current := option_or (ValueMap_get productStats id) fresh in
            forall name rev,
              pairwise other_product
                (map fst (ValueMap_set productStats id
                            {| stats_name := name; stats_revenue := rev;
                               stats_orders := stats_orders current + 1;
                               stats_views := stats_views current |}))
              /\ Forall (fun entry => stats_ok (snd entry))
                   (ValueMap_set productStats id
                      {| stats_name := name; stats_revenue := rev;
                         stats_orders := stats_orders current + 1;
                         stats_views := stats_views current |})) as Hset.
  { intros id fresh Hv Ho current name rev. split.
    - rewrite ValueMap_set_keys.
      destruct (ValueMap_get productStats id) eqn:Hget; [exact Hkeys |].
      apply pairwise_app_single; [exact Hkeys |].
      apply ValueMap_get_None. exact Hget.
    - apply List.Forall_forall. intros [k st] Hin.
      apply In_ValueMap_set in Hin as [-> | Hin].
      + subst current. unfold option_or.
        destruct (ValueMap_get productStats id) as [cur |] eqn:Hget.
        * apply ValueMap_get_In in Hget as (k' & Hin).
          rewrite List.Forall_forall in Hok. destruct (Hok _ Hin) as [Hcv Hco].
          cbn [snd] in *. split; cbn [snd stats_views stats_orders]; [exact Hcv | lia].
        * split; cbn [snd stats_views stats_orders]; [exact Hv | rewrite Ho; lia].
      + rewrite List.Forall_forall in Hok. apply (Hok _ Hin). }
  unfold top_item_step in Hstep.
  destruct item; try discriminate Hstep; injection Hstep as <-; apply Hset; reflexivity.
Qed.

Lemma top_items_loop_ok items : forall productStats productStats',
  pairwise other_product (map fst productStats) ->
  Forall (fun entry => stats_ok (snd entry)) productStats ->
  top_items_loop items productStats = Fulfilled productStats' ->
  pairwise other_product (map fst productStats')
  /\ Forall (fun entry => stats_ok (snd entry)) productStats'.
Proof.
  induction items as [| item rest IH]; intros m m' Hkeys Hok; cbn [top_items_loop].
  - intros Hm. injection Hm as <-. split; assumption.
  - destruct (top_item_step m item) as [m1 |] eqn:Hstep; [| discriminate].
    destruct (top_item_step_ok m item m1 Hkeys Hok Hstep) as [Hkeys1 Hok1].
    apply IH; assumption.
Qed.

Lemma top_docs_loop_ok docs : forall productStats productStats',
  pairwise other_product (map fst productStats) ->
  Forall (fun entry => stats_ok (snd entry)) productStats ->
  top_docs_loop docs productStats = Fulfilled productStats' ->
  pairwise other_product (map fst productStats')
  /\ Forall (fun entry => stats_ok (snd entry)) productStats'.
Proof.
  induction docs as [| d rest IH]; intros m m' Hkeys Hok; cbn [top_docs_loop].
  - intros Hm. injection Hm as <-. split; assumption.
  - destruct (top_doc_step m d) as [m1 |] eqn:Hstep; [| discriminate].
    assert (pairwise other_product (map fst m1)
            /\ Forall (fun entry => stats_ok (snd entry)) m1) as [Hkeys1 Hok1].
    { unfold top_doc_step in Hstep.
      destruct (js_or (field (doc_data d) "items") (VArr [])); try discriminate Hstep.
      apply (top_items_loop_ok items m m1 Hkeys Hok Hstep). }
    apply IH; assumption.
Qed.

(** X18: [getTopProducts] hands out at most [limit] products, no two with
    the same product id; and since no view is ever recorded, each one
    reports the estimates: ten views per counted item and a conversion rate
    of 10, with at least one item counted. *)
Theorem top_products_estimated (fs : Firestore) (now : Z) (period : string) (limit_ : nat) :
  (List.length (getTopProducts fs now period limit_) <= limit_)%nat
  /\ pairwise other_product (map productId (getTopProducts fs now period limit_))
  /\ Forall (fun p => 1 <= product_orders p
                      /\ product_views p = 10 * product_orders p
                      /\ conversionRate p = 10%float)
       (getTopProducts fs now period limit_).
Proof.
  unfold getTopProducts.
  destruct (getDocs fs (top_query (current (getPeriodBounds period now)))) as [snapshot |];
    [| split; [apply Nat.le_0_l | split; [exact I | constructor]]].
  destruct (top_docs_loop snapshot []) as [productStats |] eqn:Hloop;
    [| split; [apply Nat.le_0_l | split; [exact I | constructor]]].
  destruct (top_docs_loop_ok snapshot [] productStats I (List.Forall_nil _) Hloop)
    as [Hkeys Hok].
  pose proof (Array_sort_Permutation by_revenue_desc (map top_product productStats)) as Hperm.
  assert (map productId (map top_product productStats) = map fst productStats) as Hids.
  { rewrite map_map. apply map_ext. intros [k st]. reflexivity. }
  unfold slice0. split; [apply firstn_le_length | split].
  - rewrite <- firstn_map. apply pairwise_firstn.
    eapply pairwise_Permutation; [| apply Permutation_map; symmetry; exact Hperm |].
    + unfold other_product. intros a b Hab. rewrite same_value_zero_sym. exact Hab.
    + rewrite Hids. exact Hkeys.
  - apply List.Forall_forall. intros p Hp. apply In_firstn_In in Hp.
    apply (Permutation_in _ Hperm) in Hp. apply in_map_iff in Hp as ([k st] & <- & Hin).
    rewrite List.Forall_forall in Hok. destruct (Hok _ Hin) as [Hv Ho]. cbn [snd] in *.
    unfold top_product. cbn [product_orders product_views conversionRate].
    rewrite Hv. cbn [Z.eqb Z.ltb Z.compare]. repeat split; lia.
Qed.

End TopProductsFacts.

(** ** Analytics logger *)

Lemma getGeoData_cached timezone response s cached :
  geoDataCache s = Some cached -> getGeoData timezone response s = (s, cached).
Proof. intros Hc. unfold getGeoData. rewrite Hc. reflexivity. Qed.

Lemma getGeoData_fills timezone response s :
  geoDataCache (fst (getGeoData timezone response s))
  = Some (snd (getGeoData timezone response s)).
Proof.
  unfold getGeoData. destruct (geoDataCache s) as [cached |] eqn:Hc; [exact Hc |].
  destruct (getGeoFromIP timezone response s). reflexivity.
Qed.

Lemma logger_run_cached timezone cached responses : forall s,
  geoDataCache s = Some cached ->
  logger_run timezone s (map get_geo responses)
  = (s, repeat cached (List.length responses)).
Proof.
  induction responses as [| r rest IH]; intros s Hc; [reflexivity |].
  cbn [map logger_run List.length repeat].
  rewrite (getGeoData_cached timezone r s cached Hc), (IH s Hc). reflexivity.
Qed.

Lemma logger_run_app timezone es1 : forall s es2,
  logger_run timezone s (es1 ++ es2)
  = let '(s1, out1) := logger_run timezone s es1 in
    let '(s2, out2) := logger_run timezone s1 es2 in
    (s2, (out1 ++ out2)%list).
Proof.
  induction es1 as [| [response |] es1 IH]; intros s es2; cbn [app logger_run].
  - destruct (logger_run timezone s es2). reflexivity.
  - destruct (getGeoData timezone response s) as [s1 data]. rewrite IH.
    destruct (logger_run timezone s1 es1) as [s2 out].
    destruct (logger_run timezone s2 es2). reflexivity.
  - apply IH.
Qed.

(** X19: the visitor's location is looked up once.  Of any number of
    [getGeoData()] calls made one after the other, only the first sends a
    request to the lookup service; every call returns what the first one
    found, whatever the service would have answered later, also when the
    first lookup failed and found nothing.  After [clearGeoCache()] the next
    call looks up again. *)
Theorem geo_lookup_once (timezone : option string) (first : outcome value)
    (later : list (outcome value)) (again : outcome value) :
  snd (logger_run timezone initial_logger (map get_geo (first :: later)))
  = repeat (snd (getGeoData timezone first initial_logger)) (S (List.length later))
  /\ ipLookups (fst (logger_run timezone initial_logger (map get_geo (first :: later)))) = 1%nat
  /\ snd (logger_run timezone initial_logger
            (map get_geo (first :: later) ++ [clear_geo; get_geo again]))
     = (repeat (snd (getGeoData timezone first initial_logger)) (S (List.length later))
        ++ [snd (getGeoData timezone again initial_logger)])%list
  /\ ipLookups (fst (logger_run timezone initial_logger
                       (map get_geo (first :: later) ++ [clear_geo; get_geo again]))) = 2%nat.
Proof.
  pose proof (getGeoData_fills timezone first initial_logger) as Hfill.
  assert (ipLookups (fst (getGeoData timezone first initial_logger)) = 1%nat) as Hcount.
  { unfold getGeoData, getGeoFromIP, initial_logger.
    cbn [geoDataCache geoFetchAttempted ipLookups].
    destruct first as [[] |]; reflexivity. }
  destruct (getGeoData timezone first initial_logger) as [s1 data] eqn:Hfirst.
  cbn [fst snd] in *.
  assert (logger_run timezone initial_logger (map get_geo (first :: later))
          = (s1, data :: repeat data (List.length later))) as Hrun.
  { cbn [map logger_run]. rewrite Hfirst.
    rewrite (logger_run_cached timezone data later s1 Hfill). reflexivity. }
  assert (getGeoData timezone again (clearGeoCache s1)
          = ({| geoDataCache := Some (snd (getGeoData timezone again initial_logger));
                geoFetchAttempted := true; ipLookups := 2 |},
             snd (getGeoData timezone again initial_logger))) as Hagain.
  { unfold getGeoData, getGeoFromIP, clearGeoCache, initial_logger.
    cbn [geoDataCache geoFetchAttempted ipLookups]. rewrite Hcount.
    destruct again as [[] |]; reflexivity. }
  rewrite logger_run_app, Hrun. cbn [logger_run]. rewrite Hagain.
  cbn [fst snd ipLookups repeat].
  split; [reflexivity | split; [exact Hcount | split; reflexivity]].
Qed.

(** ** Country tables *)

Lemma lookup_table_In table k v : lookup_table table k = Some v -> In (k, v) table.
Proof.
  induction table as [| [k' v'] rest IH]; cbn [lookup_table]; [discriminate |].
  destruct (String.eqb_spec k' k) as [-> | _].
  - intros Hv. injection Hv as <-. left. reflexivity.
  - intros Hv. right. apply IH. exact Hv.
Qed.

Lemma assoc_In {V} (table : list (string * V)) k v : assoc table k = Some v -> In (k, v) table.
Proof.
  induction table as [| [k' v'] rest IH]; cbn [assoc]; [discriminate |].
  destruct (String.eqb_spec k' k) as [-> | _].
  - intros Hv. injection Hv as <-. left. reflexivity.
  - intros Hv. right. apply IH. exact Hv.
Qed.

Ltac each_entry Hin :=
  repeat (destruct Hin as [Hin | Hin]; [injection Hin as <- <- |]); [.. | destruct Hin].

Section CountryCodes.
Context `{Platform}.

Lemma nameToCode_codes name_ code :
  lookup_table nameToCode name_ = Some code -> code <> "" /\ toUpperCase code = code.
Proof.
  intros Hl. apply lookup_table_In in Hl. unfold nameToCode in Hl.
  each_entry Hl; (split; [discriminate | reflexivity]).
Qed.

Lemma extractCountryCode_candidate (data : gmap string value) s :
  country_candidate data = VStr s -> s <> "" ->
  extractCountryCode data
  = if (2 <? String.length s)%nat then
      match lookup_table nameToCode s with
      | Some code => code
      | None =>
          if includes Object_prototype_keys s then toUpperCase (inherited_toString s)
          else toUpperCase s
      end
    else toUpperCase s.
Proof.
  intros Hc Hne. unfold extractCountryCode. fold (country_candidate data). rewrite Hc.
  assert (String.eqb s "" = false) as Hs by (apply String.eqb_neq; exact Hne).
  destruct (2 <? String.length s)%nat eqn:Hlen.
  - unfold convertCountryNameToCode.
    destruct (lookup_table nameToCode s) as [code |] eqn:Hl.
    + destruct (nameToCode_codes s code Hl) as [Hcode Hupper].
      apply String.eqb_neq in Hcode. rewrite Hcode. exact Hupper.
    + destruct (includes Object_prototype_keys s); [reflexivity |].
      rewrite Hs. reflexivity.
  - cbn [truthy]. rewrite Hs. reflexivity.
Qed.

Lemma country_candidate_first (data : gmap string value) s :
  s <> "" ->
  field data "countryCode" = VStr s
  \/ (truthy (field data "countryCode") = false /\ field data "country" = VStr s) ->
  country_candidate data = VStr s.
Proof.
  intros Hne Hf.
  assert (truthy (VStr s) = true) as Ht.
  { cbn [truthy]. destruct (String.eqb_spec s ""); [contradiction | reflexivity]. }
  unfold country_candidate. destruct Hf as [Hc | [Hc Hn]].
  - rewrite Hc. unfold js_or at 1. rewrite Ht. reflexivity.
  - unfold js_or at 1. rewrite Hc, Hn. unfold js_or at 1. rewrite Ht. reflexivity.
Qed.

(** A code of at most two characters stored under [countryCode] is read
    back in upper case, whatever the other fields hold. *)
Lemma extractCountryCode_of_code (data : gmap string value) code :
  field data "countryCode" = VStr code -> code <> "" -> (String.length code <= 2)%nat ->
  extractCountryCode data = toUpperCase code.
Proof.
  intros Hf Hne Hlen.
  rewrite (extractCountryCode_candidate data code); [| | exact Hne].
  - destruct (Nat.ltb_spec 2 (String.length code)); [lia | reflexivity].
  - apply country_candidate_first; [exact Hne | left; exact Hf].
Qed.

(** A name of more than two characters stored under [countryCode] or,
    when that field is missing, under [country], is looked up in the
    conversion table, which finds inherited members too. *)
Lemma extractCountryCode_of_name (data : gmap string value) name_ :
  field data "countryCode" = VStr name_
  \/ (truthy (field data "countryCode") = false /\ field data "country" = VStr name_) ->
  (2 < String.length name_)%nat ->
  extractCountryCode data
  = match lookup_table nameToCode name_ with
    | Some code => code
    | None =>
        if includes Object_prototype_keys name_ then toUpperCase (inherited_toString name_)
        else toUpperCase name_
    end.
Proof.
  intros Hf Hlen.
  assert (name_ <> "") as Hne by (intros ->; cbn in Hlen; lia).
  rewrite (extractCountryCode_candidate data name_); [| | exact Hne].
  - destruct (Nat.ltb_spec 2 (String.length name_)); [reflexivity | lia].
  - apply country_candidate_first; assumption.
Qed.

(** X20: the country tables of the file agree with each other.  Every
    code the name table converts to has a name and a region other than
    OTHER; every code that has a name has such a region; and what the
    logger's time zone fallback writes for a time zone is read back by
    [extractCountryCode] as the same code, which [getCountryName] names
    as the logger did. *)
Theorem country_tables_agree :
  (forall name_ code,
      lookup_table nameToCode name_ = Some code ->
      getCountryName code <> code /\ getRegion code <> OTHER /\ toUpperCase code = code)
  /\ (forall code, getCountryName code <> code -> getRegion code <> OTHER)
  /\ (forall tzName country_ code,
        assoc tzToCountry tzName = Some (country_, code) ->
        extractCountryCode (getGeoFromTimezone (Some tzName)) = code
        /\ getCountryName code = country_
        /\ getRegion code <> OTHER).
Proof.
  split; [| split].
  - intros name_ code Hl. apply lookup_table_In in Hl. unfold nameToCode in Hl.
    each_entry Hl; (split; [| split]); try discriminate; reflexivity.
  - intros code Hn. unfold getCountryName in Hn.
    destruct (lookup_table countryNames code) as [name_ |] eqn:Hl; [| contradiction].
    apply lookup_table_In in Hl. unfold countryNames in Hl.
    each_entry Hl; discriminate.
  - intros tzName country_ code Ha.
    assert (extractCountryCode (getGeoFromTimezone (Some tzName)) = toUpperCase code) as ->.
    { unfold getGeoFromTimezone. rewrite Ha. apply extractCountryCode_of_code.
      - reflexivity.
      - apply assoc_In in Ha. unfold tzToCountry in Ha.
        repeat (destruct Ha as [Ha | Ha]; [injection Ha as <- <- <-; discriminate |]).
        destruct Ha.
      - apply assoc_In in Ha. unfold tzToCountry in Ha.
        repeat (destruct Ha as [Ha | Ha]; [injection Ha as <- <- <-; cbn; lia |]).
        destruct Ha. }
    apply assoc_In in Ha. unfold tzToCountry in Ha.
    repeat (destruct Ha as [Ha | Ha];
            [injection Ha as <- <- <-; split; [reflexivity | split; [reflexivity | discriminate]] |]).
    destruct Ha.
Qed.

(** X21: [extractCountryCode] always hands out a string in upper case; a
    code of one or two characters under [countryCode] is handed out in
    upper case as it is; a longer name under [countryCode] (or under
    [country] when [countryCode] is missing or falsy) is looked up in the
    conversion table: a listed name, in its listed spelling, gives its
    code; the name of a member every object inherits ("constructor",
    "toString", ...) gives the text of that member in upper case; any other
    name is handed out in upper case as it is. *)
Theorem country_code_normalised (data : gmap string value) :
  toUpperCase (extractCountryCode data) = extractCountryCode data
  /\ (forall code,
        field data "countryCode" = VStr code -> code <> "" -> (String.length code <= 2)%nat ->
        extractCountryCode data = toUpperCase code)
  /\ (forall name_,
        field data "countryCode" = VStr name_
        \/ (truthy (field data "countryCode") = false /\ field data "country" = VStr name_) ->
        (2 < String.length name_)%nat ->
        extractCountryCode data
        = match lookup_table nameToCode name_ with
          | Some code => code
          | None =>
              if includes Object_prototype_keys name_
              then toUpperCase (inherited_toString name_)
              else toUpperCase name_
          end).
Proof.
  split; [apply extractCountryCode_upper | split].
  - apply extractCountryCode_of_code.
  - apply extractCountryCode_of_name.
Qed.

End CountryCodes.

(** "Brazil" is converted, "brazil" is not (the table is case-sensitive),
    and the two-letter "UK" of the table is never looked up: it stays "UK",
    a code without a name or a region. *)
Example country_names_as_written :
  @extractCountryCode utc_platform {[ "country" := VStr "Brazil" ]} = "BR"
  /\ @extractCountryCode utc_platform {[ "country" := VStr "brazil" ]} = "BRAZIL"
  /\ @extractCountryCode utc_platform {[ "country" := VStr "UK" ]} = "UK"
  /\ convertCountryNameToCode "UK" = country_string "GB"
  /\ getCountryName "UK" = "UK" /\ getRegion "UK" = OTHER.
Proof. repeat split; vm_compute; reflexivity. Qed.

(** A country stored as "constructor" finds the constructor every object
    inherits, and is handed out as the text of that function. *)
Example country_named_constructor :
  convertCountryNameToCode "constructor" = inherited_member "constructor"
  /\ @extractCountryCode utc_platform {[ "country" := VStr "constructor" ]}
     = "FUNCTION OBJECT() { [NATIVE CODE] }".
Proof. split; vm_compute; reflexivity. Qed.

(** ** Numbers and currency codes *)

(** Conversions from integers do not yield NaN. *)

Lemma shr_1_nonneg mrs : 0 <= shr_m mrs -> 0 <= shr_m (shr_1 mrs).
Proof.
  destruct mrs as [m r s]. cbn [shr_m]. intros Hm.
  destruct m as [| [p | p |] | p]; cbn; lia.
Qed.

Lemma iter_pos_shr_1_nonneg p : forall mrs,
  0 <= shr_m mrs -> 0 <= shr_m (SpecFloat.iter_pos shr_1 p mrs).
Proof.
  induction p as [p IH | p IH |]; intros mrs Hm; cbn [SpecFloat.iter_pos].
  - apply IH, IH, shr_1_nonneg, Hm.
  - apply IH, IH, Hm.
  - apply shr_1_nonneg, Hm.
Qed.

Lemma shr_fexp_nonneg m e l :
  0 <= m -> 0 <= shr_m (fst (shr_fexp prec emax m e l)).
Proof.
  intros Hm. unfold shr_fexp, shr.
  assert (0 <= shr_m (shr_record_of_loc m l)) as Hr.
  { destruct l as [| []]; exact Hm. }
  destruct (fexp prec emax (Zdigits2 m + e) - e); cbn [fst]; try exact Hr.
  apply iter_pos_shr_1_nonneg, Hr.
Qed.

Lemma round_nearest_even_nonneg m l : 0 <= m -> 0 <= round_nearest_even m l.
Proof.
  intros Hm. unfold round_nearest_even.
  destruct l as [| []]; try destruct (Z.even m); lia.
Qed.

Lemma binary_round_aux_not_nan sx mx ex lx :
  0 <= mx -> binary_round_aux prec emax sx mx ex lx <> S754_nan.
Proof.
  intros Hm. unfold binary_round_aux.
  pose proof (shr_fexp_nonneg mx ex lx Hm) as H1.
  destruct (shr_fexp prec emax mx ex lx) as [mrs' e']. cbn [fst] in H1.
  pose proof (shr_fexp_nonneg _ e' loc_Exact
                (round_nearest_even_nonneg _ (loc_of_shr_record mrs') H1)) as H2.
  destruct (shr_fexp prec emax _ e' loc_Exact) as [mrs'' e'']. cbn [fst] in H2.
  destruct (shr_m mrs'') as [| m | m]; [discriminate | | lia].
  destruct (e'' <=? emax - prec); discriminate.
Qed.

Lemma binary_round_not_nan sx mx ex : binary_round prec emax sx mx ex <> S754_nan.
Proof.
  unfold binary_round. destruct (shl_align mx ex _) as [mz ez].
  apply binary_round_aux_not_nan. lia.
Qed.

Lemma binary_normalize_not_nan m e szero : binary_normalize prec emax m e szero <> S754_nan.
Proof. destruct m; cbn [binary_normalize]; [discriminate | |]; apply binary_round_not_nan. Qed.

Lemma is_nan_Prim2SF x : Prim2SF x <> S754_nan -> PrimFloat.is_nan x = false.
Proof.
  unfold Prim2SF. destruct (PrimFloat.is_nan x); [intros Hn; contradiction Hn |]; reflexivity.
Qed.

Lemma ldexp_not_nan f e : Prim2SF f <> S754_nan -> Prim2SF (FloatOps.Z.ldexp f e) <> S754_nan.
Proof.
  intros Hf. unfold FloatOps.Z.ldexp. rewrite FloatAxioms.ldshiftexp_spec.
  destruct (Prim2SF f); cbn [SFldexp]; try discriminate; try contradiction.
  apply binary_round_not_nan.
Qed.

Lemma opp_not_nan f : Prim2SF f <> S754_nan -> Prim2SF (- f)%float <> S754_nan.
Proof. rewrite FloatAxioms.opp_spec. destruct (Prim2SF f); cbn [SFopp]; congruence. Qed.

Lemma of_uint63_not_nan n : Prim2SF (of_uint63 n) <> S754_nan.
Proof. rewrite FloatAxioms.of_uint63_spec. apply binary_normalize_not_nan. Qed.

Lemma SF2Prim_not_nan f : f <> S754_nan -> PrimFloat.is_nan (SF2Prim f) = false.
Proof.
  intros Hf. destruct f as [[|] | [|] | | s m e]; try reflexivity; [contradiction |].
  apply is_nan_Prim2SF. unfold SF2Prim.
  destruct s; [apply opp_not_nan |]; apply ldexp_not_nan, of_uint63_not_nan.
Qed.

Lemma Number_of_bigint_not_NaN b : Number_isNaN (Number_of_bigint b) = false.
Proof. apply SF2Prim_not_nan, binary_normalize_not_nan. Qed.

Section Normalisation.
Context `{Platform}.

(** X22: [normalizeNumber] never hands out NaN: a number other than NaN
    comes back as it is (an infinity included), a bigint as the number
    nearest to it, a string as the number it reads as, or 0 when it reads
    as none, and NaN and every other value as 0; normalising twice changes
    nothing. *)
Theorem normalizeNumber_never_NaN (input : unknown) :
  Number_isNaN (normalizeNumber input) = false
  /\ (forall x, input = of_value (VNum x) -> Number_isNaN x = false ->
        normalizeNumber input = x)
  /\ (input = of_value (VNum nan) -> normalizeNumber input = 0%float)
  /\ (forall b, input = of_bigint b -> normalizeNumber input = Number_of_bigint b)
  /\ (forall s, input = of_value (VStr s) ->
        normalizeNumber input
        = if Number_isNaN (Number_ (VStr s)) then 0%float else Number_ (VStr s))
  /\ (match input with
      | of_value (VNum _) | of_value (VStr _) | of_bigint _ => False
      | _ => True
      end -> normalizeNumber input = 0%float)
  /\ normalizeNumber (of_value (VNum (normalizeNumber input))) = normalizeNumber input.
Proof.
  assert (Number_isNaN (normalizeNumber input) = false) as Hnan.
  { unfold normalizeNumber. destruct input as [v | b]; [| apply Number_of_bigint_not_NaN].
    destruct v; try reflexivity.
    - destruct (Number_isNaN x) eqn:E; [reflexivity | exact E].
    - destruct (Number_isNaN (Number_ (VStr s))) eqn:E; [reflexivity | exact E]. }
  split; [exact Hnan | split; [| split; [| split; [| split; [| split]]]]].
  - intros x -> Hx. unfold normalizeNumber. rewrite Hx. reflexivity.
  - intros ->. reflexivity.
  - intros b ->. reflexivity.
  - intros s ->. reflexivity.
  - destruct input as [v | b]; [| contradiction]. destruct v; try contradiction; reflexivity.
  - unfold normalizeNumber at 1. rewrite Hnan. reflexivity.
Qed.

End Normalisation.

(** A bigint beyond the range of numbers becomes an infinity, one within
    it the nearest number. *)
Example normalizeNumber_bigint :
  @normalizeNumber utc_platform (of_bigint 10) = 10%float
  /\ @normalizeNumber utc_platform (of_bigint (2 ^ 53 + 1)) = 9007199254740992%float
  /\ @normalizeNumber utc_platform (of_bigint (- 10 ^ 400)) = neg_infinity.
Proof. repeat split; vm_compute; reflexivity. Qed.

(** X23: the currency code the resolver settles on is never empty and is
    in upper case: the code of the settings in upper case when they hold a
    non-empty string, and "USD" when the fetch fails, when the settings are
    missing, when they hold no [stripeCurrency] or an empty one, and when
    they hold one that is not a string. *)
Theorem resolved_code_shape (result : outcome value) :
  resolved_code result <> ""
  /\ toUpperCase (resolved_code result) = resolved_code result
  /\ (forall settings s,
        result = Fulfilled (VMap settings) -> settings !! "stripeCurrency" = Some (VStr s) ->
        s <> "" -> resolved_code result = toUpperCase s)
  /\ (forall settings,
        result = Fulfilled settings ->
        truthy (opt_field settings "stripeCurrency") = false -> resolved_code result = "USD")
  /\ (forall settings,
        result = Fulfilled settings ->
        match opt_field settings "stripeCurrency" with VStr _ => False | _ => True end ->
        resolved_code result = "USD").
Proof.
  split; [| split; [| split; [| split]]].
  - pose proof (resolved_code_nonempty result) as Hn. apply String.eqb_neq. exact Hn.
  - unfold resolved_code. destruct result as [settings |]; [| reflexivity].
    destruct settings; try reflexivity;
      match goal with
      | |- context [js_or ?a ?b] => destruct (js_or a b); try reflexivity
      end; apply toUpperCase_idempotent.
  - intros settings s -> Hs Hne. unfold resolved_code, opt_field, field. rewrite Hs.
    cbn [default from_option id]. unfold js_or. cbn [truthy].
    destruct (String.eqb_spec s ""); [contradiction | reflexivity].
  - intros settings -> Hf. unfold resolved_code, js_or. rewrite Hf.
    destruct settings; reflexivity.
  - intros settings -> Hf. unfold resolved_code, js_or.
    destruct settings; try reflexivity;
      destruct (truthy (opt_field _ "stripeCurrency")); try reflexivity;
      destruct (opt_field _ "stripeCurrency"); try contradiction; reflexivity.
Qed.

(** ** Range boundaries *)

Lemma fromDate_millis t :
  ((t / 1000) * 1000000000 + (t mod 1000) * 1000000) = t * 1000000.
Proof. pose proof (Z.div_mod t 1000). lia. Qed.

Section Boundaries.
Context `{Platform}.

(** X24: a date written by [Timestamp.fromDate], as [buildRangeConstraints]
    writes the bounds of a range, is read back by [extractTimestamp] as the
    same instant; and a record stamped with such a date is in a range on
    the server-side path exactly when it is on the fallback scan: when the
    instant is at or after the start and before the end, to the
    millisecond. *)
Theorem range_boundaries_agree (now t : Z) (range : DateRange) (d : Document) (f : string) :
  Z.abs t <= 8640000000000000 ->
  field (doc_data d) f = Timestamp_fromDate t ->
  extractTimestamp now (Timestamp_fromDate t) = DateOf t
  /\ matches_all (buildRangeConstraints range f) d
     = (range_start range <=? t) && (t <? range_end range)
  /\ in_range (extractTimestamp now (field (doc_data d) f)) range
     = (range_start range <=? t) && (t <? range_end range).
Proof.
  intros Ht Hf.
  assert (extractTimestamp now (Timestamp_fromDate t) = DateOf t) as Hread.
  { unfold extractTimestamp, Timestamp_fromDate. cbn [truthy negb].
    unfold Timestamp_toDate. rewrite fromDate_millis, Z.quot_mul by lia.
    unfold TimeClip. destruct (Z.leb_spec (Z.abs t) 8640000000000000); [reflexivity | lia]. }
  split; [exact Hread | split].
  - assert (0 <= t mod 1000 * 1000000 < 1000000000) as Hn.
    { pose proof (Z.mod_pos_bound t 1000). lia. }
    unfold buildRangeConstraints, matches_all. cbn [forallb matches].
    unfold Timestamp_fromDate in Hf.
    rewrite (stored_timestamp_ge _ _ _ _ f Hf Hn), (stored_timestamp_lt _ _ _ _ f Hf Hn).
    rewrite fromDate_millis, Z.div_mul by lia. rewrite andb_true_r. reflexivity.
  - rewrite Hf, Hread. reflexivity.
Qed.

End Boundaries.

Lemma range_boundaries_agree_witness :
  Z.abs 1710000000000 <= 8640000000000000
  /\ @extractTimestamp utc_platform sample_now (Timestamp_fromDate 1710000000000)
     = DateOf 1710000000000.
Proof.
  assert (Z.abs 1710000000000 <= 8640000000000000) as Ht by (cbn; lia).
  assert (field (doc_data order_100) "createdAt" = Timestamp_fromDate 1710000000000) as Hf
    by (vm_compute; reflexivity).
  split; [exact Ht |].
  apply (@range_boundaries_agree utc_platform sample_now 1710000000000 sample_range order_100
           "createdAt" Ht Hf).
Defined.

(** ** Currency resolver: any interleaving *)

(** X25: whatever the order in which calls arrive, fetches settle and
    suspended callers resume, every caller that is answered receives a code
    that is not empty and is in upper case; and once one caller has been
    answered, the settings are never fetched again. *)
Theorem currency_answers_in_any_order (before after : list CurrencyEvent) :
  Forall (fun answer => snd answer <> "" /\ toUpperCase (snd answer) = snd answer)
    (snd (currency_run initial_currency before))
  /\ (snd (currency_run initial_currency before) <> [] ->
      settingsFetches (fst (currency_run initial_currency (before ++ after)))
      = settingsFetches (fst (currency_run initial_currency before))).
Proof.
  assert (currency_ok initial_currency) as H0.
  { split; [intros code Hc; discriminate Hc | constructor]. }
  destruct (currency_run_ok before initial_currency H0) as (Hs1 & Hout & Hans & _).
  split; [exact Hout |].
  intros Hne. rewrite currency_run_app.
  destruct (currency_run initial_currency before) as [s1 out1]. cbn [fst snd] in *.
  destruct (currency_run_ok after s1 Hs1) as (_ & _ & _ & Hkeep).
  destruct (currency_run s1 after) as [s2 out2]. cbn [fst snd] in *.
  apply Hkeep. apply Hans. exact Hne.
Qed.

(** ** The properties above on sample data *)

Lemma date_key_round_trip_witness :
  100 <= @getFullYear utc_platform sample_now
  /\ @parseDateKey utc_platform (@getDateKey utc_platform (DateOf sample_now) "month") "month"
     = DateOf (@bucket_start utc_platform "month" sample_now).
Proof.
  assert (100 <= @getFullYear utc_platform sample_now) as Hyear
    by (vm_compute; discriminate).
  assert (- 8640000000000000 + 32 * msPerDay <= sample_now <= 8640000000000000) as Hrange
    by (unfold sample_now, msPerDay; lia).
  split; [exact Hyear |].
  apply (@date_key_round_trip utc_platform "month" sample_now Hyear Hrange).
Defined.

(** A key of the year 50 is read back in 1950. *)
Example date_key_of_year_50 :
  @parseDateKey utc_platform
    (@getDateKey utc_platform (DateOf (@month_start utc_platform 50 0)) "month") "month"
  = DateOf (@month_start utc_platform 1950 0).
Proof. vm_compute. reflexivity. Qed.

Lemma date_key_same_bucket_witness :
  0 <= @getFullYear utc_platform sample_now
  /\ (@getDateKey utc_platform (DateOf sample_now) "today"
      = @getDateKey utc_platform (DateOf (sample_now + 1000)) "today"
      <-> @bucket_start utc_platform "today" sample_now
          = @bucket_start utc_platform "today" (sample_now + 1000)).
Proof.
  assert (0 <= @getFullYear utc_platform sample_now) as H1 by (vm_compute; discriminate).
  assert (0 <= @getFullYear utc_platform (sample_now + 1000)) as H2
    by (vm_compute; discriminate).
  split; [exact H1 |].
  apply (@date_key_same_bucket utc_platform "today" sample_now (sample_now + 1000) H1 H2).
Defined.

Lemma scan_counts_split_witness :
  1709251200000 <= 1710000000000 <= 1710498600000
  /\ agg_count (@aggregateOrders_scan utc_platform (fun _ => sample_now) [order_100]
                  {| range_start := 1709251200000; range_end := 1710498600000 |})
     = agg_count (@aggregateOrders_scan utc_platform (fun _ => sample_now) [order_100]
                    {| range_start := 1709251200000; range_end := 1710000000000 |})
       + agg_count (@aggregateOrders_scan utc_platform (fun _ => sample_now) [order_100]
                      {| range_start := 1710000000000; range_end := 1710498600000 |}).
Proof.
  assert (1709251200000 <= 1710000000000 <= 1710498600000) as Habc by lia.
  split; [exact Habc |].
  apply (@scan_counts_split utc_platform (fun _ => sample_now) [order_100]
           1709251200000 1710000000000 1710498600000 Habc).
Defined.

Lemma empty_range_aggregates_witness :
  range_end empty_range <= range_start empty_range
  /\ forall n,
       @countDocumentsInRange utc_platform one_order_store (fun _ => sample_now)
         "orders" "createdAt" empty_range no_options = Fulfilled n ->
       n = 0.
Proof.
  assert (range_end empty_range <= range_start empty_range) as Hr by (cbn; lia).
  split; [exact Hr |].
  intros n.
  apply (proj2 (@empty_range_aggregates utc_platform one_order_store (fun _ => sample_now)
                  empty_range Hr) "orders" "createdAt" no_options n).
Defined.

Lemma unknown_period_metrics_witness :
  ~ known_period "quarter"
  /\ Forall (fun m => metric_previousValue m = 0%float
                      /\ metric_changePercentage m
                         = if (metric_currentValue m =? 0)%float then Some 0%float else None)
       (analytics_metrics
          (@getAnalyticsSnapshot utc_platform (activity_store []) (fun _ _ => sample_now)
             (fun _ _ => sample_now) sample_now "USD" "quarter")).
Proof.
  assert (~ known_period "quarter") as Hn.
  { intros [Hq | [Hq | [Hq | Hq]]]; discriminate Hq. }
  split; [exact Hn |].
  apply (@unknown_period_metrics utc_platform (activity_store []) (fun _ _ => sample_now)
           (fun _ _ => sample_now) sample_now "USD" "quarter" Hn).
Defined.

(** With the tag "quarter" on the sample store the six metrics are there,
    each compared with 0. *)
Example unknown_period_metrics_listed :
  map metric_key
    (analytics_metrics
       (@getAnalyticsSnapshot utc_platform (activity_store []) (fun _ _ => sample_now)
          (fun _ _ => sample_now) sample_now "USD" "quarter"))
  = ["totalOrders"; "revenue"; "averageOrderValue"; "newCustomers"; "productsUpdated";
     "galleryUploads"].
Proof. vm_compute. reflexivity. Qed.

(** Two items of one product in a completed order of March: one entry,
    with the revenue of both items and the estimates for views and
    conversion. *)
Example top_products_of_one_order :
  @getTopProducts utc_platform
    (store_of
       [doc_of "order-7"
          [("status", VStr "completed"); ("createdAt", T0);
           ("items",
            VArr [VMap {[ "productId" := VStr "p1"; "productName" := VStr "Slab";
                          "price" := VNum 10%float; "quantity" := VNum 2%float ]};
                  VMap {[ "productId" := VStr "p1"; "price" := VNum 5%float;
                          "quantity" := VNum 1%float ]}])]] [] [])
    sample_now "month" 10
  = [{| productId := VStr "p1"; productName := VStr "Slab"; product_revenue := 25%float;
        product_orders := 2; product_views := 20; conversionRate := 10%float |}].
Proof. vm_compute. reflexivity. Qed.

(** An order without a status is pending for the scan and not for the
    server-side count. *)
Example order_without_status :
  summary_pending (@ordersSummary_scan utc_platform [order_100]) = 1
  /\ summary_pending (@ordersSummary_server utc_platform [order_100]) = 0.
Proof. split; vm_compute; reflexivity. Qed.

(** A lookup that fails in the time zone of Madrid finds Spain; the later
    answer of the service is not asked for. *)
Example geo_lookup_falls_back :
  snd (logger_run (Some "Europe/Madrid") initial_logger
         [get_geo Rejected;
          get_geo (Fulfilled (VMap {[ "country_code" := VStr "BR" ]}))])
  = [ {[ "country" := VStr "Spain"; "countryCode" := VStr "ES" ]};
      {[ "country" := VStr "Spain"; "countryCode" := VStr "ES" ]} ].
Proof. vm_compute. reflexivity. Qed.
